(** * Product-Management-API: the request pipeline and the product code generator

    A shallow embedding of the TypeScript sources: the product code
    generator (utils/generateProductCode.ts), the Zod schemas and the
    [validate] middleware (middleware/validation.ts), the error handler
    (middleware/errorHandler.ts), the two Mongoose models, the controllers
    and the routers.  Numbers are IEEE 754 binary64 values, JavaScript
    objects are finite maps from keys to values, and a handler is a
    computation in a state and error monad over the two collections.

    The model has limits, and the theorems are stated so as not to lean
    on them.  Strings are sequences of 8-bit code units, on which lower
    casing keeps the length.  The values of a body, a query and a
    document are scalars: a body with nested objects, such as an update
    made of operators, is not expressible.  A request is one whose body
    the body parser has read.  A sort leaves documents with equal keys
    in the order of the collection, where the store promises no order
    among them.  A document is read as it was stored. *)

From Stdlib Require Import ZArith String Ascii List Bool Lia DecimalString.
From Stdlib Require Import Floats.SpecFloat.
From Stdlib Require Import Sorting.Sorted.
From stdpp Require Import gmap strings.
Import ListNotations.
Open Scope Z_scope.

(** * JavaScript numbers and values *)

(** A Number is an IEEE 754 binary64 value. *)
Definition number := spec_float.
Definition prec : Z := 53.
Definition emax : Z := 1024.

Definition num_of_Z (z : Z) : number := binary_normalize prec emax z 0 false.
Definition js_mul : number -> number -> number := SFmul prec emax.
Definition js_div : number -> number -> number := SFdiv prec emax.
Definition js_sub : number -> number -> number := SFsub prec emax.
Definition js_lt (a b : number) : bool := SFltb a b.
Definition js_gt (a b : number) : bool := SFltb b a.
Definition js_le (a b : number) : bool := SFleb a b.
Definition js_ge (a b : number) : bool := SFleb b a.
Definition NaN : number := S754_nan.
Definition isNaN (n : number) : bool := match n with S754_nan => true | _ => false end.
Definition isFinite (n : number) : bool :=
  match n with S754_zero _ | S754_finite _ _ _ => true | _ => false end.

(** [Math.ceil]. *)
Definition Math_ceil (x : number) : number :=
  match x with
  | S754_finite s m e =>
      if 0 <=? e then x
      else
        let q := Z.pos m / 2 ^ (- e) in
        let exact := Z.pos m mod 2 ^ (- e) =? 0 in
        if s then match q with Z0 => S754_zero true | _ => num_of_Z (- q) end
             (* the ceiling of a negative number drops the fraction *)
        else num_of_Z (if exact then q else q + 1)
  | _ => x
  end.

(** The number of hundredths nearest to [m * 2^e], the larger one on a
    tie: the integer [n] of [Number.prototype.toFixed]. *)
Definition hundredths (m : positive) (e : Z) : Z :=
  if 0 <=? e then 100 * Z.pos m * 2 ^ e
  else (200 * Z.pos m + 2 ^ (- e)) / 2 ^ (- e + 1).

(** [parseFloat(x.toFixed(2))].  [toFixed] prints the decimal digits of
    [hundredths] with the sign of [x] (for an integer [x], its own digits
    followed by [.00], or its exponent form from 1e21 on); [parseFloat]
    reads them back as the nearest Number. *)
Definition toFixed2 (x : number) : number :=
  match x with
  | S754_zero _ => S754_zero false
  | S754_finite s m e =>
      if 0 <=? e then x
      else match hundredths m e with
           | Zpos n => js_div (S754_finite s n 0) (num_of_Z 100)
           | _ => S754_zero s
           end
  | _ => x
  end.

(** * src/utils/generateProductCode.ts *)

(** [str[i]]: a code unit, or [undefined] outside the string. *)
Definition charAt (s : string) (i : Z) : option ascii :=
  if i <? 0 then None else String.get (Z.to_nat i) s.

(** [a > b] on what indexing returns: single characters compare by code
    unit, and a comparison with [undefined] is false. *)
Definition gt_char (a b : option ascii) : bool :=
  match a, b with
  | Some x, Some y => (nat_of_ascii y <? nat_of_ascii x)%nat
  | _, _ => false
  end.

(** [String.prototype.substring(start, end)]: both ends are clamped to
    the string and swapped when out of order. *)
Definition js_substring (s : string) (from to : Z) : string :=
  let len := Z.of_nat (String.length s) in
  let a := Z.min (Z.max from 0) len in
  let b := Z.min (Z.max to 0) len in
  String.substring (Z.to_nat (Z.min a b)) (Z.to_nat (Z.max a b - Z.min a b)) s.

(** [String.prototype.toLowerCase] on code units below 256. *)
Definition lower_char (c : ascii) : ascii :=
  let n := nat_of_ascii c in
  if ((65 <=? n) && (n <=? 90))%nat then ascii_of_nat (n + 32)
  else if ((192 <=? n) && (n <=? 222) && negb (n =? 215))%nat then ascii_of_nat (n + 32)
  else c.

Fixpoint toLowerCase (s : string) : string :=
  match s with
  | EmptyString => EmptyString
  | String c s' => String (lower_char c) (toLowerCase s')
  end.

(** The first [while] loop.  Both branches end in [right++], so the body
    runs once for each index of the string: [n] counts the iterations
    that remain. *)
Fixpoint lengthLoop (n : nat) (str : string) (maxLength left right : Z) : Z * Z * Z :=
  match n with
  | O => (maxLength, left, right)
  | S n' =>
      if gt_char (charAt str right) (charAt str (right - 1))
      then lengthLoop n' str maxLength left (right + 1)
      else lengthLoop n' str (Z.max maxLength (right - left - 1)) (right - 1) (right + 1)
  end.

Definition findLongestIncreasingSubstringsLength (str : string) : Z :=
  let '(maxLength', left', right') := lengthLoop (String.length str) str 0 (-1) 0 in
  Z.max maxLength' (right' - left' - 1).

Record results := mkResults { substring : string; startIndex : Z; endIndex : Z }.

(** The body of [if (right - left - 1 === maxLength)]. *)
Definition recordRun (lowerStr : string) (maxLength left right : Z) (r : results) : results :=
  if right - left - 1 =? maxLength then
    {| substring := substring r +:+ js_substring lowerStr (left + 1) right;
       startIndex := if startIndex r =? -1 then left + 1 else startIndex r;
       endIndex := right - 1 |}
  else r.

(** The second [while] loop. *)
Fixpoint collectLoop (n : nat) (lowerStr : string) (maxLength left right : Z)
    (r : results) : Z * Z * results :=
  match n with
  | O => (left, right, r)
  | S n' =>
      if gt_char (charAt lowerStr right) (charAt lowerStr (right - 1))
      then collectLoop n' lowerStr maxLength left (right + 1) r
      else collectLoop n' lowerStr maxLength (right - 1) (right + 1)
             (recordRun lowerStr maxLength left right r)
  end.

Definition findLongestIncreasingSubstrings (str : string) : results :=
  let lowerStr := toLowerCase str in
  let maxLength := findLongestIncreasingSubstringsLength lowerStr in
  let '(left', right', r) :=
    collectLoop (String.length lowerStr) lowerStr maxLength (-1) 0
      {| substring := EmptyString; startIndex := -1; endIndex := 0 |} in
  if right' - left' - 1 =? maxLength then recordRun lowerStr maxLength left' right' r else r.

(** Template-literal conversion of an integer-valued number. *)
Definition Z_to_string (z : Z) : string := NilZero.string_of_int (Z.to_int z).

(** [generateHash] takes the first seven characters of the hexadecimal
    MD5 digest; the digest itself is the platform's ([md5]). *)
Definition generateHash (md5 : string -> string) (productName : string) : string :=
  js_substring (md5 productName) 0 7.

(** [generateProductCode]; [getTime] is the clock reading
    [new Date().getTime()]. *)
Definition generateProductCode (md5 : string -> string) (getTime : Z)
    (productName : string) : string :=
  let r := findLongestIncreasingSubstrings productName in
  generateHash md5 productName +:+ Z_to_string getTime +:+ "-" +:+
  Z_to_string (startIndex r) +:+ substring r +:+ Z_to_string (endIndex r).

(** ** The code generator as the specification words it *)

(** The maximal runs of strictly increasing characters, in order of
    appearance, each with the index where it starts. [cur] is the run
    being read, [last] its last character. *)
Fixpoint runs_from (start : nat) (cur : string) (last : ascii) (rest : string)
    : list (nat * string) :=
  match rest with
  | EmptyString => [(start, cur)]
  | String c rest' =>
      if (nat_of_ascii last <? nat_of_ascii c)%nat
      then runs_from start (cur +:+ String c EmptyString) c rest'
      else (start, cur) :: runs_from (start + String.length cur) (String c EmptyString) c rest'
  end.

Definition increasing_runs (s : string) : list (nat * string) :=
  match s with
  | EmptyString => []
  | String c rest => runs_from 0 (String c EmptyString) c rest
  end.

Definition run_length (r : nat * string) : nat := String.length (snd r).
Definition run_start (r : nat * string) : Z := Z.of_nat (fst r).
Definition run_end (r : nat * string) : Z := Z.of_nat (fst r + run_length r) - 1.

Definition longest_run_length (s : string) : nat :=
  list_max (map run_length (increasing_runs s)).

Definition tying_runs (s : string) : list (nat * string) :=
  List.filter (fun r => (run_length r =? longest_run_length s)%nat) (increasing_runs s).

(** A JavaScript value as a request carries it or a handler builds it;
    [undefined] is [None] at a property lookup. *)
Inductive value :=
  | VNull
  | VBoolean (b : bool)
  | VNumber (n : number)
  | VString (s : string)
  | VDate (t : Z).

(** A plain object: request bodies, queries, route parameters, update
    documents. *)
Abbreviation object := (gmap string value).

Definition typeof (v : option value) : string :=
  match v with
  | None => "undefined"
  | Some VNull => "null"
  | Some (VBoolean _) => "boolean"
  | Some (VNumber n) => if isNaN n then "NaN" else "number"
  | Some (VString _) => "string"
  | Some (VDate _) => "Date"
  end.

Definition string_eqb (a b : string) : bool := bool_decide (a = b).

(** ToBoolean. *)
Definition truthy (v : option value) : bool :=
  match v with
  | None | Some VNull => false
  | Some (VBoolean b) => b
  | Some (VNumber (S754_zero _)) | Some (VNumber S754_nan) => false
  | Some (VNumber _) => true
  | Some (VString s) => negb (string_eqb s EmptyString)
  | Some (VDate _) => true
  end.

(** [a || b]. *)
Definition js_or (a b : option value) : option value := if truthy a then a else b.

(** A destructuring default [{ x = d }]: it replaces [undefined] only. *)
Definition js_default (a : option value) (d : value) : option value :=
  match a with None => Some d | Some _ => a end.

Definition is_digit (c : ascii) : bool :=
  let n := nat_of_ascii c in ((48 <=? n) && (n <=? 57))%nat.

Fixpoint all_digits (s : string) : bool :=
  match s with
  | EmptyString => true
  | String c s' => is_digit c && all_digits s'
  end.

(** [/^\d+$/.test(s)]. *)
Definition digits_only (s : string) : bool :=
  negb (string_eqb s EmptyString) && all_digits s.

Fixpoint decimal_value (acc : Z) (s : string) : Z :=
  match s with
  | EmptyString => acc
  | String c s' => decimal_value (10 * acc + (Z.of_nat (nat_of_ascii c) - 48)) s'
  end.

(** ToNumber on a string.  The empty string is 0 and a string of digits
    is its decimal value; the other numeric literals (signs, fractions,
    exponents, radix prefixes, surrounding blanks) are left out: the
    strings on which the handlers compute have passed [digits_only]. *)
Definition string_to_number (s : string) : number :=
  if string_eqb s EmptyString then S754_zero false
  else if all_digits s then num_of_Z (decimal_value 0 s)
  else NaN.

(** ToNumber. *)
Definition ToNumber (v : option value) : number :=
  match v with
  | None => NaN
  | Some VNull => S754_zero false
  | Some (VBoolean b) => if b then num_of_Z 1 else S754_zero false
  | Some (VNumber n) => n
  | Some (VString s) => string_to_number s
  | Some (VDate t) => num_of_Z t
  end.

(** The platform and library functions the code calls and the model
    takes as given. *)
Class Platform := {
  (** [crypto.createHash('md5').update(s).digest('hex')] *)
  md5_hex : string -> string;
  (** whether Zod's [url()] accepts the string *)
  isURL : string -> bool;
  (** whether the store's case-insensitive [$regex] finds the pattern in
      the text, for a pattern the store accepts *)
  regexSearch : string -> string -> bool;
  (** the code and the message with which the store refuses a [$regex]
      pattern that is no regular expression; [None] for a pattern it
      accepts *)
  regexError : string -> option (Z * string);
  (** [String(v)] for a value that is not a string *)
  toStringOf : value -> string;
  (** [new Date(s)], [None] for an invalid date *)
  parseDate : string -> option Z;
  (** [process.env.NODE_ENV === 'development'] *)
  development : bool
}.

(** * src/middleware/validation.ts *)

(** ** The part of Zod the schemas use *)

Inductive zmessage :=
  | Custom (text : string)                      (* the message the schema gives *)
  | InvalidType (expected received : string)    (* Zod's own: expected _, received _ *)
  | InvalidOption (options : list string).      (* Zod's own: expected one of _ *)

Record issue := mkIssue { i_path : list string; i_message : zmessage; i_code : string }.

Inductive string_check :=
  | SMin (n : nat) (message : string)
  | SMax (n : nat) (message : string)
  | SUrl (message : string)
  | SRegexDigits (message : string)       (* .regex(/^\d+$/, message) *)
  | SRefineObjectId (message : string).   (* .refine(mongoose.Types.ObjectId.isValid, ...) *)

Inductive number_check :=
  | NMin (bound : number) (message : string)
  | NMax (bound : number) (message : string).

Inductive zschema :=
  | ZString (checks : list string_check)
  | ZNumber (checks : list number_check)
  | ZEnum (options : list string)
  | ZTransformNumber (inner : zschema)    (* .transform(Number) *)
  | ZOptional (inner : zschema)
  | ZDefault (inner : zschema) (d : value).

Definition is_hex (c : ascii) : bool :=
  let n := nat_of_ascii c in
  (((48 <=? n) && (n <=? 57)) || ((65 <=? n) && (n <=? 70)) || ((97 <=? n) && (n <=? 102)))%nat.

Fixpoint all_hex (s : string) : bool :=
  match s with
  | EmptyString => true
  | String c s' => is_hex c && all_hex s'
  end.

(** [mongoose.Types.ObjectId.isValid] on a string: 24 hexadecimal
    digits. *)
Definition ObjectId_isValid (s : string) : bool :=
  (String.length s =? 24)%nat && all_hex s.

Section Zod.
Context `{Platform}.

Definition run_string_check (s : string) (c : string_check) : list (zmessage * string) :=
  match c with
  | SMin n m => if (n <=? String.length s)%nat then [] else [(Custom m, "too_small")]
  | SMax n m => if (String.length s <=? n)%nat then [] else [(Custom m, "too_big")]
  | SUrl m => if isURL s then [] else [(Custom m, "invalid_format")]
  | SRegexDigits m => if digits_only s then [] else [(Custom m, "invalid_format")]
  | SRefineObjectId m => if ObjectId_isValid s then [] else [(Custom m, "custom")]
  end.

Definition run_number_check (n : number) (c : number_check) : list (zmessage * string) :=
  match c with
  | NMin b m => if js_ge n b then [] else [(Custom m, "too_small")]
  | NMax b m => if js_le n b then [] else [(Custom m, "too_big")]
  end.

(** Parsing one value: the issues found and, when there are none, the
    parsed output.  A value of the wrong type gives one issue and its
    checks are not run; otherwise every check runs. *)
Fixpoint parse (z : zschema) (v : option value) : list (zmessage * string) * option value :=
  match z with
  | ZString checks =>
      match v with
      | Some (VString s) => (flat_map (run_string_check s) checks, v)
      | _ => ([(InvalidType "string" (typeof v), "invalid_type")], None)
      end
  | ZNumber checks =>
      match v with
      | Some (VNumber n) =>
          if isFinite n then (flat_map (run_number_check n) checks, v)
          else ([(InvalidType "number" (typeof v), "invalid_type")], None)
      | _ => ([(InvalidType "number" (typeof v), "invalid_type")], None)
      end
  | ZEnum options =>
      match v with
      | Some (VString s) =>
          if existsb (string_eqb s) options then ([], v)
          else ([(InvalidOption options, "invalid_value")], None)
      | _ => ([(InvalidOption options, "invalid_value")], None)
      end
  | ZTransformNumber inner =>
      match parse inner v with
      | ([], out) => ([], Some (VNumber (ToNumber out)))
      | (issues, _) => (issues, None)
      end
  | ZOptional inner =>
      match v with
      | None => ([], None)
      | Some _ => parse inner v
      end
  | ZDefault inner d =>
      match v with
      | None => ([], Some d)
      | Some _ => parse inner v
      end
  end.

(** [z.object(shape)]: every field of the shape is parsed, the issues
    of all fields are gathered in the order of the shape, and the output
    keeps the keys of the shape only. *)
Fixpoint parse_fields (prefix : list string) (shape : list (string * zschema))
    (input : object) : list issue * object :=
  match shape with
  | [] => ([], ∅)
  | (key, z) :: shape' =>
      let '(found, out) := parse z (input !! key) in
      let '(issues, output) := parse_fields prefix shape' input in
      (map (fun '(m, c) => mkIssue (prefix ++ [key]) m c) found ++ issues,
       match out with Some o => <[key := o]> output | None => output end)
  end.

Definition parse_object (name : string) (shape : list (string * zschema))
    (input : option object) : list issue * object :=
  match input with
  | Some o => parse_fields [name] shape o
  | None => ([mkIssue [name] (InvalidType "object" "undefined") "invalid_type"], ∅)
  end.
End Zod.

(** ** The schemas *)

Definition objectIdSchema : zschema := ZString [SRefineObjectId "Invalid ObjectId format"].

Definition statusEnum : zschema := ZEnum ["In Stock"; "Stock Out"].

(** A schema of the file: the sections of the request it constrains, in
    the order it lists them. *)
Inductive section := InParams | InQuery | InBody.

Definition request_schema := list (section * list (string * zschema)).

Definition createProductSchema : request_schema :=
  [(InBody,
    [("name", ZString [SMin 1 "Product name is required";
                       SMax 100 "Product name must be less than 100 characters"]);
     ("description", ZString [SMin 1 "Description is required";
                              SMax 500 "Description must be less than 500 characters"]);
     ("price", ZNumber [NMin (num_of_Z 0) "Price must be a positive number"]);
     ("discount", ZDefault (ZOptional (ZNumber [NMin (num_of_Z 0) "Discount must be at least 0";
                                                NMax (num_of_Z 100) "Discount cannot exceed 100%"]))
                    (VNumber (num_of_Z 0)));
     ("image", ZString [SUrl "Image must be a valid URL"]);
     ("status", ZDefault (ZOptional statusEnum) (VString "In Stock"));
     ("categoryId", objectIdSchema)])].

Definition updateProductSchema : request_schema :=
  [(InParams, [("id", objectIdSchema)]);
   (InBody,
    [("name", ZOptional (ZString [SMin 1 "Product name is required";
                                  SMax 100 "Product name must be less than 100 characters"]));
     ("description", ZOptional (ZString [SMin 1 "Description is required";
                                         SMax 500 "Description must be less than 500 characters"]));
     ("price", ZOptional (ZNumber [NMin (num_of_Z 0) "Price must be a positive number"]));
     ("discount", ZOptional (ZNumber [NMin (num_of_Z 0) "Discount must be at least 0";
                                      NMax (num_of_Z 100) "Discount cannot exceed 100%"]));
     ("image", ZOptional (ZString [SUrl "Image must be a valid URL"]));
     ("status", ZOptional statusEnum);
     ("categoryId", ZOptional objectIdSchema)])].

Definition getProductByIdSchema : request_schema :=
  [(InParams, [("id", objectIdSchema)])].

Definition createCategorySchema : request_schema :=
  [(InBody,
    [("name", ZString [SMin 1 "Category name is required";
                       SMax 50 "Category name must be less than 50 characters"]);
     ("description", ZOptional (ZString [SMax 200 "Description must be less than 200 characters"]))])].

Definition updateCategorySchema : request_schema :=
  [(InParams, [("id", objectIdSchema)]);
   (InBody,
    [("name", ZOptional (ZString [SMin 1 "Category name is required";
                                  SMax 50 "Category name must be less than 50 characters"]));
     ("description", ZOptional (ZString [SMax 200 "Description must be less than 200 characters"]))])].

Definition getCategoryByIdSchema : request_schema :=
  [(InParams, [("id", objectIdSchema)])].

Definition paginationSchema : request_schema :=
  [(InQuery,
    [("page", ZOptional (ZTransformNumber (ZString [SRegexDigits "Page must be a positive number"])));
     ("limit", ZOptional (ZTransformNumber (ZString [SRegexDigits "Limit must be a positive number"])));
     ("search", ZOptional (ZString []));
     ("category", ZOptional objectIdSchema);
     ("status", ZOptional statusEnum);
     ("sortBy", ZOptional (ZEnum ["name"; "price"; "createdAt"; "updatedAt"]));
     ("sortOrder", ZOptional (ZEnum ["asc"; "desc"]))])].

(** * src/models: the documents and the store *)

Record category := mkCategory {
  c_id : string;
  c_name : string;
  c_description : option string;
  c_createdAt : option Z;
  c_updatedAt : option Z
}.

Record product := mkProduct {
  p_id : string;
  p_name : string;
  p_description : string;
  p_price : number;
  p_discount : option number;
  p_image : string;
  p_status : option string;
  p_productCode : string;
  p_category : string;
  p_categoryName : option string;
  p_createdAt : option Z;
  p_updatedAt : option Z
}.

(** A call of a model method, as a handler makes it. *)
Inductive store_call := StoreCall (model operation : string).

(** The two collections in insertion order, the counter from which the
    store draws identifiers and the calls made so far. *)
Record state := mkState {
  categories : list category;
  products : list product;
  nextId : N;
  calls : list store_call
}.

(** ** What a handler can throw *)

Inductive validator_kind := VRequired | VMin | VMax | VEnum | VMatch | VCast.

Inductive error :=
  | ZodError (issues : list issue)
  | ValidationError (errors : list (string * validator_kind * option value))
  | CastError (path kind : string) (v : option value)
  | DuplicateKeyError (field v : string)   (* MongoServerError: code 11000, keyValue { field: v } *)
  | MongoServerError (code : Z) (message : string)   (* with any other code *)
  | MongoNetworkError (message : string)
  | AppError (message : string) (statusCode : Z) (code : string)
  | HttpError (message : string) (statusCode : Z)   (* of http-errors, as body-parser makes them *)
  | OtherError (message : string).

(** ** Handlers run in a state and error monad over the store *)

Definition M (A : Type) : Type := state -> (error + A) * state.

Definition ret {A} (a : A) : M A := fun st => (inr a, st).
Definition throw {A} (e : error) : M A := fun st => (inl e, st).
Definition bind {A B} (m : M A) (k : A -> M B) : M B :=
  fun st => match m st with
            | (inr a, st') => k a st'
            | (inl e, st') => (inl e, st')
            end.
Definition get_state : M state := fun st => (inr st, st).
Definition put_state (st' : state) : M unit := fun _ => (inr tt, st').

Declare Scope store_scope.
Delimit Scope store_scope with store.
Open Scope store_scope.
Notation "x <- m ;; k" := (bind m (fun x => k))
  (at level 100, m at next level, right associativity) : store_scope.
Notation "m ;;; k" := (bind m (fun _ => k))
  (at level 100, right associativity) : store_scope.

Definition record_call (model operation : string) : M unit :=
  fun st => (inr tt, mkState (categories st) (products st) (nextId st)
                        (calls st ++ [StoreCall model operation])).

(** ** Casting to the types of the schema paths *)

Inductive cast (A : Type) := Absent | Null | Cast (x : A) | Failed (v : value).
Arguments Absent {A}. Arguments Null {A}. Arguments Cast {A} x. Arguments Failed {A} v.

Definition trunc (n : number) : Z :=
  match n with
  | S754_finite s m e =>
      let a := if 0 <=? e then Z.pos m * 2 ^ e else Z.pos m / 2 ^ (- e) in
      if s then - a else a
  | _ => 0
  end.

Definition hex_char (n : N) : ascii :=
  ascii_of_N (if (n <? 10)%N then 48 + n else 87 + n).

Fixpoint hex_digits (width : nat) (n : N) : string :=
  match width with
  | O => EmptyString
  | S w => hex_digits w (n / 16) +:+ String (hex_char (n mod 16)) EmptyString
  end.

(** [/^https?:\/\/.+$/]: the scheme, then at least one character, none of
    them a line terminator the dot refuses. *)
Fixpoint no_line_break (s : string) : bool :=
  match s with
  | EmptyString => true
  | String c s' => negb ((nat_of_ascii c =? 10) || (nat_of_ascii c =? 13))%nat && no_line_break s'
  end.

Definition after_prefix (p s : string) : option string :=
  if String.prefix p s then Some (String.substring (String.length p) (String.length s) s)
  else None.

Definition image_match (s : string) : bool :=
  match after_prefix "http://" s, after_prefix "https://" s with
  | Some r, _ | None, Some r => negb (string_eqb r EmptyString) && no_line_break r
  | None, None => false
  end.

Section Casting.
Context `{Platform}.

Definition castString (v : option value) : cast string :=
  match v with
  | None => Absent
  | Some VNull => Null
  | Some (VString s) => Cast s
  | Some v => Cast (toStringOf v)
  end.

Definition castNumber (v : option value) : cast number :=
  match v with
  | None => Absent
  | Some VNull => Null
  | Some (VString s) =>
      if string_eqb s EmptyString then Null
      else if isNaN (string_to_number s) then Failed (VString s)
      else Cast (string_to_number s)
  | Some v => if isNaN (ToNumber (Some v)) then Failed v else Cast (ToNumber (Some v))
  end.

Definition castDate (v : option value) : cast Z :=
  match v with
  | None => Absent
  | Some VNull => Null
  | Some (VDate t) => Cast t
  | Some (VNumber n) => if isFinite n then Cast (trunc n) else Failed (VNumber n)
  | Some (VString s) =>
      if string_eqb s EmptyString then Null
      else match parseDate s with Some t => Cast t | None => Failed (VString s) end
  | Some v => Failed v
  end.

Definition castObjectId (v : option value) : cast string :=
  match v with
  | None => Absent
  | Some VNull => Null
  | Some (VString s) =>
      if ObjectId_isValid s then Cast (toLowerCase s) else Failed (VString s)
  | Some v => Failed v
  end.
End Casting.

(** ** Paths of the Product and Category schemas, cast from a plain object *)

Record product_patch := mkProductPatch {
  u_id : cast string;
  u_name : cast string;
  u_description : cast string;
  u_price : cast number;
  u_discount : cast number;
  u_image : cast string;
  u_status : cast string;
  u_productCode : cast string;
  u_category : cast string;
  u_categoryName : cast string;
  u_createdAt : cast Z;
  u_updatedAt : cast Z;
  u_version : cast number
}.

Record category_patch := mkCategoryPatch {
  k_id : cast string;
  k_name : cast string;
  k_description : cast string;
  k_createdAt : cast Z;
  k_updatedAt : cast Z;
  k_version : cast number
}.

Definition cast_failure {A} (path kind : string) (c : cast A) : list (string * string * value) :=
  match c with Failed v => [(path, kind, v)] | _ => [] end.

Definition apply_required {A} (c : cast A) (old : A) : A :=
  match c with Cast x => x | _ => old end.

Definition apply_optional {A} (c : cast A) (old : option A) : option A :=
  match c with Cast x => Some x | Null => None | _ => old end.

(** The validators of a path.  With [creating] they run on every path of
    the schema, otherwise on the paths the update sets. *)
Definition required_string (creating : bool) (path : string) (c : cast string)
    : list (string * validator_kind * option value) :=
  match c with
  | Absent => if creating then [(path, VRequired, None)] else []
  | Null => [(path, VRequired, Some VNull)]
  | Cast s => if string_eqb s EmptyString then [(path, VRequired, Some (VString s))] else []
  | Failed _ => []
  end.

Definition required_number (creating : bool) (path : string) (c : cast number)
    : list (string * validator_kind * option value) :=
  match c with
  | Absent => if creating then [(path, VRequired, None)] else []
  | Null => [(path, VRequired, Some VNull)]
  | _ => []
  end.

Definition min_number (bound : number) (path : string) (c : cast number)
    : list (string * validator_kind * option value) :=
  match c with
  | Cast n => if js_ge n bound then [] else [(path, VMin, Some (VNumber n))]
  | _ => []
  end.

Definition max_number (bound : number) (path : string) (c : cast number)
    : list (string * validator_kind * option value) :=
  match c with
  | Cast n => if js_le n bound then [] else [(path, VMax, Some (VNumber n))]
  | _ => []
  end.

Definition enum_string (options : list string) (path : string) (c : cast string)
    : list (string * validator_kind * option value) :=
  match c with
  | Cast s => if existsb (string_eqb s) options then [] else [(path, VEnum, Some (VString s))]
  | _ => []
  end.

Definition match_image (path : string) (c : cast string)
    : list (string * validator_kind * option value) :=
  match c with
  | Cast s =>
      if string_eqb s EmptyString || image_match s then []
      else [(path, VMatch, Some (VString s))]
  | _ => []
  end.

Definition product_validators (creating : bool) (u : product_patch)
    : list (string * validator_kind * option value) :=
  required_string creating "name" (u_name u) ++
  required_string creating "description" (u_description u) ++
  required_number creating "price" (u_price u) ++
  min_number (num_of_Z 0) "price" (u_price u) ++
  min_number (num_of_Z 0) "discount" (u_discount u) ++
  max_number (num_of_Z 100) "discount" (u_discount u) ++
  required_string creating "image" (u_image u) ++
  match_image "image" (u_image u) ++
  enum_string ["In Stock"; "Stock Out"] "status" (u_status u) ++
  required_string creating "productCode" (u_productCode u) ++
  required_string creating "category" (u_category u).

Definition category_validators (creating : bool) (u : category_patch)
    : list (string * validator_kind * option value) :=
  required_string creating "name" (k_name u).

Definition product_cast_failures (u : product_patch) : list (string * string * value) :=
  cast_failure "_id" "ObjectId" (u_id u) ++
  cast_failure "name" "string" (u_name u) ++
  cast_failure "description" "string" (u_description u) ++
  cast_failure "price" "Number" (u_price u) ++
  cast_failure "discount" "Number" (u_discount u) ++
  cast_failure "image" "string" (u_image u) ++
  cast_failure "status" "string" (u_status u) ++
  cast_failure "productCode" "string" (u_productCode u) ++
  cast_failure "category" "ObjectId" (u_category u) ++
  cast_failure "categoryName" "string" (u_categoryName u) ++
  cast_failure "createdAt" "date" (u_createdAt u) ++
  cast_failure "updatedAt" "date" (u_updatedAt u) ++
  cast_failure "__v" "Number" (u_version u).

Definition category_cast_failures (u : category_patch) : list (string * string * value) :=
  cast_failure "_id" "ObjectId" (k_id u) ++
  cast_failure "name" "string" (k_name u) ++
  cast_failure "description" "string" (k_description u) ++
  cast_failure "createdAt" "date" (k_createdAt u) ++
  cast_failure "updatedAt" "date" (k_updatedAt u) ++
  cast_failure "__v" "Number" (k_version u).

(** [$set] of the paths of a patch. *)
Definition patch_product (u : product_patch) (p : product) : product :=
  {| p_id := p_id p;
     p_name := apply_required (u_name u) (p_name p);
     p_description := apply_required (u_description u) (p_description p);
     p_price := apply_required (u_price u) (p_price p);
     p_discount := apply_optional (u_discount u) (p_discount p);
     p_image := apply_required (u_image u) (p_image p);
     p_status := apply_optional (u_status u) (p_status p);
     p_productCode := apply_required (u_productCode u) (p_productCode p);
     p_category := apply_required (u_category u) (p_category p);
     p_categoryName := apply_optional (u_categoryName u) (p_categoryName p);
     p_createdAt := apply_optional (u_createdAt u) (p_createdAt p);
     p_updatedAt := apply_optional (u_updatedAt u) (p_updatedAt p) |}.

Definition patch_category (u : category_patch) (c : category) : category :=
  {| c_id := c_id c;
     c_name := apply_required (k_name u) (c_name c);
     c_description := apply_optional (k_description u) (c_description c);
     c_createdAt := apply_optional (k_createdAt u) (c_createdAt c);
     c_updatedAt := apply_optional (k_updatedAt u) (c_updatedAt c) |}.

(** A schema default replaces a path that is absent, not one set to
    null. *)
Definition with_default {A} (c : cast A) (d : A) : cast A :=
  match c with Absent => Cast d | _ => c end.

Fixpoint replace_first {A} (test : A -> bool) (new : A) (l : list A) : list A :=
  match l with
  | [] => []
  | x :: l' => if test x then new :: l' else x :: replace_first test new l'
  end.

Fixpoint remove_first {A} (test : A -> bool) (l : list A) : list A :=
  match l with
  | [] => []
  | x :: l' => if test x then l' else x :: remove_first test l'
  end.

(** The update operators Mongoose knows.  A key that is none of them,
    with or without a [$], is taken for a path to set. *)
Definition update_operators : list string :=
  ["$currentDate"; "$inc"; "$min"; "$max"; "$mul"; "$rename"; "$set"; "$setOnInsert";
   "$unset"; "$addToSet"; "$pop"; "$pull"; "$push"; "$pullAll"; "$bit"].

Definition has_operator (o : object) : bool :=
  existsb (fun kv => existsb (string_eqb (fst kv)) update_operators) (map_to_list o).

(** Insertion sort, stable, by a three-way comparison. *)
Fixpoint insert_sorted {A} (cmp : A -> A -> comparison) (x : A) (l : list A) : list A :=
  match l with
  | [] => [x]
  | y :: l' => match cmp x y with
               | Gt => y :: insert_sorted cmp x l'
               | _ => x :: l
               end
  end.

Definition sort_by {A} (cmp : A -> A -> comparison) (l : list A) : list A :=
  fold_right (insert_sorted cmp) [] l.

Definition compare_option {A} (cmp : A -> A -> comparison) (a b : option A) : comparison :=
  match a, b with
  | None, None => Eq
  | None, Some _ => Lt
  | Some _, None => Gt
  | Some x, Some y => cmp x y
  end.

Definition compare_number (a b : number) : comparison :=
  match SFcompare a b with Some c => c | None => Eq end.

(** The order of a [sort] on one key; [direction] is 1 or -1. *)
Definition compare_products (key : string) (direction : Z) (a b : product) : comparison :=
  let c :=
    if string_eqb key "name" then String.compare (p_name a) (p_name b)
    else if string_eqb key "price" then compare_number (p_price a) (p_price b)
    else if string_eqb key "createdAt" then compare_option Z.compare (p_createdAt a) (p_createdAt b)
    else if string_eqb key "updatedAt" then compare_option Z.compare (p_updatedAt a) (p_updatedAt b)
    else Eq in
  if direction <? 0 then CompOpp c else c.

Definition compare_categories_newest_first (a b : category) : comparison :=
  CompOpp (compare_option Z.compare (c_createdAt a) (c_createdAt b)).

(** The filter object a listing handler builds. *)
Record listing_filter := mkFilter {
  f_search : option value;     (* [$or] of two case-insensitive [$regex] *)
  f_category : option value;
  f_status : option value
}.

(** [skip] then [limit] on the sorted matches; a limit of 0 is no
    limit. *)
Definition window {A} (skip limit : number) (l : list A) : list A :=
  let rest := List.skipn (Z.to_nat (trunc skip)) l in
  match limit with
  | S754_zero _ => rest
  | _ => List.firstn (Z.to_nat (Z.abs (trunc limit))) rest
  end.

(** ** The operations of the two models *)

Section Store.
Context `{Platform}.

Definition lit (z : Z) : value := VNumber (num_of_Z z).

Definition set_field (key : string) (v : option value) (o : object) : object :=
  match v with Some x => <[key := x]> o | None => o end.

Definition castProduct (o : object) : product_patch :=
  {| u_id := castObjectId (o !! "_id");
     u_name := castString (o !! "name");
     u_description := castString (o !! "description");
     u_price := castNumber (o !! "price");
     u_discount := castNumber (o !! "discount");
     u_image := castString (o !! "image");
     u_status := castString (o !! "status");
     u_productCode := castString (o !! "productCode");
     u_category := castObjectId (o !! "category");
     u_categoryName := castString (o !! "categoryName");
     u_createdAt := castDate (o !! "createdAt");
     u_updatedAt := castDate (o !! "updatedAt");
     u_version := castNumber (o !! "__v") |}.

Definition castCategory (o : object) : category_patch :=
  {| k_id := castObjectId (o !! "_id");
     k_name := castString (o !! "name");
     k_description := castString (o !! "description");
     k_createdAt := castDate (o !! "createdAt");
     k_updatedAt := castDate (o !! "updatedAt");
     k_version := castNumber (o !! "__v") |}.

Definition has_id (id : string) (p : product) : bool := string_eqb (p_id p) id.
Definition has_category_id (id : string) (c : category) : bool := string_eqb (c_id c) id.

(** *** Category *)

Definition Category_findById (id : option value) : M (option category) :=
  record_call "Category" "findById" ;;;
  match castObjectId id with
  | Cast x => st <- get_state ;; ret (List.find (has_category_id x) (categories st))
  | Failed v => throw (CastError "_id" "ObjectId" (Some v))
  | _ => ret None
  end.

(** [Category.create({ name, description })].  A value that cannot be
    cast is reported with the failed validators. *)
Definition Category_create (name description : option value) (now : Z) : M category :=
  record_call "Category" "create" ;;;
  let u := {| k_id := Absent; k_name := castString name;
              k_description := castString description;
              k_createdAt := Cast now; k_updatedAt := Cast now; k_version := Absent |} in
  match map (fun '(p, _, v) => (p, VCast, Some v)) (category_cast_failures u)
        ++ category_validators true u with
  | (_ :: _) as errors => throw (ValidationError errors)
  | [] =>
      st <- get_state ;;
      let new := patch_category u (mkCategory (hex_digits 24 (nextId st)) EmptyString None None None) in
      if existsb (fun c => string_eqb (c_name c) (c_name new)) (categories st)
      then throw (DuplicateKeyError "name" (c_name new))
      else
        put_state (mkState (categories st ++ [new]) (products st) (nextId st + 1) (calls st)) ;;;
        ret new
  end.

(** [Category.findByIdAndUpdate(id, update, { new: true, runValidators:
    true })]: the update is cast to the paths of the schema (other keys
    are dropped, an operator key with a plain value is refused), the
    validators of the paths it sets run, then the store writes. *)
Definition Category_findByIdAndUpdate (id : option value) (update : object)
    : M (option category) :=
  record_call "Category" "findByIdAndUpdate" ;;;
  match castObjectId id with
  | Failed v => throw (CastError "_id" "ObjectId" (Some v))
  | Absent | Null => ret None
  | Cast x =>
      if has_operator update then throw (OtherError "Invalid atomic update value")
      else
        let u := castCategory update in
        match category_cast_failures u with
        | (path, kind, v) :: _ => throw (CastError path kind (Some v))
        | [] =>
            match category_validators false u with
            | (_ :: _) as errors => throw (ValidationError errors)
            | [] =>
                st <- get_state ;;
                match List.find (has_category_id x) (categories st) with
                | None => ret None
                | Some old =>
                    let new := patch_category u old in
                    if match k_id u with Cast i => negb (string_eqb i x) | Null => true | _ => false end
                    then throw (MongoServerError 66 "the _id field is immutable")
                    else if existsb (fun c => negb (has_category_id x c)
                                               && string_eqb (c_name c) (c_name new))
                              (categories st)
                    then throw (DuplicateKeyError "name" (c_name new))
                    else
                      put_state (mkState (replace_first (has_category_id x) new (categories st))
                                   (products st) (nextId st) (calls st)) ;;;
                      ret (Some new)
                end
            end
        end
  end.

Definition Category_findByIdAndDelete (id : option value) : M (option category) :=
  record_call "Category" "findByIdAndDelete" ;;;
  match castObjectId id with
  | Failed v => throw (CastError "_id" "ObjectId" (Some v))
  | Absent | Null => ret None
  | Cast x =>
      st <- get_state ;;
      match List.find (has_category_id x) (categories st) with
      | None => ret None
      | Some old =>
          put_state (mkState (remove_first (has_category_id x) (categories st))
                       (products st) (nextId st) (calls st)) ;;;
          ret (Some old)
      end
  end.

Definition search_matches (search : option value) (fields : list (option string)) : bool :=
  match search with
  | None => true
  | Some (VString s) =>
      existsb (fun f => match f with Some text => regexSearch s text | None => false end) fields
  | Some _ => false
  end.

Definition category_matches (f : listing_filter) (c : category) : bool :=
  search_matches (f_search f) [Some (c_name c); c_description c].

(** The store compiles the pattern of a [$regex] before it searches: one
    that is no regular expression is refused. *)
Definition search_pattern (search : option value) : M unit :=
  match search with
  | Some (VString s) =>
      match regexError s with
      | Some (code, message) => throw (MongoServerError code message)
      | None => ret tt
      end
  | _ => ret tt
  end.

(** What the store does with [limit] and [skip]: [limit] is cast to a
    number, and a count that is negative or not finite is refused. *)
Definition paging (limit : option value) (skip : number) : M (number * number) :=
  match castNumber limit with
  | Failed v => throw (CastError "limit" "Number" (Some v))
  | c =>
      let n := match c with Cast n => n | _ => S754_zero false end in
      if isFinite skip && js_ge skip (num_of_Z 0) && isFinite n
      then ret (n, skip)
      else throw (MongoServerError 51024 "value must be >= 0")
  end.

(** [Category.find(filter).limit(limit).skip(skip).sort({ createdAt: -1 })] *)
Definition Category_find (f : listing_filter) (limit : option value) (skip : number)
    : M (list category) :=
  record_call "Category" "find" ;;;
  w <- paging limit skip ;;
  search_pattern (f_search f) ;;;
  st <- get_state ;;
  ret (window (snd w) (fst w) (sort_by compare_categories_newest_first
                                 (List.filter (category_matches f) (categories st)))).

Definition count (n : nat) : number := num_of_Z (Z.of_nat n).

Definition Category_countDocuments (f : listing_filter) : M number :=
  record_call "Category" "countDocuments" ;;;
  search_pattern (f_search f) ;;;
  st <- get_state ;;
  ret (count (length (List.filter (category_matches f) (categories st)))).

(** *** Product *)

Definition Product_findById (id : option value) : M (option product) :=
  record_call "Product" "findById" ;;;
  match castObjectId id with
  | Cast x => st <- get_state ;; ret (List.find (has_id x) (products st))
  | Failed v => throw (CastError "_id" "ObjectId" (Some v))
  | _ => ret None
  end.

(** [.populate('category')]: the referenced Category, or null. *)
Definition populateCategory (p : product) : M (option category) :=
  record_call "Category" "find" ;;;
  st <- get_state ;;
  ret (List.find (has_category_id (p_category p)) (categories st)).

(** [Product.findOne({ name, category })] *)
Definition Product_findOne (name category : option value) : M (option product) :=
  record_call "Product" "findOne" ;;;
  match castString name, castObjectId category with
  | Failed v, _ => throw (CastError "name" "string" (Some v))
  | _, Failed v => throw (CastError "category" "ObjectId" (Some v))
  | Cast n, Cast c =>
      st <- get_state ;;
      ret (List.find (fun p => string_eqb (p_name p) n && string_eqb (p_category p) c)
             (products st))
  | _, _ => ret None
  end.

(** [Product.create({ name, description, price, discount, image,
    status, productCode, category, categoryName })] *)
Definition Product_create (name description price discount image status : option value)
    (productCode : string) (category : option value) (categoryName : string) (now : Z)
    : M product :=
  record_call "Product" "create" ;;;
  let u := {| u_id := Absent;
              u_name := castString name;
              u_description := castString description;
              u_price := castNumber price;
              u_discount := with_default (castNumber discount) (num_of_Z 0);
              u_image := castString image;
              u_status := with_default (castString status) "In Stock";
              u_productCode := Cast productCode;
              u_category := castObjectId category;
              u_categoryName := Cast categoryName;
              u_createdAt := Cast now;
              u_updatedAt := Cast now;
              u_version := Absent |} in
  match map (fun '(p, _, v) => (p, VCast, Some v)) (product_cast_failures u)
        ++ product_validators true u with
  | (_ :: _) as errors => throw (ValidationError errors)
  | [] =>
      st <- get_state ;;
      let new := patch_product u
                   (mkProduct (hex_digits 24 (nextId st)) EmptyString EmptyString
                      (S754_zero false) None EmptyString None EmptyString EmptyString
                      None None None) in
      if existsb (fun p => string_eqb (p_productCode p) productCode) (products st)
      then throw (DuplicateKeyError "productCode" productCode)
      else
        put_state (mkState (categories st) (products st ++ [new]) (nextId st + 1) (calls st)) ;;;
        ret new
  end.

(** [Product.findByIdAndUpdate(id, update, { new: true, runValidators:
    true })] *)
Definition Product_findByIdAndUpdate (id : option value) (update : object)
    : M (option product) :=
  record_call "Product" "findByIdAndUpdate" ;;;
  match castObjectId id with
  | Failed v => throw (CastError "_id" "ObjectId" (Some v))
  | Absent | Null => ret None
  | Cast x =>
      if has_operator update then throw (OtherError "Invalid atomic update value")
      else
        let u := castProduct update in
        match product_cast_failures u with
        | (path, kind, v) :: _ => throw (CastError path kind (Some v))
        | [] =>
            match product_validators false u with
            | (_ :: _) as errors => throw (ValidationError errors)
            | [] =>
                st <- get_state ;;
                match List.find (has_id x) (products st) with
                | None => ret None
                | Some old =>
                    let new := patch_product u old in
                    if match u_id u with Cast i => negb (string_eqb i x) | Null => true | _ => false end
                    then throw (MongoServerError 66 "the _id field is immutable")
                    else if existsb (fun p => negb (has_id x p)
                                               && string_eqb (p_productCode p) (p_productCode new))
                              (products st)
                    then throw (DuplicateKeyError "productCode" (p_productCode new))
                    else
                      put_state (mkState (categories st)
                                   (replace_first (has_id x) new (products st))
                                   (nextId st) (calls st)) ;;;
                      ret (Some new)
                end
            end
        end
  end.

Definition Product_findByIdAndDelete (id : option value) : M (option product) :=
  record_call "Product" "findByIdAndDelete" ;;;
  match castObjectId id with
  | Failed v => throw (CastError "_id" "ObjectId" (Some v))
  | Absent | Null => ret None
  | Cast x =>
      st <- get_state ;;
      match List.find (has_id x) (products st) with
      | None => ret None
      | Some old =>
          put_state (mkState (categories st) (remove_first (has_id x) (products st))
                       (nextId st) (calls st)) ;;;
          ret (Some old)
      end
  end.

Definition product_matches (f : listing_filter) (category : cast string) (p : product) : bool :=
  search_matches (f_search f) [Some (p_name p); Some (p_description p)]
  && match category with
     | Cast c => string_eqb (p_category p) c
     | Null => false
     | _ => true
     end
  && match castString (f_status f) with
     | Cast s => match p_status p with Some t => string_eqb t s | None => false end
     | Null => match p_status p with None => true | Some _ => false end
     | _ => true
     end.

Definition matching_products (f : listing_filter) : M (list product) :=
  match castObjectId (f_category f) with
  | Failed v => throw (CastError "category" "ObjectId" (Some v))
  | c =>
      search_pattern (f_search f) ;;;
      st <- get_state ;; ret (List.filter (product_matches f c) (products st))
  end.

(** [Product.find(filter).populate('category').sort(sort).limit(limit).skip(skip)] *)
Definition Product_find (f : listing_filter) (sortKey : string) (direction : Z)
    (limit : option value) (skip : number) : M (list (product * option category)) :=
  record_call "Product" "find" ;;;
  w <- paging limit skip ;;
  found <- matching_products f ;;
  st <- get_state ;;
  let page := window (snd w) (fst w) (sort_by (compare_products sortKey direction) found) in
  (match page with [] => ret tt | _ :: _ => record_call "Category" "find" end) ;;;
  ret (map (fun p => (p, List.find (has_category_id (p_category p)) (categories st))) page).

Definition Product_countDocuments (f : listing_filter) : M number :=
  record_call "Product" "countDocuments" ;;;
  found <- matching_products f ;;
  ret (count (length found)).
End Store.

(** * Requests and responses *)

(** The request as middleware and handlers see it; [req_now] is the
    clock reading while it is handled. *)
Record Request := mkRequest {
  req_method : string;
  req_path : list string;          (* the segments of the path *)
  req_originalUrl : string;
  req_params : object;
  req_query : object;
  req_body : option object;        (* undefined unless an object was parsed *)
  req_now : Z
}.

Definition path_text (req : Request) : string :=
  "/" +:+ String.concat "/" (req_path req).

Record pricing := mkPricing {
  originalPrice : number;
  discountPercentage : number;
  discountAmount : number;
  finalPrice : number;
  savings : number;
  hasDiscount : bool
}.

(** [{ ...product.toObject(), pricing }]; [pd_category] is the populated
    reference when the query populated it. *)
Record productData := mkProductData {
  pd_doc : product;
  pd_category : option (option category);
  pd_pricing : pricing
}.

Inductive data :=
  | ProductData (p : productData)
  | ProductList (l : list productData)
  | CategoryData (c : category)
  | CategoryList (l : list category).

Record pagination := mkPagination {
  currentPage : value;
  totalPages : number;
  totalCount : number;             (* totalProducts, totalCategories *)
  limit : value;
  hasNextPage : bool;
  hasPrevPage : bool
}.

Inductive ErrorTypes :=
  | VALIDATION_ERROR
  | AUTHENTICATION_ERROR
  | AUTHORIZATION_ERROR
  | NOT_FOUND_ERROR
  | DUPLICATE_ERROR
  | DATABASE_ERROR
  | INTERNAL_SERVER_ERROR.

Inductive detail_message :=
  | ZodMessage (m : zmessage)
  | ValidatorMessage (k : validator_kind)
  | Text (s : string).

Record detail := mkDetail {
  d_field : string;
  d_message : detail_message;
  d_code : option string;
  d_value : option value
}.

Inductive response_body :=
  | Success (message : string) (d : option data) (pages : option pagination)
      (filters : option (option value * option value * option value))
      (sort : option (option value * option value))
  | ErrorResponse (type : ErrorTypes) (message : string) (code : option value)
      (details : list detail) (stack : bool) (timestamp : Z) (path method : string)
  | ValidationFailed (message : string) (errors : list (string * zmessage))
  | Refused (message : string)     (* { success: false, message } *)
  | HealthReport (timestamp : Z)
  | NoContent.                     (* res.end() with no body *)

Record response := mkResponse { status : Z; payload : response_body }.

(** * src/middleware/errorHandler.ts *)

Definition createValidationError (message : string) : error :=
  AppError message 400 "VALIDATION_ERROR".
Definition createNotFoundError (resource : string) : error :=
  AppError (resource +:+ " not found") 404 "NOT_FOUND_ERROR".
Definition createDuplicateError (field v : string) : error :=
  AppError (field +:+ " '" +:+ v +:+ "' already exists") 409 "DUPLICATE_ERROR".
Definition createInternalError (message : string) : error :=
  AppError message 500 "INTERNAL_SERVER_ERROR".

Definition shouldLogError (statusCode : Z) : bool := 500 <=? statusCode.

Definition formatZodError (issues : list issue) : string * list detail :=
  ("Validation failed",
   map (fun i => mkDetail (String.concat "." (i_path i)) (ZodMessage (i_message i))
                   (Some (i_code i)) None) issues).

Definition formatMongooseValidationError (errors : list (string * validator_kind * option value))
    : string * list detail :=
  ("Database validation failed",
   map (fun '(path, kind, v) => mkDetail path (ValidatorMessage kind) None v) errors).

Definition formatMongooseCastError (path kind : string) (v : option value)
    : string * list detail :=
  ("Invalid " +:+ path, [mkDetail path (Text ("Invalid " +:+ kind)) None v]).

Definition formatDuplicateKeyError (field v : string) : string * list detail :=
  ("Duplicate value for " +:+ field,
   [mkDetail field (Text (field +:+ " '" +:+ v +:+ "' already exists")) None (Some (VString v))]).

Definition determineErrorType (statusCode : Z) : ErrorTypes :=
  if statusCode =? 400 then VALIDATION_ERROR
  else if statusCode =? 401 then AUTHENTICATION_ERROR
  else if statusCode =? 403 then AUTHORIZATION_ERROR
  else if statusCode =? 404 then NOT_FOUND_ERROR
  else if statusCode =? 409 then DUPLICATE_ERROR
  else INTERNAL_SERVER_ERROR.

(** [err.statusCode], [err.message] and [err.code]. *)
Definition err_statusCode (e : error) : option Z :=
  match e with
  | AppError _ statusCode _ | HttpError _ statusCode => Some statusCode
  | _ => None
  end.

Definition err_message (e : error) : string :=
  match e with
  | AppError m _ _ | MongoServerError _ m | MongoNetworkError m | HttpError m _
  | OtherError m => m
  | DuplicateKeyError _ _ => "E11000 duplicate key error"
  | ZodError _ => "Validation error"
  | ValidationError _ => "Validation failed"
  | CastError _ _ _ => "Cast failed"
  end.

Definition err_code (e : error) : option value :=
  match e with
  | AppError _ _ c => Some (VString c)
  | DuplicateKeyError _ _ => Some (VNumber (num_of_Z 11000))
  | MongoServerError c _ => Some (VNumber (num_of_Z c))
  | _ => None
  end.

Section ErrorHandler.
Context `{Platform}.

Definition errorHandler (err : error) (req : Request) : response :=
  let statusCode := match err_statusCode err with
                    | Some c => if c =? 0 then 500 else c
                    | None => 500
                    end in
  let message := if string_eqb (err_message err) EmptyString
                 then "Internal Server Error" else err_message err in
  let errorType := INTERNAL_SERVER_ERROR in
  let details : list detail := [] in
  let code := err_code err in
  let '(statusCode, errorType, message, details, code) :=
    match err with
    | ZodError issues =>
        let formatted := formatZodError issues in
        (400, VALIDATION_ERROR, fst formatted, snd formatted, code)
    | ValidationError errors =>
        let formatted := formatMongooseValidationError errors in
        (400, VALIDATION_ERROR, fst formatted, snd formatted, code)
    | CastError path kind v =>
        let formatted := formatMongooseCastError path kind v in
        (400, VALIDATION_ERROR, fst formatted, snd formatted, code)
    | DuplicateKeyError field v =>
        let formatted := formatDuplicateKeyError field v in
        (409, DUPLICATE_ERROR, fst formatted, snd formatted, code)
    | AppError m sc c =>
        (sc, determineErrorType sc, m, details, Some (VString c))
    | MongoNetworkError _ =>
        (503, DATABASE_ERROR, "Database connection failed", details, code)
    | _ => (statusCode, errorType, message, details, code)
    end in
  mkResponse statusCode
    (ErrorResponse errorType message (if truthy code then code else None) details
       development (req_now req) (path_text req) (req_method req)).

Definition notFoundHandler (req : Request) : error :=
  AppError ("Route " +:+ req_originalUrl req +:+ " not found") 404 "NOT_FOUND_ERROR".
End ErrorHandler.

(** * The middleware factory [validate] *)

Section Validate.
Context `{Platform}.

Definition section_name (s : section) : string :=
  match s with InParams => "params" | InQuery => "query" | InBody => "body" end.

Definition section_input (req : Request) (s : section) : option object :=
  match s with
  | InParams => Some (req_params req)
  | InQuery => Some (req_query req)
  | InBody => req_body req
  end.

(** [schema.parseAsync({ body, query, params })]: the issues of all
    sections, and the parsed sections. *)
Fixpoint parseAsync (schema : request_schema) (req : Request)
    : list issue * list (section * object) :=
  match schema with
  | [] => ([], [])
  | (s, shape) :: schema' =>
      let '(issues, out) := parse_object (section_name s) shape (section_input req s) in
      let '(issues', outs) := parseAsync schema' req in
      (issues ++ issues', (s, out) :: outs)
  end.

(** [validate(schema)]: [None] stands for [next()].  The parsed output
    is dropped: the request goes on as it came. *)
Definition validate (schema : request_schema) (req : Request) : option response :=
  match parseAsync schema req with
  | ([], _) => None
  | (issues, _) =>
      let errorMessages :=
        map (fun err => (String.concat "." (i_path err), i_message err)) issues in
      Some (mkResponse 400 (ValidationFailed "Validation failed" errorMessages))
  end.
End Validate.

(** * src/controllers *)

Section Controllers.
Context `{Platform}.

Definition number_of (v : option value) : number := ToNumber v.

(** The value of an expression [a || b] whose right operand is a
    literal. *)
Definition or_literal (a : option value) (b : value) : value :=
  match js_or a (Some b) with Some v => v | None => b end.

(** A property key made from a value. *)
Definition key_of (v : value) : string :=
  match v with VString s => s | _ => toStringOf v end.

Definition strict_equal_string (v : option value) (s : string) : bool :=
  match v with Some (VString t) => string_eqb t s | _ => false end.

(** [pageNum], [limitNum] and [skip], as both listing handlers compute
    them from the [page] and [limit] they read. *)
Definition pagination_window (page limit : option value) : value * value * number :=
  let pageNum := or_literal page (lit 1) in
  let limitNum := or_literal limit (lit 10) in
  let skip := js_mul (js_sub (number_of (Some pageNum)) (num_of_Z 1))
                (number_of (Some limitNum)) in
  (pageNum, limitNum, skip).

(** ** controllers/product.ts *)

Definition calculatePricing (product : product) (populated : option (option category))
    : productData :=
  let originalPrice := p_price product in
  let discountPercentage :=
    number_of (js_or (option_map VNumber (p_discount product)) (Some (lit 0))) in
  let discountAmount := js_div (js_mul originalPrice discountPercentage) (num_of_Z 100) in
  let finalPrice := js_sub originalPrice discountAmount in
  let savings := discountAmount in
  {| pd_doc := product;
     pd_category := populated;
     pd_pricing :=
       {| originalPrice := toFixed2 originalPrice;
          discountPercentage := discountPercentage;
          discountAmount := toFixed2 discountAmount;
          finalPrice := toFixed2 finalPrice;
          savings := toFixed2 savings;
          hasDiscount := js_gt discountPercentage (num_of_Z 0) |} |}.

(** Reading a property of [req.body] when it is undefined throws. *)
Definition body_of (req : Request) : M object :=
  match req_body req with
  | Some b => ret b
  | None => throw (OtherError "TypeError: Cannot read properties of undefined")
  end.

Definition createProduct (req : Request) : M response :=
  b <- body_of req ;;
  let name := b !! "name" in
  let description := b !! "description" in
  let price := b !! "price" in
  let discount := b !! "discount" in
  let categoryId := b !! "categoryId" in
  let image := b !! "image" in
  let status := b !! "status" in
  categoryExists <- Category_findById categoryId ;;
  match categoryExists with
  | None => throw (createNotFoundError "Category")
  | Some categoryExists =>
      existingProduct <- Product_findOne name categoryId ;;
      match existingProduct with
      | Some _ =>
          throw (createValidationError "Product with this name already exists in this category")
      | None =>
          match name with
          | Some (VString productName) =>
              let productCode := generateProductCode md5_hex (req_now req) productName in
              newProduct <- Product_create name description price discount image status
                              productCode categoryId (c_name categoryExists) (req_now req) ;;
              ret (mkResponse 201
                     (Success "Product created successfully"
                        (Some (ProductData (calculatePricing newProduct None))) None None None))
          | _ => throw (OtherError "TypeError: str.toLowerCase is not a function")
          end
      end
  end.

Definition getProducts (req : Request) : M response :=
  let search := req_query req !! "search" in
  let category := req_query req !! "category" in
  let status := req_query req !! "status" in
  let sortBy := js_default (req_query req !! "sortBy") (VString "createdAt") in
  let sortOrder := js_default (req_query req !! "sortOrder") (VString "desc") in
  let page := js_default (req_query req !! "page") (lit 1) in
  let limit := js_default (req_query req !! "limit") (lit 10) in
  let filter :=
    {| f_search := if truthy search then search else None;
       f_category := if truthy category then category else None;
       f_status := if truthy status then status else None |} in
  let '(pageNum, limitNum, skip) := pagination_window page limit in
  let sortKey := key_of (or_literal sortBy (VString "createdAt")) in
  let direction := if strict_equal_string sortOrder "asc" then 1 else -1 in
  products <- Product_find filter sortKey direction (Some limitNum) skip ;;
  let productsWithPricing :=
    map (fun '(product, populated) => calculatePricing product (Some populated)) products in
  totalProducts <- Product_countDocuments filter ;;
  let totalPages := Math_ceil (js_div totalProducts (number_of (Some limitNum))) in
  ret (mkResponse 200
         (Success "Products retrieved successfully"
            (Some (ProductList productsWithPricing))
            (Some {| currentPage := pageNum;
                     totalPages := totalPages;
                     totalCount := totalProducts;
                     limit := limitNum;
                     hasNextPage := js_lt (number_of (Some pageNum)) totalPages;
                     hasPrevPage := js_gt (number_of (Some pageNum)) (num_of_Z 1) |})
            (Some (search, category, status))
            (Some (sortBy, sortOrder)))).

Definition getProductById (req : Request) : M response :=
  let id := req_params req !! "id" in
  product <- Product_findById id ;;
  match product with
  | None => throw (createNotFoundError "Product")
  | Some product =>
      populated <- populateCategory product ;;
      let productWithPricing := calculatePricing product (Some populated) in
      ret (mkResponse 200
             (Success "Product retrieved successfully"
                (Some (ProductData productWithPricing)) None None None))
  end.

Definition updateProduct (req : Request) : M response :=
  let id := req_params req !! "id" in
  existingProduct <- Product_findById id ;;
  match existingProduct with
  | None => throw (createNotFoundError "Product")
  | Some _ =>
      updateData <- body_of req ;;
      updateData <-
        (if truthy (updateData !! "categoryId") then
           categoryExists <- Category_findById (updateData !! "categoryId") ;;
           match categoryExists with
           | None => throw (createNotFoundError "Category")
           | Some categoryExists =>
               ret (set_field "category" (updateData !! "categoryId")
                      (<["categoryName" := VString (c_name categoryExists)]> updateData))
           end
         else ret updateData) ;;
      let updateData := <["updatedAt" := VDate (req_now req)]> updateData in
      updatedProduct <- Product_findByIdAndUpdate id updateData ;;
      match updatedProduct with
      | None => throw (OtherError "TypeError: Cannot read properties of null")
      | Some updatedProduct =>
          populated <- populateCategory updatedProduct ;;
          let updatedProductWithPricing := calculatePricing updatedProduct (Some populated) in
          ret (mkResponse 200
                 (Success "Product updated successfully"
                    (Some (ProductData updatedProductWithPricing)) None None None))
      end
  end.

Definition deleteProduct (req : Request) : M response :=
  let id := req_params req !! "id" in
  deletedProduct <- Product_findByIdAndDelete id ;;
  match deletedProduct with
  | None => throw (createNotFoundError "Product")
  | Some _ => ret (mkResponse 200 (Success "Product deleted successfully" None None None None))
  end.

(** ** controllers/category.ts *)

Definition getCategory (req : Request) : M response :=
  let page := js_default (req_query req !! "page") (lit 1) in
  let limit := js_default (req_query req !! "limit") (lit 10) in
  let search := req_query req !! "search" in
  let filter :=
    {| f_search := if truthy search then search else None;
       f_category := None; f_status := None |} in
  let '(pageNum, limitNum, skip) := pagination_window page limit in
  categories <- Category_find filter (Some limitNum) skip ;;
  totalCategories <- Category_countDocuments filter ;;
  let totalPages := Math_ceil (js_div totalCategories (number_of (Some limitNum))) in
  ret (mkResponse 200
         (Success "Categories retrieved successfully"
            (Some (CategoryList categories))
            (Some {| currentPage := pageNum;
                     totalPages := totalPages;
                     totalCount := totalCategories;
                     limit := limitNum;
                     hasNextPage := js_lt (number_of (Some pageNum)) totalPages;
                     hasPrevPage := js_gt (number_of (Some pageNum)) (num_of_Z 1) |})
            None None)).

Definition createCategory (req : Request) : M response :=
  b <- body_of req ;;
  let name := b !! "name" in
  let description := b !! "description" in
  newCategory <- Category_create name description (req_now req) ;;
  ret (mkResponse 201
         (Success "Category created successfully" (Some (CategoryData newCategory))
            None None None)).

Definition idRequired : response := mkResponse 400 (Refused "Category ID is required").

Definition getCategoryById (req : Request) : M response :=
  let id := req_params req !! "id" in
  if negb (truthy id) then ret idRequired
  else
    category <- Category_findById id ;;
    match category with
    | None => throw (createNotFoundError "Category")
    | Some category =>
        ret (mkResponse 200
               (Success "Category retrieved successfully" (Some (CategoryData category))
                  None None None))
    end.

Definition updateCategoryById (req : Request) : M response :=
  let id := req_params req !! "id" in
  if negb (truthy id) then ret idRequired
  else
    let updateData := default ∅ (req_body req) in
    updatedCategory <- Category_findByIdAndUpdate id
                         (<["updatedAt" := VDate (req_now req)]> updateData) ;;
    match updatedCategory with
    | None => throw (createNotFoundError "Category")
    | Some updatedCategory =>
        ret (mkResponse 200
               (Success "Category updated successfully" (Some (CategoryData updatedCategory))
                  None None None))
    end.

Definition deleteCategoryById (req : Request) : M response :=
  let id := req_params req !! "id" in
  if negb (truthy id) then ret idRequired
  else
    deletedCategory <- Category_findByIdAndDelete id ;;
    match deletedCategory with
    | None => throw (createNotFoundError "Category")
    | Some _ =>
        ret (mkResponse 200 (Success "Category deleted successfully" None None None None))
    end.

(** ** controllers/health.ts *)

Definition getHealth (req : Request) : M response :=
  ret (mkResponse 200 (HealthReport (req_now req))).
End Controllers.

(** * src/routes and src/app.ts *)

(** The exported handlers. *)
Inductive controller :=
  | CreateProduct | GetProducts | GetProductById | UpdateProduct | DeleteProduct
  | CreateCategory | GetCategory | GetCategoryById | UpdateCategoryById | DeleteCategoryById
  | GetHealth.

(** A route: the validation middleware in front of the handler, if any,
    and the handler. *)
Record route := mkRoute {
  r_validate : option request_schema;
  r_controller : controller
}.

Definition validateCreateProduct := createProductSchema.
Definition validateUpdateProduct := updateProductSchema.
Definition validateGetProductById := getProductByIdSchema.
Definition validateCreateCategory := createCategorySchema.
Definition validateUpdateCategory := updateCategorySchema.
Definition validateGetCategoryById := getCategoryByIdSchema.
Definition validatePagination := paginationSchema.

(** The request with the [:id] segment of the path in [req.params]. *)
Definition with_id (req : Request) (id : string) : Request :=
  mkRequest (req_method req) (req_path req) (req_originalUrl req)
    (<["id" := VString id]> (req_params req)) (req_query req) (req_body req) (req_now req).

(** The method by which a route is chosen: a router serves [HEAD] with
    the handlers of [GET] where a route has none of its own (what the
    handler writes as a body is then not sent). *)
Definition route_method (req : Request) : string :=
  if string_eqb (req_method req) "HEAD" then "GET" else req_method req.

(** [categoryRouter], at a path below [/category]. *)
Definition categoryRouter (req : Request) (rest : list string) : option (route * Request) :=
  match route_method req, rest with
  | "POST", [] => Some (mkRoute (Some validateCreateCategory) CreateCategory, req)
  | "GET", [] => Some (mkRoute (Some validatePagination) GetCategory, req)
  | "GET", [id] => Some (mkRoute None GetCategoryById, with_id req id)
  | "PUT", [id] => Some (mkRoute (Some validateUpdateCategory) UpdateCategoryById, with_id req id)
  | "DELETE", [id] => Some (mkRoute None DeleteCategoryById, with_id req id)
  | _, _ => None
  end.

(** [productRouter], at a path below [/product]. *)
Definition productRouter (req : Request) (rest : list string) : option (route * Request) :=
  match route_method req, rest with
  | "POST", [] => Some (mkRoute (Some validateCreateProduct) CreateProduct, req)
  | "GET", [] => Some (mkRoute (Some validatePagination) GetProducts, req)
  | "GET", [id] => Some (mkRoute (Some validateGetProductById) GetProductById, with_id req id)
  | "PUT", [id] => Some (mkRoute (Some validateUpdateProduct) UpdateProduct, with_id req id)
  | "DELETE", [id] => Some (mkRoute (Some validateGetProductById) DeleteProduct, with_id req id)
  | _, _ => None
  end.

Definition healthRouter (req : Request) (rest : list string) : option (route * Request) :=
  match route_method req, rest with
  | "GET", [] => Some (mkRoute None GetHealth, req)
  | _, _ => None
  end.

(** [rootRouter].  A path is matched by its segments; empty segments (a
    trailing slash) do not count, so [:id] is never empty.  Routing is
    not case sensitive: the letters of a mount path match in either
    case. *)
Definition rootRouter (req : Request) : option (route * Request) :=
  match List.filter (fun s => negb (string_eqb s EmptyString)) (req_path req) with
  | mount :: rest =>
      if string_eqb (toLowerCase mount) "category" then categoryRouter req rest
      else if string_eqb (toLowerCase mount) "product" then productRouter req rest
      else if string_eqb (toLowerCase mount) "health" then healthRouter req rest
      else None
  | [] => None
  end.

(** [cors()] with its default options: it ends a preflight request
    itself, with 204 and no body, and passes every other request on
    ([None] stands for [next()]). *)
Definition cors (req : Request) : option response :=
  if string_eqb (req_method req) "OPTIONS" then Some (mkResponse 204 NoContent) else None.

Section App.
Context `{Platform}.

Definition handler (c : controller) : Request -> M response :=
  match c with
  | CreateProduct => createProduct
  | GetProducts => getProducts
  | GetProductById => getProductById
  | UpdateProduct => updateProduct
  | DeleteProduct => deleteProduct
  | CreateCategory => createCategory
  | GetCategory => getCategory
  | GetCategoryById => getCategoryById
  | UpdateCategoryById => updateCategoryById
  | DeleteCategoryById => deleteCategoryById
  | GetHealth => getHealth
  end.

(** [asyncHandler(fn)] followed by the error middleware: what a handler
    throws goes to [errorHandler]. *)
Definition run_handler (c : controller) (req : Request) (st : state) : response * state :=
  match handler c req st with
  | (inr res, st') => (res, st')
  | (inl err, st') => (errorHandler err req, st')
  end.

(** The application on a request whose body was parsed: [cors()], the
    router, then [notFoundHandler], then [errorHandler]. *)
Definition app (req : Request) (st : state) : response * state :=
  match cors req with
  | Some preflight => (preflight, st)
  | None =>
      match rootRouter req with
      | Some (r, req') =>
          match r_validate r with
          | Some schema =>
              match validate schema req' with
              | Some refused => (refused, st)
              | None => run_handler (r_controller r) req' st
              end
          | None => run_handler (r_controller r) req' st
          end
      | None => (errorHandler (notFoundHandler req) req, st)
      end
  end.
End App.

(** A platform on which to run the application on concrete requests.
    The theorems hold for every platform. *)
#[local] Instance sample_platform : Platform := {|
  md5_hex := fun _ => "9e107d9d372bb6826bd81d3542a419d6";
  isURL := image_match;
  regexSearch := fun _ _ => true;
  regexError := fun _ => None;
  toStringOf := fun _ => "[value]";
  parseDate := fun _ => None;
  development := false
|}.

Definition sample_category : category :=
  mkCategory "64b0c0ffee0000000000000a" "Electronics" None (Some 1000) (Some 1000).

Definition sample_product (n : nat) : product :=
  mkProduct (hex_digits 24 (N.of_nat n)) ("Phone " +:+ Z_to_string (Z.of_nat n)) "A phone"
    (num_of_Z 100) (Some (num_of_Z 15)) "https://example.com/p.jpg" (Some "In Stock")
    ("code" +:+ Z_to_string (Z.of_nat n)) "64b0c0ffee0000000000000a" (Some "Electronics")
    (Some (1000 + Z.of_nat n)) (Some (1000 + Z.of_nat n)).

Definition sample_books : category :=
  mkCategory "64b0c0ffee0000000000000b" "Books" None (Some 1500) (Some 1500).

(** A store with two categories and [n] products of the first. *)
Definition sample_state (n : nat) : state :=
  mkState [sample_category; sample_books] (map sample_product (seq 1 n)) 1000 [].

Definition DELETE (path : list string) : Request :=
  mkRequest "DELETE" path EmptyString ∅ ∅ None 2000.

Definition GET (path : list string) (query : list (string * value)) : Request :=
  mkRequest "GET" path EmptyString ∅ (list_to_map query) None 2000.

Definition PUT (path : list string) (body : list (string * value)) : Request :=
  mkRequest "PUT" path EmptyString ∅ ∅ (Some (list_to_map body)) 2000.

Definition POST (path : list string) (body : list (string * value)) : Request :=
  mkRequest "POST" path EmptyString ∅ ∅ (Some (list_to_map body)) 2000.

(** * Reading a response *)

Definition product_items (res : response) : list productData :=
  match payload res with
  | Success _ (Some (ProductData p)) _ _ _ => [p]
  | Success _ (Some (ProductList l)) _ _ _ => l
  | _ => []
  end.

Definition is_success (res : response) : bool :=
  match payload res with Success _ _ _ _ _ => true | _ => false end.

Definition pagination_of (res : response) : option pagination :=
  match payload res with Success _ _ pages _ _ => pages | _ => None end.

(** The [error.type] of the error envelope, when the response is one. *)
Definition error_type (res : response) : option ErrorTypes :=
  match payload res with ErrorResponse t _ _ _ _ _ _ _ => Some t | _ => None end.

(** * Violated fields, stated without the validator *)

Section Violations.
Context `{Platform}.

Definition string_check_ok (s : string) (c : string_check) : bool :=
  match c with
  | SMin n _ => (n <=? String.length s)%nat
  | SMax n _ => (String.length s <=? n)%nat
  | SUrl _ => isURL s
  | SRegexDigits _ => digits_only s
  | SRefineObjectId _ => ObjectId_isValid s
  end.

Definition number_check_ok (n : number) (c : number_check) : bool :=
  match c with
  | NMin b _ => js_ge n b
  | NMax b _ => js_le n b
  end.

(** Whether a value meets the constraint of its field. *)
Fixpoint field_ok (z : zschema) (v : option value) : bool :=
  match z with
  | ZString checks =>
      match v with
      | Some (VString s) => forallb (string_check_ok s) checks
      | _ => false
      end
  | ZNumber checks =>
      match v with
      | Some (VNumber n) => isFinite n && forallb (number_check_ok n) checks
      | _ => false
      end
  | ZEnum options =>
      match v with
      | Some (VString s) => existsb (string_eqb s) options
      | _ => false
      end
  | ZTransformNumber inner => field_ok inner v
  | ZOptional inner | ZDefault inner _ =>
      match v with None => true | Some _ => field_ok inner v end
  end.

(** The fields of a request that violate a schema, by their paths: a
    section that is not an object, or a field of a section. *)
Definition violated_in (name : string) (shape : list (string * zschema))
    (input : option object) : list string :=
  match input with
  | None => [name]
  | Some o =>
      map (fun kz => String.concat "." [name; fst kz])
        (List.filter (fun kz => negb (field_ok (snd kz) (o !! fst kz))) shape)
  end.

Definition violated_fields (schema : request_schema) (req : Request) : list string :=
  flat_map (fun '(s, shape) => violated_in (section_name s) shape (section_input req s)) schema.
End Violations.

(** The field paths of the entries of a failure response. *)
Definition response_fields (res : response) : list string :=
  match payload res with
  | ValidationFailed _ errors => map fst errors
  | ErrorResponse _ _ _ details _ _ _ _ => map d_field details
  | _ => []
  end.

(** The schemas the file declares. *)
Definition declared_schemas : list request_schema :=
  [createProductSchema; updateProductSchema; getProductByIdSchema; createCategorySchema;
   updateCategorySchema; getCategoryByIdSchema; paginationSchema].

(** Checks of which at most one can fail on a value: none, one, or a
    lower bound below an upper bound. *)
Definition exclusive_string_checks (checks : list string_check) : bool :=
  match checks with
  | [] | [_] => true
  | [SMin a _; SMax b _] => (a <=? b)%nat
  | _ => false
  end.

Definition exclusive_number_checks (checks : list number_check) : bool :=
  match checks with
  | [] | [_] => true
  | [NMin (S754_zero _) _; NMax (S754_finite false _ _) _] => true
  | _ => false
  end.

Fixpoint single_issue (z : zschema) : bool :=
  match z with
  | ZString checks => exclusive_string_checks checks
  | ZNumber checks => exclusive_number_checks checks
  | ZEnum _ => true
  | ZTransformNumber inner | ZOptional inner | ZDefault inner _ => single_issue inner
  end.

Definition single_issues (schema : request_schema) : bool :=
  forallb (fun '(_, shape) => forallb (fun kz => single_issue (snd kz)) shape) schema.

(** The handlers that begin with [if (!id) return res.status(400)...]. *)
Definition has_guard (c : controller) : bool :=
  match c with
  | GetCategoryById | UpdateCategoryById | DeleteCategoryById => true
  | _ => false
  end.

(** * Definitions the theorems are stated with *)

Definition concat_strings (l : list string) : string :=
  fold_right String.append EmptyString l.

(** The result the specification describes: all tying longest runs
    concatenated in order of appearance, the start index of the first and
    the end index of the last.  There is none when the string has no run. *)
Definition spec_longest_runs (s : string) : option results :=
  match tying_runs s with
  | [] => None
  | first :: others =>
      Some {| substring := concat_strings (map snd (first :: others));
              startIndex := run_start first;
              endIndex := run_end (List.last others first) |}
  end.

(** What one run contributes to the result of the second loop. *)
Definition collect_run (maxLength : Z) (res : results) (r : nat * string) : results :=
  if Z.of_nat (run_length r) =? maxLength then
    {| substring := substring res +:+ snd r;
       startIndex := if startIndex res =? -1 then run_start r else startIndex res;
       endIndex := run_end r |}
  else res.

Definition max_run (m : Z) (r : nat * string) : Z := Z.max m (Z.of_nat (run_length r)).

(** Strings whose characters strictly increase. *)
Fixpoint increasing (s : string) : Prop :=
  match s with
  | EmptyString => True
  | String a s' =>
      match s' with
      | EmptyString => True
      | String b _ => (nat_of_ascii a < nat_of_ascii b)%nat /\ increasing s'
      end
  end.

Fixpoint last_char (s : string) (d : ascii) : ascii :=
  match s with
  | EmptyString => d
  | String c s' => last_char s' c
  end.

(** Runs that tile the string from index [n] on, none of which can be
    extended to the right: the character after a run is not greater than
    the run's last one ([prev] is the last character before index [n]). *)
Fixpoint maximal_runs (n : nat) (prev : option ascii) (l : list (nat * string)) : Prop :=
  match l with
  | [] => True
  | r :: l' =>
      fst r = n /\ increasing (snd r) /\
      match snd r with
      | EmptyString => False
      | String c _ =>
          match prev with
          | Some p => (nat_of_ascii c <= nat_of_ascii p)%nat
          | None => True
          end
      end /\
      maximal_runs (n + run_length r) (Some (last_char (snd r) "000"%char)) l'
  end.

(** The collections are as they were. *)
Definition same_db (st st' : state) : Prop :=
  categories st' = categories st /\ products st' = products st /\ nextId st' = nextId st.

(** A computation that only reads the collections. *)
Definition reads {A} (m : M A) : Prop := forall st, same_db st (snd (m st)).

(** A computation that leaves the products as they are. *)
Definition keeps_products {A} (m : M A) : Prop :=
  forall st, products (snd (m st)) = products st.

Definition logged (st : state) (model op : string) : state :=
  mkState (categories st) (products st) (nextId st) (calls st ++ [StoreCall model op]).

Definition phone_body : list (string * value) :=
  [("name", VString "aabcabcd"); ("description", VString "A phone"); ("price", lit 10);
   ("image", VString "https://example.com/p.jpg");
   ("categoryId", VString "64B0C0FFEE0000000000000A")].

Definition toys_body : list (string * value) :=
  [("name", VString "Toys"); ("description", VString "Things to play with")].

Definition bad_product_body : list (string * value) :=
  [("name", VString EmptyString); ("price", lit (-1)); ("categoryId", VString "zz")].

(** * Predicates on computations, on the store and on listings *)

(** A computation whose failure leaves the collections as they were. *)
Definition fails_clean {A} (m : M A) : Prop :=
  forall st e st', m st = (inl e, st') -> same_db st st'.

(** A computation that always returns. *)
Definition never_fails {A} (m : M A) : Prop :=
  forall st, exists a st', m st = (inr a, st').

(** The unique indexes hold, identifiers are unique, and the identifiers
    the counter has yet to hand out are not in use. *)
Definition store_ok (st : state) : Prop :=
  List.NoDup (map p_id (products st)) /\
  List.NoDup (map p_productCode (products st)) /\
  List.NoDup (map c_id (categories st)) /\
  List.NoDup (map c_name (categories st)) /\
  forall k, (nextId st <= k < 16 ^ 24)%N ->
    ~ In (hex_digits 24 k) (map p_id (products st)) /\
    ~ In (hex_digits 24 k) (map c_id (categories st)).

(** The document [Product.create] starts from, before the paths are set. *)
Definition blank_product (id : string) : product :=
  mkProduct id EmptyString EmptyString (S754_zero false) None EmptyString None EmptyString
    EmptyString None None None.

(** The computations that keep [store_ok], from a state whose counter
    has not run out. *)
Definition preserves {A} (m : M A) : Prop :=
  forall st r st', m st = (r, st') -> store_ok st -> (nextId st < 16 ^ 24)%N -> store_ok st'.

(** The filter and the order a listing of products is made with, as
    [getProducts] builds them from the query. *)
Definition listing_filter_of (q : object) : listing_filter :=
  {| f_search := if truthy (q !! "search") then q !! "search" else None;
     f_category := if truthy (q !! "category") then q !! "category" else None;
     f_status := if truthy (q !! "status") then q !! "status" else None |}.

Definition listing_order `{Platform} (q : object) : product -> product -> comparison :=
  compare_products
    (key_of (or_literal (js_default (q !! "sortBy") (VString "createdAt")) (VString "createdAt")))
    (if strict_equal_string (js_default (q !! "sortOrder") (VString "desc")) "asc" then 1 else -1).

(** The stored products a query selects, in the order of the store. *)
Definition selected_products `{Platform} (q : object) (st : state) : list product :=
  List.filter (product_matches (listing_filter_of q) (castObjectId (f_category (listing_filter_of q))))
    (products st).

(** ** The arithmetic of a page, checked on a range of pages, limits and totals *)

Definition same_number (a b : number) : bool :=
  match a, b with
  | S754_zero s, S754_zero s' => Bool.eqb s s'
  | S754_infinity s, S754_infinity s' => Bool.eqb s s'
  | S754_nan, S754_nan => true
  | S754_finite s m e, S754_finite s' m' e' => Bool.eqb s s' && (m =? m')%positive && (e =? e')
  | _, _ => false
  end.

(** [skip] is the number of items before page [p] of [l] items. *)
Definition skip_ok (p l : Z) : bool :=
  let skip := js_mul (js_sub (num_of_Z p) (num_of_Z 1)) (num_of_Z l) in
  isFinite skip && js_ge skip (num_of_Z 0) && (trunc skip =? (p - 1) * l).

(** The limit the store applies is [l] itself, and not "no limit". *)
Definition limit_ok (l : Z) : bool :=
  let x := num_of_Z l in
  isFinite x && negb (isNaN x) && (trunc x =? l)
  && match x with S754_zero _ => false | _ => true end.

(** [Math.ceil(n / l)] is the integer ceiling. *)
Definition pages_ok (n l : Z) : bool :=
  same_number (Math_ceil (js_div (num_of_Z n) (num_of_Z l))) (num_of_Z ((n + l - 1) / l)).

(** [p < t] and [p > 1] compare as the integers do. *)
Definition next_ok (p t : Z) : bool :=
  Bool.eqb (js_lt (num_of_Z p) (num_of_Z t)) (p <? t).

Definition prev_ok (p : Z) : bool :=
  Bool.eqb (js_gt (num_of_Z p) (num_of_Z 1)) (1 <? p).

Definition Zrange (lo n : nat) : list Z := map Z.of_nat (seq lo n).

Definition page_table (P L N : nat) : bool :=
  forallb (fun p => prev_ok p && forallb (skip_ok p) (Zrange 1 L)
                    && forallb (next_ok p) (Zrange 0 (S N))) (Zrange 1 P)
  && forallb (fun l => limit_ok l && forallb (fun n => pages_ok n l) (Zrange 0 (S N)))
       (Zrange 1 L).

(** The number a query gives for [page] or [limit]: the decimal value of
    its digits, or the default when the parameter is absent. *)
Definition query_number (v : option value) (d : Z) : Z :=
  match v with Some (VString s) => decimal_value 0 s | _ => d end.

(** A platform whose URL check accepts every string, to run a request
    that the two validations judge differently. *)
Definition lenient_platform : Platform := {|
  md5_hex := fun _ => "9e107d9d372bb6826bd81d3542a419d6";
  isURL := fun _ => true;
  regexSearch := fun _ _ => true;
  regexError := fun _ => None;
  toStringOf := fun _ => "[value]";
  parseDate := fun _ => None;
  development := false
|}.

Definition ftp_body : list (string * value) :=
  [("name", VString "Lamp"); ("description", VString "A lamp"); ("price", lit 10);
   ("image", VString "ftp://example.com/lamp.png");
   ("categoryId", VString "64b0c0ffee0000000000000a")].

(** The categories a response carries. *)
Definition category_items (res : response) : list category :=
  match payload res with
  | Success _ (Some (CategoryData c)) _ _ _ => [c]
  | Success _ (Some (CategoryList l)) _ _ _ => l
  | _ => []
  end.

(** ** Rounding to 2 decimal places, in the words of the specification *)

(** The Number that the decimal [n/100] denotes, with the sign [s]. *)
Definition hundredths_number (s : bool) (n : Z) : number :=
  match n with
  | Zpos k => js_div (S754_finite s k 0) (num_of_Z 100)
  | _ => S754_zero s
  end.

(** [x] is [y] rounded to 2 decimal places.  For [y = m * 2^e] with a
    fraction ([e < 0]), [x] is the Number of [n] hundredths, where [n] is
    the whole number nearest to [100 * |y|], the larger one of two:
    [n - 1/2 <= 100 * m * 2^e < n + 1/2].  A zero is rounded to 0; a
    Number without a fraction, an infinity and NaN are left as they
    are. *)
Definition rounded_to_2_decimals (y x : number) : Prop :=
  match y with
  | S754_zero _ => x = S754_zero false
  | S754_finite s m e =>
      if 0 <=? e then x = y
      else exists n : Z,
          (2 * n - 1) * 2 ^ (- e) <= 200 * Z.pos m < (2 * n + 1) * 2 ^ (- e) /\
          x = hundredths_number s n
  | _ => x = y
  end.

(** A product of 19.99 with a discount of 15. *)
Definition lamp : product :=
  mkProduct (hex_digits 24 7) "Lamp" "A lamp" (js_div (num_of_Z 1999) (num_of_Z 100))
    (Some (num_of_Z 15)) "https://example.com/l.jpg" (Some "In Stock") "code7"
    "64b0c0ffee0000000000000a" (Some "Electronics") (Some 1000) (Some 1000).

(** A store whose identifiers were handed out by its counter: two
    categories, two products of the first, and the counter at 4. *)
Definition counted_category (k : N) (name : string) : category :=
  mkCategory (hex_digits 24 k) name None (Some 1000) (Some 1000).

Definition counted_product (k : N) (name code : string) : product :=
  mkProduct (hex_digits 24 k) name "A phone" (num_of_Z 100) (Some (num_of_Z 15))
    "https://example.com/p.jpg" (Some "In Stock") code (hex_digits 24 0) (Some "Electronics")
    (Some 1000) (Some 1000).

Definition counted_state : state :=
  mkState [counted_category 0 "Electronics"; counted_category 1 "Toys"]
    [counted_product 2 "Phone" "code2"; counted_product 3 "Tablet" "code3"] 4 [].

Definition watch_body : list (string * value) :=
  [("name", VString "Watch"); ("description", VString "A watch"); ("price", lit 10);
   ("image", VString "https://example.com/w.jpg");
   ("categoryId", VString "000000000000000000000000")].

(** * Theorems *)

(** ** String facts *)

Lemma app_cons (c : ascii) (a b : string) : String c a +:+ b = String c (a +:+ b).
Proof. reflexivity. Qed.

Lemma app_empty (b : string) : EmptyString +:+ b = b.
Proof. reflexivity. Qed.

Lemma string_length_app (a b : string) :
  String.length (a +:+ b) = (String.length a + String.length b)%nat.
Proof.
  induction a as [|c a IH]; [reflexivity|].
  rewrite app_cons. simpl. now rewrite IH.
Qed.

Lemma string_app_nil_r (a : string) : a +:+ EmptyString = a.
Proof. induction a as [|c a IH]; [reflexivity|]. rewrite app_cons. now rewrite IH. Qed.

Lemma string_app_assoc (a b c : string) : (a +:+ b) +:+ c = a +:+ (b +:+ c).
Proof.
  induction a as [|x a IH]; [reflexivity|].
  rewrite !app_cons. now rewrite IH.
Qed.

Lemma string_get_app_r (a b : string) (n : nat) :
  String.get (String.length a + n) (a +:+ b) = String.get n b.
Proof.
  induction a as [|c a IH]; [reflexivity|].
  rewrite app_cons. exact IH.
Qed.

Lemma string_get_last (a : string) (c : ascii) (b : string) :
  String.get (String.length a) (a +:+ String c b) = Some c.
Proof.
  replace (String.length a) with (String.length a + 0)%nat by lia.
  now rewrite string_get_app_r.
Qed.

Lemma substring_prefix (b c : string) :
  String.substring 0 (String.length b) (b +:+ c) = b.
Proof.
  induction b as [|x b IH].
  - rewrite app_empty. now destruct c.
  - rewrite app_cons. simpl. now rewrite IH.
Qed.

Lemma substring_middle (a b c : string) :
  String.substring (String.length a) (String.length b) (a +:+ (b +:+ c)) = b.
Proof.
  induction a as [|x a IH]; [rewrite app_empty; apply substring_prefix|].
  rewrite app_cons. exact IH.
Qed.

Lemma js_substring_middle (a b c : string) :
  js_substring (a +:+ (b +:+ c)) (Z.of_nat (String.length a))
    (Z.of_nat (String.length a + String.length b)) = b.
Proof.
  unfold js_substring. rewrite !string_length_app.
  set (la := String.length a). set (lb := String.length b). set (lc := String.length c).
  replace (Z.min (Z.max (Z.of_nat la) 0) (Z.of_nat (la + (lb + lc)))) with (Z.of_nat la) by lia.
  replace (Z.min (Z.max (Z.of_nat (la + lb)) 0) (Z.of_nat (la + (lb + lc))))
    with (Z.of_nat (la + lb)) by lia.
  replace (Z.min (Z.of_nat la) (Z.of_nat (la + lb))) with (Z.of_nat la) by lia.
  replace (Z.max (Z.of_nat la) (Z.of_nat (la + lb)) - Z.of_nat la) with (Z.of_nat lb) by lia.
  rewrite !Nat2Z.id. apply substring_middle.
Qed.

Lemma charAt_head (a : string) (c : ascii) (b : string) :
  charAt (a +:+ String c b) (Z.of_nat (String.length a)) = Some c.
Proof.
  unfold charAt. destruct (Z.ltb_spec (Z.of_nat (String.length a)) 0); [lia|].
  rewrite Nat2Z.id. apply string_get_last.
Qed.

(** ** The two loops follow the runs *)

Section Loops.
Variable M : Z.

Lemma recordRun_run (pre cur rest : string) (res : results) :
  recordRun (pre +:+ (cur +:+ rest)) M (Z.of_nat (String.length pre) - 1)
    (Z.of_nat (String.length pre + String.length cur)) res
  = collect_run M res (String.length pre, cur).
Proof.
  unfold recordRun, collect_run, run_length, run_start, run_end; simpl.
  replace (Z.of_nat (String.length pre + String.length cur) -
           (Z.of_nat (String.length pre) - 1) - 1)
    with (Z.of_nat (String.length cur)) by lia.
  destruct (Z.of_nat (String.length cur) =? M); [|reflexivity].
  replace (Z.of_nat (String.length pre) - 1 + 1) with (Z.of_nat (String.length pre)) by lia.
  now rewrite js_substring_middle.
Qed.

Lemma loop_chars (pre cur' : string) (last c : ascii) (rest : string) :
  let s := pre +:+ ((cur' +:+ String last EmptyString) +:+ String c rest) in
  let right := Z.of_nat (String.length pre + String.length (cur' +:+ String last EmptyString)) in
  gt_char (charAt s right) (charAt s (right - 1))
  = (nat_of_ascii last <? nat_of_ascii c)%nat.
Proof.
  intros s right.
  assert (H1 : charAt s right = Some c).
  { subst s right. rewrite <- string_app_assoc, <- string_length_app. apply charAt_head. }
  assert (H2 : charAt s (right - 1) = Some last).
  { subst s right.
    replace (pre +:+ ((cur' +:+ String last EmptyString) +:+ String c rest))
      with ((pre +:+ cur') +:+ String last (String c rest)).
    2:{ rewrite !string_app_assoc. reflexivity. }
    replace (Z.of_nat (String.length pre + String.length (cur' +:+ String last EmptyString)) - 1)
      with (Z.of_nat (String.length (pre +:+ cur'))).
    2:{ rewrite !string_length_app. simpl. lia. }
    apply charAt_head. }
  now rewrite H1, H2.
Qed.

Lemma collectLoop_runs (rest : string) : forall pre cur' last res,
  let cur := cur' +:+ String last EmptyString in
  let s := pre +:+ (cur +:+ rest) in
  let '(l, r, res') :=
    collectLoop (String.length rest) s M (Z.of_nat (String.length pre) - 1)
      (Z.of_nat (String.length pre + String.length cur)) res in
  recordRun s M l r res'
  = fold_left (collect_run M) (runs_from (String.length pre) cur last rest) res.
Proof.
  induction rest as [|c rest IH]; intros pre cur' last res cur s.
  - simpl. subst s. apply recordRun_run.
  - cbn [String.length collectLoop runs_from].
    subst s cur. rewrite loop_chars.
    destruct (nat_of_ascii last <? nat_of_ascii c)%nat eqn:E.
    + specialize (IH pre (cur' +:+ String last EmptyString) c res). cbv zeta in IH.
      replace (pre +:+ ((cur' +:+ String last EmptyString) +:+ String c rest))
        with (pre +:+ (((cur' +:+ String last EmptyString) +:+ String c EmptyString) +:+ rest)).
      2:{ rewrite !string_app_assoc. reflexivity. }
      replace (Z.of_nat (String.length pre + String.length (cur' +:+ String last EmptyString)) + 1)
        with (Z.of_nat (String.length pre +
               String.length ((cur' +:+ String last EmptyString) +:+ String c EmptyString))).
      2:{ rewrite !string_length_app. simpl. lia. }
      exact IH.
    + rewrite recordRun_run. cbn [fold_left].
      set (cur := cur' +:+ String last EmptyString).
      specialize (IH (pre +:+ cur) EmptyString c (collect_run M res (String.length pre, cur))).
      cbv zeta in IH. rewrite app_empty in IH.
      rewrite (string_length_app pre cur) in IH.
      replace (pre +:+ (cur +:+ String c rest))
        with ((pre +:+ cur) +:+ (String c EmptyString +:+ rest)).
      2:{ rewrite !string_app_assoc. reflexivity. }
      replace (Z.of_nat (String.length pre + String.length cur) + 1)
        with (Z.of_nat (String.length pre + String.length cur
                        + String.length (String c EmptyString))).
      2:{ simpl. lia. }
      exact IH.
Qed.
End Loops.

Lemma lengthLoop_runs (rest : string) : forall pre cur' last m,
  let cur := cur' +:+ String last EmptyString in
  let s := pre +:+ (cur +:+ rest) in
  let '(m', l, r) :=
    lengthLoop (String.length rest) s m (Z.of_nat (String.length pre) - 1)
      (Z.of_nat (String.length pre + String.length cur)) in
  Z.max m' (r - l - 1)
  = fold_left max_run (runs_from (String.length pre) cur last rest) m.
Proof.
  induction rest as [|c rest IH]; intros pre cur' last m cur s.
  - simpl. unfold max_run, run_length. simpl. f_equal. lia.
  - cbn [String.length lengthLoop runs_from].
    subst s cur. rewrite loop_chars.
    destruct (nat_of_ascii last <? nat_of_ascii c)%nat eqn:E.
    + specialize (IH pre (cur' +:+ String last EmptyString) c m). cbv zeta in IH.
      replace (pre +:+ ((cur' +:+ String last EmptyString) +:+ String c rest))
        with (pre +:+ (((cur' +:+ String last EmptyString) +:+ String c EmptyString) +:+ rest)).
      2:{ rewrite !string_app_assoc. reflexivity. }
      replace (Z.of_nat (String.length pre + String.length (cur' +:+ String last EmptyString)) + 1)
        with (Z.of_nat (String.length pre +
               String.length ((cur' +:+ String last EmptyString) +:+ String c EmptyString))).
      2:{ rewrite !string_length_app. simpl. lia. }
      exact IH.
    + cbn [fold_left].
      set (cur := cur' +:+ String last EmptyString).
      replace (Z.max m (Z.of_nat (String.length pre + String.length cur)
                        - (Z.of_nat (String.length pre) - 1) - 1))
        with (max_run m (String.length pre, cur)).
      2:{ unfold max_run, run_length. simpl. f_equal. lia. }
      specialize (IH (pre +:+ cur) EmptyString c (max_run m (String.length pre, cur))).
      cbv zeta in IH. rewrite app_empty in IH.
      rewrite (string_length_app pre cur) in IH.
      replace (pre +:+ (cur +:+ String c rest))
        with ((pre +:+ cur) +:+ (String c EmptyString +:+ rest)).
      2:{ rewrite !string_app_assoc. reflexivity. }
      replace (Z.of_nat (String.length pre + String.length cur) + 1)
        with (Z.of_nat (String.length pre + String.length cur
                        + String.length (String c EmptyString))).
      2:{ simpl. lia. }
      exact IH.
Qed.

Lemma fold_max_run (l : list (nat * string)) : forall m,
  0 <= m ->
  fold_left max_run l m = Z.max m (Z.of_nat (list_max (map run_length l))).
Proof.
  induction l as [|r l IH]; intros m Hm; simpl.
  - lia.
  - rewrite IH by (unfold max_run; lia). unfold max_run. lia.
Qed.

Lemma length_correct (s : string) :
  findLongestIncreasingSubstringsLength s = Z.of_nat (longest_run_length s).
Proof.
  destruct s as [|c rest]; [reflexivity|].
  unfold findLongestIncreasingSubstringsLength, longest_run_length, increasing_runs.
  cbn [String.length lengthLoop].
  replace (gt_char (charAt (String c rest) 0) (charAt (String c rest) (0 - 1))) with false
    by reflexivity.
  pose proof (lengthLoop_runs rest EmptyString EmptyString c (Z.max 0 (0 - -1 - 1))) as H.
  cbv zeta in H. rewrite !app_empty in H.
  change (String c EmptyString +:+ rest) with (String c rest) in H.
  change (Z.of_nat (String.length EmptyString) - 1) with (0 - 1) in H.
  change (Z.of_nat (String.length EmptyString + String.length (String c EmptyString)))
    with (0 + 1) in H.
  destruct (lengthLoop (String.length rest) (String c rest) (Z.max 0 (0 - -1 - 1)) (0 - 1) (0 + 1))
    as [[m' l] r].
  rewrite H. rewrite fold_max_run by lia.
  change (String.length EmptyString) with 0%nat. lia.
Qed.

Lemma runs_from_nonempty start cur last rest : runs_from start cur last rest <> [].
Proof.
  revert start cur last. induction rest as [|c rest IH]; intros start cur lst; simpl; [discriminate|].
  destruct (nat_of_ascii lst <? nat_of_ascii c)%nat; [apply IH | discriminate].
Qed.

Lemma runs_from_length start cur' last rest :
  Forall (fun r => (1 <= run_length r)%nat)
    (runs_from start (cur' +:+ String last EmptyString) last rest).
Proof.
  revert start cur' last. induction rest as [|c rest IH]; intros start cur' lst; simpl.
  - constructor; [|constructor]. unfold run_length. simpl. rewrite string_length_app. simpl. lia.
  - destruct (nat_of_ascii lst <? nat_of_ascii c)%nat.
    + apply IH.
    + constructor.
      * unfold run_length. simpl. rewrite string_length_app. simpl. lia.
      * apply (IH _ EmptyString c).
Qed.

Lemma list_max_attained {A} (f : A -> nat) (l : list A) :
  l <> [] -> List.filter (fun x => (f x =? list_max (map f l))%nat) l <> [].
Proof.
  intros Hl.
  assert (H : exists x, In x l /\ f x = list_max (map f l)).
  { induction l as [|a l IH]; [congruence|].
    destruct l as [|b l].
    - exists a. split; [now left|]. simpl. lia.
    - destruct IH as [x [Hin Hx]]; [discriminate|].
      change (list_max (map f (a :: b :: l))) with (Nat.max (f a) (list_max (map f (b :: l)))).
      destruct (Nat.le_ge_cases (f a) (list_max (map f (b :: l)))).
      + exists x. split; [now right|]. lia.
      + exists a. split; [now left|]. lia. }
  destruct H as [x [Hin Hx]].
  intros Hnil.
  assert (Hf : In x (List.filter (fun x => (f x =? list_max (map f l))%nat) l)).
  { apply filter_In. split; [assumption|]. now apply Nat.eqb_eq. }
  rewrite Hnil in Hf. destruct Hf.
Qed.

Lemma last_cons_nonempty {A} (a b d : A) (l : list A) :
  List.last (b :: l) a = List.last (b :: l) d.
Proof.
  revert b. induction l as [|c l IH]; intros b; [reflexivity|].
  change (List.last (c :: l) a = List.last (c :: l) d). apply IH.
Qed.

Lemma collect_runs_spec (M : Z) (l : list (nat * string)) : forall res,
  fold_left (collect_run M) l res =
  match List.filter (fun r => Z.of_nat (run_length r) =? M) l with
  | [] => res
  | first :: others =>
      {| substring := substring res +:+ concat_strings (map snd (first :: others));
         startIndex := if startIndex res =? -1 then run_start first else startIndex res;
         endIndex := run_end (List.last others first) |}
  end.
Proof.
  induction l as [|r l IH]; intros res; [reflexivity|].
  cbn [fold_left List.filter]. rewrite IH. unfold collect_run.
  destruct (Z.of_nat (run_length r) =? M) eqn:E; [|reflexivity].
  destruct (List.filter (fun r0 => Z.of_nat (run_length r0) =? M) l) as [|f t] eqn:F.
  - cbn. now rewrite string_app_nil_r.
  - cbn [substring startIndex endIndex map concat_strings fold_right List.last].
    f_equal.
    + now rewrite string_app_assoc.
    + destruct (startIndex res =? -1) eqn:S1.
      * unfold run_start at 1. destruct (Z.eqb_spec (Z.of_nat (fst r)) (-1)); [lia|reflexivity].
      * now rewrite S1.
    + f_equal. destruct t; [reflexivity|]. apply last_cons_nonempty.
Qed.

Lemma toLowerCase_length (s : string) : String.length (toLowerCase s) = String.length s.
Proof. induction s as [|c s IH]; simpl; [reflexivity | now rewrite IH]. Qed.

Lemma final_recordRun (s : string) (M l r : Z) (res : results) :
  (if r - l - 1 =? M then recordRun s M l r res else res) = recordRun s M l r res.
Proof. unfold recordRun. now destruct (r - l - 1 =? M). Qed.

Lemma longest_run_positive (c : ascii) (rest : string) :
  (1 <= longest_run_length (String c rest))%nat.
Proof.
  unfold longest_run_length, increasing_runs.
  pose proof (runs_from_length 0 EmptyString c rest) as HF.
  pose proof (runs_from_nonempty 0 (String c EmptyString) c rest) as HN.
  rewrite app_empty in HF.
  destruct (runs_from 0 (String c EmptyString) c rest) as [|r l]; [congruence|].
  inversion HF; subst. simpl. lia.
Qed.

Lemma collect_correct (c : ascii) (rest : string) :
  let s := String c rest in
  let M := Z.of_nat (longest_run_length s) in
  let '(l, r, res) :=
    collectLoop (String.length s) s M (-1) 0
      {| substring := EmptyString; startIndex := -1; endIndex := 0 |} in
  spec_longest_runs s = Some (recordRun s M l r res).
Proof.
  intros s M.
  assert (HM : 1 <= M) by (pose proof (longest_run_positive c rest); subst M s; lia).
  subst s. cbn [String.length collectLoop].
  replace (gt_char (charAt (String c rest) 0) (charAt (String c rest) (0 - 1))) with false
    by reflexivity.
  set (res0 := {| substring := EmptyString; startIndex := -1; endIndex := 0 |}).
  assert (H0 : recordRun (String c rest) M (-1) 0 res0 = res0).
  { unfold recordRun. destruct (Z.eqb_spec (0 - -1 - 1) M); [lia | reflexivity]. }
  rewrite H0.
  pose proof (collectLoop_runs M rest EmptyString EmptyString c res0) as H.
  cbv zeta in H. rewrite !app_empty in H.
  change (String c EmptyString +:+ rest) with (String c rest) in H.
  change (Z.of_nat (String.length EmptyString) - 1) with (0 - 1) in H.
  change (Z.of_nat (String.length EmptyString + String.length (String c EmptyString)))
    with (0 + 1) in H.
  destruct (collectLoop (String.length rest) (String c rest) M (0 - 1) (0 + 1) res0)
    as [[l r] res].
  rewrite H, collect_runs_spec.
  unfold spec_longest_runs, tying_runs.
  change (runs_from (String.length EmptyString) (String c EmptyString) c rest)
    with (increasing_runs (String c rest)).
  assert (HF : List.filter (fun r0 => Z.of_nat (run_length r0) =? M)
                 (increasing_runs (String c rest))
             = List.filter (fun r0 => (run_length r0 =? longest_run_length (String c rest))%nat)
                 (increasing_runs (String c rest))).
  { apply filter_ext. intros a. subst M.
    destruct (Nat.eqb_spec (run_length a) (longest_run_length (String c rest)));
      destruct (Z.eqb_spec (Z.of_nat (run_length a))
                  (Z.of_nat (longest_run_length (String c rest)))); try reflexivity; lia. }
  rewrite HF. clear HF.
  pose proof (list_max_attained run_length (increasing_runs (String c rest))
                (runs_from_nonempty _ _ _ _)) as HA.
  fold (longest_run_length (String c rest)) in HA.
  destruct (List.filter (fun r0 => (run_length r0 =? longest_run_length (String c rest))%nat)
              (increasing_runs (String c rest))) as [|f t]; [congruence|].
  reflexivity.
Qed.

Lemma findLongest_spec (name : string) :
  match spec_longest_runs (toLowerCase name) with
  | Some r => findLongestIncreasingSubstrings name = r
  | None => name = EmptyString
  end.
Proof.
  destruct name as [|c0 name]; [reflexivity|].
  unfold findLongestIncreasingSubstrings.
  rewrite length_correct.
  change (toLowerCase (String c0 name)) with (String (lower_char c0) (toLowerCase name)).
  pose proof (collect_correct (lower_char c0) (toLowerCase name)) as H. cbv zeta in H.
  destruct (collectLoop _ _ _ _ _ _) as [[l r] res].
  rewrite final_recordRun, H. reflexivity.
Qed.

Lemma code_of_results (md5 : string -> string) (getTime : Z) (name : string) :
  generateProductCode md5 getTime name =
  generateHash md5 name +:+ Z_to_string getTime +:+ "-" +:+
  Z_to_string (startIndex (findLongestIncreasingSubstrings name)) +:+
  substring (findLongestIncreasingSubstrings name) +:+
  Z_to_string (endIndex (findLongestIncreasingSubstrings name)).
Proof. reflexivity. Qed.

(** C7, the counterexample: on the empty name the end index is -1, not
    0; [left] stays -1 through both loops and the last test records
    [endIndex = left]. *)
Lemma empty_name_end_index_not_zero :
  endIndex (findLongestIncreasingSubstrings EmptyString) = -1 /\
  (endIndex (findLongestIncreasingSubstrings EmptyString) =? 0) = false.
Proof. split; reflexivity. Qed.

(** C7, as amended. For the empty product name the longest run has length
    0, the substring is empty, the start index is 0 and the end index is
    -1, so the generated code ends with "-0-1". *)
Theorem empty_name_code (md5 : string -> string) (getTime : Z) :
  findLongestIncreasingSubstringsLength (toLowerCase EmptyString) = 0 /\
  findLongestIncreasingSubstrings EmptyString
    = {| substring := EmptyString; startIndex := 0; endIndex := -1 |} /\
  generateProductCode md5 getTime EmptyString =
    generateHash md5 EmptyString +:+ Z_to_string getTime +:+ "-" +:+ "0-1".
Proof. repeat split. Qed.

Lemma increasing_snoc (cur' : string) (lst c : ascii) :
  increasing (cur' +:+ String lst EmptyString) ->
  (nat_of_ascii lst < nat_of_ascii c)%nat ->
  increasing ((cur' +:+ String lst EmptyString) +:+ String c EmptyString).
Proof.
  induction cur' as [|a cur' IH]; intros Hi Hlt.
  - simpl. auto.
  - rewrite !app_cons in *.
    destruct cur' as [|b cur'].
    + simpl in *. tauto.
    + rewrite !app_cons in *. destruct Hi as [Hab Hi]. split; [exact Hab|].
      apply IH; assumption.
Qed.

Lemma last_char_snoc (cur' : string) (lst d : ascii) :
  last_char (cur' +:+ String lst EmptyString) d = lst.
Proof.
  revert d. induction cur' as [|a cur' IH]; intros d; [reflexivity|].
  rewrite app_cons. simpl. apply IH.
Qed.

Lemma runs_from_partition (rest : string) : forall start cur lst,
  concat_strings (map snd (runs_from start cur lst rest)) = cur +:+ rest.
Proof.
  induction rest as [|c rest IH]; intros start cur lst; simpl.
  - reflexivity.
  - destruct (nat_of_ascii lst <? nat_of_ascii c)%nat; simpl.
    + rewrite IH, string_app_assoc. reflexivity.
    + now rewrite IH.
Qed.

Lemma runs_from_maximal (rest : string) : forall start cur' lst prev,
  let cur := cur' +:+ String lst EmptyString in
  increasing cur ->
  match cur with
  | EmptyString => False
  | String c _ => match prev with Some p => (nat_of_ascii c <= nat_of_ascii p)%nat | None => True end
  end ->
  maximal_runs start prev (runs_from start cur lst rest).
Proof.
  induction rest as [|c rest IH]; intros start cur' lst prev cur Hi Hp.
  - simpl. auto.
  - simpl. destruct (Nat.ltb_spec (nat_of_ascii lst) (nat_of_ascii c)).
    + apply (IH start cur c prev).
      * now apply increasing_snoc.
      * subst cur. destruct cur'; exact Hp.
    + simpl. repeat split; try assumption.
      apply (IH _ EmptyString c).
      * exact I.
      * subst cur. rewrite last_char_snoc. simpl. exact H.
Qed.

Lemma increasing_runs_sound (s : string) :
  concat_strings (map snd (increasing_runs s)) = s /\
  maximal_runs 0 None (increasing_runs s).
Proof.
  destruct s as [|c rest]; [split; [reflexivity | exact I]|].
  unfold increasing_runs. split.
  - apply runs_from_partition.
  - apply (runs_from_maximal rest 0 EmptyString c None); exact I.
Qed.

(** C1. For every product name the generated code is the hash, the time
    and "-" followed by the start index of the first tying longest run of
    the lower-cased name, all tying longest runs concatenated in order of
    appearance, and the end index of the last of them (a name without a
    run is the empty name); the runs the name is cut into are contiguous,
    strictly increasing and cannot be extended; and for "aabcabcd" the
    segment after "-" is "4abcd7". *)
Theorem generateProductCode_longest_runs (md5 : string -> string) (getTime : Z) :
  (forall name,
     match spec_longest_runs (toLowerCase name) with
     | Some r =>
         generateProductCode md5 getTime name =
         generateHash md5 name +:+ Z_to_string getTime +:+ "-" +:+
         Z_to_string (startIndex r) +:+ substring r +:+ Z_to_string (endIndex r)
     | None => name = EmptyString
     end) /\
  (forall s,
     concat_strings (map snd (increasing_runs s)) = s /\
     maximal_runs 0 None (increasing_runs s)) /\
  generateProductCode md5 getTime "aabcabcd" =
  generateHash md5 "aabcabcd" +:+ Z_to_string getTime +:+ "-" +:+ "4abcd7".
Proof.
  split; [|split; [exact increasing_runs_sound | reflexivity]].
  intros name. pose proof (findLongest_spec name) as H.
  destruct (spec_longest_runs (toLowerCase name)) as [r|]; [|exact H].
  rewrite <- H. reflexivity.
Qed.

(** * Numbers *)

Lemma num_zero : num_of_Z 0 = S754_zero false.
Proof. reflexivity. Qed.

Lemma num_hundred : num_of_Z 100 = S754_finite false 7036874417766400 (-46).
Proof. vm_compute. reflexivity. Qed.

(** [toFixed] rounds to the nearest hundredth, upwards on a tie: with
    [n = hundredths m e] and [e < 0], [n - 1/2 <= 100 * m * 2^e < n + 1/2]. *)
Lemma hundredths_nearest (m : positive) (e : Z) :
  e < 0 ->
  let n := hundredths m e in
  (2 * n - 1) * 2 ^ (- e) <= 200 * Z.pos m < (2 * n + 1) * 2 ^ (- e).
Proof.
  intros He n. subst n. unfold hundredths.
  destruct (Z.leb_spec 0 e); [lia|].
  set (k := - e). assert (Hk : 0 <= k) by lia.
  assert (Hp : 0 < 2 ^ k) by (apply Z.pow_pos_nonneg; lia).
  replace (2 ^ (k + 1)) with (2 * 2 ^ k) by (rewrite Z.pow_add_r by lia; lia).
  set (a := 200 * Z.pos m + 2 ^ k).
  pose proof (Z.div_mod a (2 * 2 ^ k) ltac:(lia)) as Hd.
  pose proof (Z.mod_pos_bound a (2 * 2 ^ k) ltac:(lia)) as Hm.
  nia.
Qed.

Lemma hundredths_integer (m : positive) (e : Z) :
  0 <= e -> hundredths m e = 100 * (Z.pos m * 2 ^ e).
Proof. intros He. unfold hundredths. destruct (Z.leb_spec 0 e); lia. Qed.

(** What [toFixed2] returns is its argument rounded to 2 decimal
    places. *)
Lemma toFixed2_rounded (y : number) : rounded_to_2_decimals y (toFixed2 y).
Proof.
  destruct y as [s|s| |s m e]; try reflexivity.
  unfold rounded_to_2_decimals, toFixed2.
  destruct (Z.leb_spec 0 e) as [He|He]; [reflexivity|].
  exists (hundredths m e). split; [exact (hundredths_nearest m e He) | reflexivity].
Qed.

(** * Pricing *)

Section Pricing.
Context `{Platform}.

Lemma toFixed2_zero_amount (p : number) (s : bool) :
  toFixed2 (js_div (js_mul p (S754_zero s)) (num_of_Z 100)) = 
  toFixed2 (js_div (js_mul p (S754_zero false)) (num_of_Z 100)).
Proof. rewrite num_hundred. destruct p as [sp|sp| |sp m e], s; reflexivity. Qed.

Lemma toFixed2_zero_final (p : number) (s : bool) :
  toFixed2 (js_sub p (js_div (js_mul p (S754_zero s)) (num_of_Z 100))) = 
  toFixed2 (js_sub p (js_div (js_mul p (S754_zero false)) (num_of_Z 100))).
Proof. rewrite num_hundred. destruct p as [sp|sp| |sp m e], s; try destruct sp; reflexivity. Qed.

Lemma pricing_equations (product : product) (populated : option (option category))
    (d : number) :
  p_discount product = Some d ->
  js_le (num_of_Z 0) d = true ->
  js_le d (num_of_Z 100) = true ->
  let p := p_price product in
  let r := pd_pricing (calculatePricing product populated) in
  discountAmount r = toFixed2 (js_div (js_mul p d) (num_of_Z 100)) /\
  finalPrice r = toFixed2 (js_sub p (js_div (js_mul p d) (num_of_Z 100))) /\
  savings r = discountAmount r /\
  hasDiscount r = js_gt d (num_of_Z 0) /\
  originalPrice r = toFixed2 p /\
  pd_doc (calculatePricing product populated) = product.
Proof.
  intros Hd H0 H100 p r. subst r p. unfold calculatePricing. rewrite Hd.
  cbn [pd_pricing pd_doc discountAmount finalPrice savings hasDiscount originalPrice option_map].
  destruct d as [s|s| |s m e].
  - unfold js_or, truthy, number_of, ToNumber, lit. rewrite num_zero.
    repeat split.
    + symmetry. apply toFixed2_zero_amount.
    + symmetry. apply toFixed2_zero_final.
  - exfalso. rewrite num_hundred in H100. rewrite num_zero in H0. destruct s; discriminate.
  - discriminate.
  - repeat split.
Qed.
End Pricing.

(** * Reasoning about handlers *)

Lemma bind_inr {A B} (m : M A) (k : A -> M B) st b st' :
  bind m k st = (inr b, st') ->
  exists a st1, m st = (inr a, st1) /\ k a st1 = (inr b, st').
Proof.
  unfold bind. destruct (m st) as [[e|a] st1]; intros E.
  - discriminate.
  - eauto.
Qed.

Lemma bind_result {A B} (m : M A) (k : A -> M B) st r st' :
  bind m k st = (r, st') ->
  (exists a st1, m st = (inr a, st1) /\ k a st1 = (r, st')) \/
  (exists e, m st = (inl e, st') /\ r = inl e).
Proof.
  unfold bind. destruct (m st) as [[e|a] st1]; intros E.
  - right. inversion E; subst. eauto.
  - left. eauto.
Qed.

Lemma same_db_refl st : same_db st st.
Proof. repeat split. Qed.

Lemma same_db_trans st1 st2 st3 : same_db st1 st2 -> same_db st2 st3 -> same_db st1 st3.
Proof. unfold same_db. intros (?&?&?) (?&?&?). repeat split; congruence. Qed.

Lemma reads_ret {A} (a : A) : reads (ret a).
Proof. intros st. apply same_db_refl. Qed.

Lemma reads_throw {A} (e : error) : reads (@throw A e).
Proof. intros st. apply same_db_refl. Qed.

Lemma reads_get_state : reads get_state.
Proof. intros st. apply same_db_refl. Qed.

Lemma reads_record_call model op : reads (record_call model op).
Proof. intros st. repeat split. Qed.

Lemma reads_bind {A B} (m : M A) (k : A -> M B) :
  reads m -> (forall a, reads (k a)) -> reads (bind m k).
Proof.
  intros Hm Hk st. unfold bind. specialize (Hm st).
  destruct (m st) as [[e|a] st1]; simpl in *; [exact Hm|].
  eapply same_db_trans; [exact Hm | apply Hk].
Qed.

Lemma reads_same {A} (m : M A) st r st' : reads m -> m st = (r, st') -> same_db st st'.
Proof. intros Hm E. specialize (Hm st). now rewrite E in Hm. Qed.

Create HintDb reads discriminated.
#[export] Hint Resolve reads_ret reads_throw reads_get_state reads_record_call : reads.

Ltac reads_step :=
  first
    [ solve [auto with reads nocore]
    | apply reads_bind; [|intros ?]
    | match goal with
      | |- reads (match ?x with _ => _ end) => destruct x
      | |- reads (if ?b then _ else _) => destruct b
      end ].

Ltac reads_tac := cbv zeta; repeat reads_step.

Section StoreFacts.
Context `{Platform}.

Lemma reads_Category_findById id : reads (Category_findById id).
Proof. unfold Category_findById. reads_tac. Qed.

Lemma reads_Product_findById id : reads (Product_findById id).
Proof. unfold Product_findById. reads_tac. Qed.

Lemma reads_Product_findOne name category : reads (Product_findOne name category).
Proof. unfold Product_findOne. reads_tac. Qed.

Lemma reads_populate p : reads (populateCategory p).
Proof. unfold populateCategory. reads_tac. Qed.

Lemma reads_paging l s : reads (paging l s).
Proof. unfold paging. reads_tac. Qed.

Lemma reads_search_pattern search : reads (search_pattern search).
Proof. unfold search_pattern. reads_tac. Qed.

Lemma reads_matching_products f : reads (matching_products f).
Proof. unfold matching_products. reads_tac; apply reads_search_pattern. Qed.

Lemma reads_Product_find f k d l s : reads (Product_find f k d l s).
Proof.
  unfold Product_find. reads_tac; first [apply reads_paging | apply reads_matching_products].
Qed.

Lemma reads_Product_countDocuments f : reads (Product_countDocuments f).
Proof. unfold Product_countDocuments. reads_tac; apply reads_matching_products. Qed.

Lemma reads_Category_find f l s : reads (Category_find f l s).
Proof.
  unfold Category_find. reads_tac; first [apply reads_paging | apply reads_search_pattern].
Qed.

Lemma reads_Category_countDocuments f : reads (Category_countDocuments f).
Proof. unfold Category_countDocuments. reads_tac; apply reads_search_pattern. Qed.

Lemma reads_body_of req : reads (body_of req).
Proof. unfold body_of. reads_tac. Qed.
End StoreFacts.

#[export] Hint Resolve reads_Category_findById reads_Product_findById reads_Product_findOne
  reads_populate reads_paging reads_matching_products reads_Product_find
  reads_Product_countDocuments reads_Category_find reads_Category_countDocuments
  reads_body_of : reads.

(** ** Lists *)

Lemma In_insert_sorted {A} (cmp : A -> A -> comparison) (x y : A) (l : list A) :
  In y (insert_sorted cmp x l) <-> y = x \/ In y l.
Proof.
  induction l as [|z l IH]; simpl.
  - intuition.
  - destruct (cmp x z); simpl; try rewrite IH; intuition.
Qed.

Lemma In_sort_by {A} (cmp : A -> A -> comparison) (y : A) (l : list A) :
  In y (sort_by cmp l) <-> In y l.
Proof.
  unfold sort_by. induction l as [|z l IH]; simpl.
  - tauto.
  - rewrite In_insert_sorted, IH. intuition.
Qed.

Lemma length_insert_sorted {A} (cmp : A -> A -> comparison) (x : A) (l : list A) :
  length (insert_sorted cmp x l) = S (length l).
Proof.
  induction l as [|z l IH]; simpl; [reflexivity|].
  destruct (cmp x z); simpl; try rewrite IH; reflexivity.
Qed.

Lemma length_sort_by {A} (cmp : A -> A -> comparison) (l : list A) :
  length (sort_by cmp l) = length l.
Proof.
  unfold sort_by. induction l as [|z l IH]; simpl; [reflexivity|].
  now rewrite length_insert_sorted, IH.
Qed.

Lemma In_skipn {A} (n : nat) (y : A) (l : list A) : In y (List.skipn n l) -> In y l.
Proof. rewrite <- (firstn_skipn n l) at 2. rewrite in_app_iff. tauto. Qed.

Lemma In_firstn {A} (n : nat) (y : A) (l : list A) : In y (List.firstn n l) -> In y l.
Proof. rewrite <- (firstn_skipn n l) at 2. rewrite in_app_iff. tauto. Qed.

Lemma In_window {A} (skip limit : number) (y : A) (l : list A) :
  In y (window skip limit l) -> In y l.
Proof.
  unfold window. intros Hin. apply (In_skipn (Z.to_nat (trunc skip))).
  destruct limit; [exact Hin | eapply In_firstn; exact Hin ..].
Qed.

Lemma replace_first_In {A} (test : A -> bool) (new old : A) (l : list A) :
  List.find test l = Some old -> In new (replace_first test new l).
Proof.
  induction l as [|x l IH]; simpl; [discriminate|].
  destruct (test x); intros E; [now left | right; auto].
Qed.

Lemma find_replace_first {A} (test : A -> bool) (new old : A) (l : list A) :
  List.find test l = Some old -> test new = true ->
  List.find test (replace_first test new l) = Some new.
Proof.
  induction l as [|x l IH]; simpl; [discriminate|].
  destruct (test x) eqn:E; intros Hf Hn; simpl.
  - now rewrite Hn.
  - rewrite E. auto.
Qed.

Lemma find_app_last {A} (test : A -> bool) (x : A) (l : list A) :
  test x = true -> exists y, List.find test (l ++ [x]) = Some y /\ test y = true.
Proof.
  intros Hx. induction l as [|z l IH]; simpl.
  - rewrite Hx. eauto.
  - destruct (test z) eqn:E; eauto.
Qed.

(** ** Inverting a handler that returned *)

Lemma search_pattern_inr `{Platform} (search : option value) st u st' :
  search_pattern search st = (inr u, st') ->
  st' = st /\ forall s, search = Some (VString s) -> regexError s = None.
Proof.
  unfold search_pattern, ret, throw.
  destruct search as [[|b|n|s|t]|];
    try (intros E; injection E as _ <-; split; [reflexivity|]; intros s0 E0; discriminate E0).
  destruct (regexError s) as [[code message]|] eqn:R; intros E; [discriminate E|].
  injection E as _ <-. split; [reflexivity|]. intros s0 E0. injection E0 as <-. exact R.
Qed.

Ltac prim Hm :=
  lazymatch type of Hm with
  | get_state _ = _ => unfold get_state in Hm; injection Hm as ? ?; subst
  | search_pattern _ _ = _ =>
      apply search_pattern_inr in Hm; destruct Hm as [? _]; subst
  | put_state _ _ = _ => unfold put_state in Hm; injection Hm as ? ?; subst
  | record_call _ _ _ = _ => unfold record_call in Hm; injection Hm as ? ?; subst
  | _ => idtac
  end.

Ltac minv H :=
  cbv beta zeta in H;
  lazymatch type of H with
  | bind _ _ _ = (inr _, _) =>
      let a := fresh "a" in let st1 := fresh "st" in let Hm := fresh "Hm" in
      apply bind_inr in H; destruct H as (a & st1 & Hm & H); prim Hm
  | ret _ _ = _ => unfold ret in H; injection H as ? ?; subst; try congruence
  | throw _ _ = (inr _, _) => discriminate H
  | (match ?x with _ => _ end) _ = (inr _, _) => destruct x eqn:?
  | (if ?x then _ else _) _ = (inr _, _) => destruct x eqn:?
  end.

Ltac mrun H := repeat (minv H).

Section ProductFacts.
Context `{Platform}.

Lemma Product_findById_found id st p st' :
  Product_findById id st = (inr (Some p), st') ->
  same_db st st' /\
  exists x, castObjectId id = Cast x /\ List.find (has_id x) (products st) = Some p.
Proof.
  intros E. pose proof (reads_same _ _ _ _ (reads_Product_findById id) E) as Hs.
  split; [exact Hs|]. unfold Product_findById in E. mrun E. eauto.
Qed.

Lemma Category_findById_found id st c st' :
  Category_findById id st = (inr (Some c), st') ->
  same_db st st' /\
  exists x, castObjectId id = Cast x /\ List.find (has_category_id x) (categories st) = Some c.
Proof.
  intros E. pose proof (reads_same _ _ _ _ (reads_Category_findById id) E) as Hs.
  split; [exact Hs|]. unfold Category_findById in E. mrun E. eauto.
Qed.

Lemma Product_create_stored n d p di im s code c cn now st new st' :
  Product_create n d p di im s code c cn now st = (inr new, st') ->
  products st' = products st ++ [new] /\ categories st' = categories st /\
  p_categoryName new = Some cn /\ p_productCode new = code /\
  apply_required (castString n) EmptyString = p_name new /\
  apply_required (castObjectId c) EmptyString = p_category new.
Proof.
  intros E. unfold Product_create in E. mrun E. simpl. repeat split.
Qed.

Lemma Product_findByIdAndUpdate_stored id update st new st' :
  Product_findByIdAndUpdate id update st = (inr (Some new), st') ->
  exists x old,
    castObjectId id = Cast x /\
    List.find (has_id x) (products st) = Some old /\
    new = patch_product (castProduct update) old /\
    products st' = replace_first (has_id x) new (products st) /\
    categories st' = categories st.
Proof.
  intros E. unfold Product_findByIdAndUpdate in E. mrun E.
  all: simpl in *; eexists _, _; repeat split; eassumption.
Qed.

Lemma matching_products_found f st found st' :
  matching_products f st = (inr found, st') ->
  forall p, In p found -> In p (products st).
Proof.
  intros E. unfold matching_products in E. mrun E.
  all: intros p Hp; apply filter_In in Hp; tauto.
Qed.

Lemma Product_find_found f k d l s st res st' :
  Product_find f k d l s st = (inr res, st') ->
  same_db st st' /\ forall p c, In (p, c) res -> In p (products st).
Proof.
  intros E. pose proof (reads_same _ _ _ _ (reads_Product_find f k d l s) E) as Hs.
  split; [exact Hs|].
  unfold Product_find in E.
  minv E. minv E. pose proof (reads_same _ _ _ _ (reads_paging _ _) Hm) as S1.
  minv E. pose proof (reads_same _ _ _ _ (reads_matching_products _) Hm0) as S2.
  pose proof (matching_products_found _ _ _ _ Hm0) as Hfound.
  minv E. minv E. minv E.
  intros p c Hin. apply in_map_iff in Hin.
  destruct Hin as (p' & Heq & Hin). injection Heq as -> _.
  apply In_window in Hin. apply In_sort_by in Hin.
  apply Hfound in Hin. destruct S1 as (_ & P1 & _). simpl in P1. congruence.
Qed.
End ProductFacts.

(** * The product data of a response *)

Section HandlerFacts.
Context `{Platform}.

Lemma handler_pricing c req st res st' :
  handler c req st = (inr res, st') ->
  forall pd, In pd (product_items res) ->
    pd = calculatePricing (pd_doc pd) (pd_category pd) /\ In (pd_doc pd) (products st').
Proof.
  intros E pd Hin. destruct c; simpl in E.
  - unfold createProduct in E. mrun E.
    destruct Hin as [<-|[]]. split; [reflexivity|].
    apply Product_create_stored in Hm2. destruct Hm2 as (-> & _).
    apply in_app_iff. right. now left.
  - unfold getProducts, pagination_window in E. mrun E.
    apply Product_find_found in Hm. destruct Hm as (S1 & Hf).
    pose proof (reads_same _ _ _ _ (reads_Product_countDocuments _) Hm0) as S2.
    simpl in Hin. apply in_map_iff in Hin. destruct Hin as ([p c] & <- & Hin).
    split; [reflexivity|]. simpl. apply Hf in Hin.
    destruct S1 as (_ & P1 & _), S2 as (_ & P2 & _). congruence.
  - unfold getProductById in E. mrun E.
    apply Product_findById_found in Hm. destruct Hm as (S1 & x & _ & Hf).
    pose proof (reads_same _ _ _ _ (reads_populate _) Hm0) as S2.
    destruct Hin as [<-|[]]. split; [reflexivity|]. simpl.
    apply find_some in Hf. destruct S1 as (_ & P1 & _), S2 as (_ & P2 & _).
    rewrite P2, P1. tauto.
  - unfold updateProduct in E. mrun E.
    all: destruct Hin as [<-|[]]; split; [reflexivity|]; simpl.
    all: pose proof (reads_same _ _ _ _ (reads_populate _) Hm3) as S2.
    all: apply Product_findByIdAndUpdate_stored in Hm2.
    all: destruct Hm2 as (x & old & _ & Hf & _ & Hp & _).
    all: destruct S2 as (_ & P2 & _); rewrite P2, Hp.
    all: eapply replace_first_In; eassumption.
  - unfold deleteProduct in E. mrun E. destruct Hin.
  - unfold createCategory in E. mrun E. destruct Hin.
  - unfold getCategory, pagination_window in E. mrun E. destruct Hin.
  - unfold getCategoryById in E. mrun E; destruct Hin.
  - unfold updateCategoryById in E. mrun E; destruct Hin.
  - unfold deleteCategoryById in E. mrun E; destruct Hin.
  - unfold getHealth in E. mrun E. destruct Hin.
Qed.

(** What [errorHandler] and [validate] send carries no product. *)
Lemma errorHandler_items err req : product_items (errorHandler err req) = [].
Proof. unfold errorHandler. destruct err; reflexivity. Qed.

Lemma validate_refusal schema req res :
  validate schema req = Some res ->
  exists errors, res = mkResponse 400 (ValidationFailed "Validation failed" errors).
Proof.
  unfold validate. destruct (parseAsync schema req) as [[|i issues] out]; [discriminate|].
  intros E. injection E as <-. eauto.
Qed.

(** [cors()] ends a preflight request and nothing else; a request with
    a route is none. *)
Lemma cors_cases req :
  cors req = None \/ (req_method req = "OPTIONS" /\ cors req = Some (mkResponse 204 NoContent)).
Proof.
  unfold cors, string_eqb. destruct (bool_decide_reflect (req_method req = "OPTIONS")) as [E|E].
  - right. split; [exact E | reflexivity].
  - now left.
Qed.

Lemma cors_method req m : req_method req = m -> m <> "OPTIONS" -> cors req = None.
Proof.
  intros <- N. unfold cors, string_eqb. now rewrite bool_decide_eq_false_2.
Qed.

Lemma routed_cors req r req' : rootRouter req = Some (r, req') -> cors req = None.
Proof.
  destruct (cors_cases req) as [E|[E _]]; [intros _; exact E|].
  unfold rootRouter, categoryRouter, productRouter, healthRouter, route_method.
  rewrite E. cbn [string_eqb]. 
  destruct (List.filter _ (req_path req)) as [|mount rest]; [discriminate|].
  destruct (string_eqb (toLowerCase mount) "category");
    [destruct rest as [|? [|? ?]]; discriminate|].
  destruct (string_eqb (toLowerCase mount) "product");
    [destruct rest as [|? [|? ?]]; discriminate|].
  destruct (string_eqb (toLowerCase mount) "health");
    [destruct rest as [|? [|? ?]]; discriminate|].
  discriminate.
Qed.

Lemma app_routed req st r req' :
  rootRouter req = Some (r, req') ->
  app req st =
  match r_validate r with
  | Some schema =>
      match validate schema req' with
      | Some refused => (refused, st)
      | None => run_handler (r_controller r) req' st
      end
  | None => run_handler (r_controller r) req' st
  end.
Proof. intros R. unfold app. now rewrite (routed_cors _ _ _ R), R. Qed.

Lemma app_pricing req st :
  forall pd, In pd (product_items (fst (app req st))) ->
    pd = calculatePricing (pd_doc pd) (pd_category pd) /\
    In (pd_doc pd) (products (snd (app req st))).
Proof.
  intros pd. unfold app.
  destruct (cors_cases req) as [->|[_ ->]]; [|intros []].
  destruct (rootRouter req) as [[r req']|]; [|cbn [fst]; rewrite errorHandler_items; intros []].
  assert (Hrun : In pd (product_items (fst (run_handler (r_controller r) req' st))) ->
                 pd = calculatePricing (pd_doc pd) (pd_category pd) /\
                 In (pd_doc pd) (products (snd (run_handler (r_controller r) req' st)))).
  { unfold run_handler.
    destruct (handler (r_controller r) req' st) as [[err|res] st1] eqn:E; simpl.
    - rewrite errorHandler_items. intros [].
    - eapply handler_pricing; eassumption. }
  destruct (r_validate r) as [schema|]; [|exact Hrun].
  destruct (validate schema req') as [refused|] eqn:V; [|exact Hrun].
  apply validate_refusal in V. destruct V as (errors & ->). intros [].
Qed.
End HandlerFacts.

Section ReadOnly.
Context `{Platform}.

Lemma reads_getProducts req : reads (getProducts req).
Proof.
  unfold getProducts, pagination_window. reads_tac.
Qed.

Lemma reads_getProductById req : reads (getProductById req).
Proof.
  unfold getProductById. reads_tac.
Qed.

Lemma reads_getCategory req : reads (getCategory req).
Proof.
  unfold getCategory, pagination_window. reads_tac.
Qed.

Lemma reads_getCategoryById req : reads (getCategoryById req).
Proof. unfold getCategoryById. reads_tac. Qed.

Lemma reads_getHealth req : reads (getHealth req).
Proof. unfold getHealth. reads_tac. Qed.

Lemma run_handler_reads c req st :
  reads (handler c req) -> same_db st (snd (run_handler c req st)).
Proof.
  intros Hr. unfold run_handler. specialize (Hr st).
  destruct (handler c req st) as [[err|res] st1]; exact Hr.
Qed.

Lemma get_route req r req' :
  req_method req = "GET" -> rootRouter req = Some (r, req') ->
  r_controller r = GetProducts \/ r_controller r = GetProductById \/
  r_controller r = GetCategory \/ r_controller r = GetCategoryById \/
  r_controller r = GetHealth.
Proof.
  intros Hm. unfold rootRouter, categoryRouter, productRouter, healthRouter, route_method.
  rewrite Hm. cbn [string_eqb].
  destruct (List.filter _ (req_path req)) as [|seg rest]; [discriminate|].
  destruct (string_eqb (toLowerCase seg) "category");
    [destruct rest as [|id [|? ?]]; intros E; inversion E; subst; simpl; tauto|].
  destruct (string_eqb (toLowerCase seg) "product");
    [destruct rest as [|id [|? ?]]; intros E; inversion E; subst; simpl; tauto|].
  destruct (string_eqb (toLowerCase seg) "health");
    [destruct rest as [|id ?]; intros E; inversion E; subst; simpl; tauto|].
  discriminate.
Qed.

Lemma app_get_reads req st :
  req_method req = "GET" -> same_db st (snd (app req st)).
Proof.
  intros Hm. unfold app. rewrite (cors_method _ _ Hm) by discriminate.
  destruct (rootRouter req) as [[r req']|] eqn:R; [|apply same_db_refl].
  assert (Hrun : same_db st (snd (run_handler (r_controller r) req' st))).
  { apply run_handler_reads.
    destruct (get_route _ _ _ Hm R) as [-> | [-> | [-> | [-> | ->]]]]; simpl.
    - apply reads_getProducts.
    - apply reads_getProductById.
    - apply reads_getCategory.
    - apply reads_getCategoryById.
    - apply reads_getHealth. }
  destruct (r_validate r); [|exact Hrun].
  destruct (validate _ req'); [apply same_db_refl | exact Hrun].
Qed.
End ReadOnly.

(** * Duplicates *)

Section Duplicates.
Context `{Platform}.

Lemma Category_findById_eq id x st :
  castObjectId id = Cast x ->
  Category_findById id st =
  (inr (List.find (has_category_id x) (categories st)), logged st "Category" "findById").
Proof. intros E. unfold Category_findById, bind, record_call. now rewrite E. Qed.

Lemma Product_findOne_eq name category n c st :
  castString name = Cast n -> castObjectId category = Cast c ->
  Product_findOne name category st =
  (inr (List.find (fun p => string_eqb (p_name p) n && string_eqb (p_category p) c)
          (products st)),
   logged st "Product" "findOne").
Proof. intros E1 E2. unfold Product_findOne, bind, record_call. now rewrite E1, E2. Qed.

Lemma string_eqb_refl s : string_eqb s s = true.
Proof. unfold string_eqb. now apply bool_decide_eq_true. Qed.

Lemma post_product_route req :
  req_method req = "POST" -> req_path req = ["product"] ->
  rootRouter req = Some (mkRoute (Some validateCreateProduct) CreateProduct, req).
Proof. intros Hm Hp. unfold rootRouter, productRouter, route_method. now rewrite Hp, Hm. Qed.

Lemma post_category_route req :
  req_method req = "POST" -> req_path req = ["category"] ->
  rootRouter req = Some (mkRoute (Some validateCreateCategory) CreateCategory, req).
Proof. intros Hm Hp. unfold rootRouter, categoryRouter, route_method. now rewrite Hp, Hm. Qed.

Lemma is_success_errorHandler err req : is_success (errorHandler err req) = false.
Proof. unfold errorHandler. destruct err; reflexivity. Qed.

(** A successful response of a validated route comes from its handler. *)
Lemma app_success req st r req' :
  rootRouter req = Some (r, req') ->
  is_success (fst (app req st)) = true ->
  exists res, handler (r_controller r) req' st = (inr res, snd (app req st)).
Proof.
  intros R. rewrite (app_routed _ _ _ _ R).
  assert (Hrun : is_success (fst (run_handler (r_controller r) req' st)) = true ->
                 exists res, handler (r_controller r) req' st
                             = (inr res, snd (run_handler (r_controller r) req' st))).
  { unfold run_handler. destruct (handler (r_controller r) req' st) as [[err|res] st1]; simpl.
    - rewrite is_success_errorHandler. discriminate.
    - eauto. }
  destruct (r_validate r) as [schema|]; [|exact Hrun].
  destruct (validate schema req') as [refused|] eqn:V; [|exact Hrun].
  apply validate_refusal in V. destruct V as (errors & ->). discriminate.
Qed.

Lemma duplicate_product req1 req2 st b1 b2 :
  req_method req1 = "POST" -> req_path req1 = ["product"] -> req_body req1 = Some b1 ->
  req_method req2 = "POST" -> req_path req2 = ["product"] -> req_body req2 = Some b2 ->
  b2 !! "name" = b1 !! "name" -> b2 !! "categoryId" = b1 !! "categoryId" ->
  is_success (fst (app req1 st)) = true ->
  validate createProductSchema req2 = None ->
  let res := fst (app req2 (snd (app req1 st))) in
  status res = 400 /\ error_type res = Some VALIDATION_ERROR.
Proof.
  intros M1 P1 B1 M2 P2 B2 Hn Hc S1 V2.
  destruct (app_success _ _ _ _ (post_product_route _ M1 P1) S1) as (res1 & E1).
  cbn [r_controller handler] in E1.
  set (st1 := snd (app req1 st)) in *. clearbody st1.
  unfold createProduct in E1. mrun E1.
  unfold body_of in Hm. rewrite B1 in Hm. mrun Hm.
  apply Category_findById_found in Hm0. destruct Hm0 as (D0 & x & Cx & Fc).
  pose proof (reads_same _ _ _ _ (reads_Product_findOne _ _) Hm1) as D1.
  apply Product_create_stored in Hm2.
  destruct Hm2 as (Ps & Cs & _ & _ & Nn & Nc).
  rewrite Cx in Nc. simpl in Nn, Nc.
  assert (Fc' : List.find (has_category_id x) (categories st1) = Some c).
  { rewrite Cs. destruct D1 as (-> & _). destruct D0 as (-> & _). exact Fc. }
  destruct (find_app_last (fun p => string_eqb (p_name p) s && string_eqb (p_category p) x)
              a2 (products st3)) as (y & Fy & _).
  { rewrite <- Nn, <- Nc, !string_eqb_refl. reflexivity. }
  assert (E2 : createProduct req2 st1 =
               (inl (createValidationError
                       "Product with this name already exists in this category"),
                logged (logged st1 "Category" "findById") "Product" "findOne")).
  { unfold createProduct, body_of. rewrite B2. unfold bind, ret.
    rewrite Hc, Hn, Heqo1. rewrite (Category_findById_eq _ x _ Cx), Fc'.
    rewrite (Product_findOne_eq (Some (VString s)) (a !! "categoryId") s x _ eq_refl Cx).
    cbn [products logged]. rewrite Ps, Fy. reflexivity. }
  intros res. subst res.
  rewrite (app_routed _ _ _ _ (post_product_route _ M2 P2)). cbn [r_validate r_controller].
  change validateCreateProduct with createProductSchema. rewrite V2.
  unfold run_handler, handler. rewrite E2. split; reflexivity.
Qed.

Lemma castString_never_fails path kind v :
  cast_failure path kind (castString v) = [].
Proof. destruct v as [[| | | |]|]; reflexivity. Qed.

Lemma Category_create_stored n d now st new st' :
  Category_create n d now st = (inr new, st') ->
  categories st' = categories st ++ [new] /\
  c_name new = apply_required (castString n) EmptyString /\
  required_string true "name" (castString n) = [].
Proof.
  intros E. unfold Category_create in E. mrun E. simpl.
  unfold category_cast_failures, category_validators in Heql. simpl in Heql.
  rewrite !castString_never_fails in Heql. simpl in Heql.
  repeat split. exact Heql.
Qed.

Lemma Category_create_duplicate n d now st :
  required_string true "name" (castString n) = [] ->
  existsb (fun c => string_eqb (c_name c) (apply_required (castString n) EmptyString))
    (categories st) = true ->
  Category_create n d now st =
  (inl (DuplicateKeyError "name" (apply_required (castString n) EmptyString)),
   logged st "Category" "create").
Proof.
  intros V D. unfold Category_create, bind, record_call, get_state.
  unfold category_cast_failures, category_validators. cbn [k_id k_name k_description
    k_createdAt k_updatedAt k_version cast_failure].
  rewrite !castString_never_fails, V. cbn [map Datatypes.app].
  cbn [categories patch_category c_name k_name]. rewrite D. reflexivity.
Qed.

Lemma duplicate_category req1 req2 st b1 b2 :
  req_method req1 = "POST" -> req_path req1 = ["category"] -> req_body req1 = Some b1 ->
  req_method req2 = "POST" -> req_path req2 = ["category"] -> req_body req2 = Some b2 ->
  b2 !! "name" = b1 !! "name" ->
  is_success (fst (app req1 st)) = true ->
  validate createCategorySchema req2 = None ->
  let res := fst (app req2 (snd (app req1 st))) in
  status res = 409 /\ error_type res = Some DUPLICATE_ERROR.
Proof.
  intros M1 P1 B1 M2 P2 B2 Hn S1 V2.
  destruct (app_success _ _ _ _ (post_category_route _ M1 P1) S1) as (res1 & E1).
  cbn [r_controller handler] in E1.
  set (st1 := snd (app req1 st)) in *. clearbody st1.
  unfold createCategory in E1. mrun E1.
  unfold body_of in Hm. rewrite B1 in Hm. mrun Hm.
  apply Category_create_stored in Hm0. destruct Hm0 as (Cs & Nn & Vn).
  assert (E2 : createCategory req2 st1 =
               (inl (DuplicateKeyError "name"
                       (apply_required (castString (a !! "name")) EmptyString)),
                logged st1 "Category" "create")).
  { unfold createCategory, body_of. rewrite B2. unfold bind at 1. unfold ret at 1.
    cbv beta zeta. rewrite Hn. unfold bind.
    rewrite (Category_create_duplicate _ _ _ _ Vn); [reflexivity|].
    rewrite Cs, existsb_app. simpl. rewrite Nn, string_eqb_refl.
    now rewrite orb_true_r. }
  intros res. subst res.
  rewrite (app_routed _ _ _ _ (post_category_route _ M2 P2)). cbn [r_validate r_controller].
  change validateCreateCategory with createCategorySchema. rewrite V2.
  unfold run_handler, handler. rewrite E2. split; reflexivity.
Qed.
End Duplicates.

(** * Category requests and the products *)

Lemma keeps_ret {A} (a : A) : keeps_products (ret a).
Proof. intros st. reflexivity. Qed.

Lemma keeps_throw {A} (e : error) : keeps_products (@throw A e).
Proof. intros st. reflexivity. Qed.

Lemma keeps_bind {A B} (m : M A) (k : A -> M B) :
  keeps_products m -> (forall a, keeps_products (k a)) -> keeps_products (bind m k).
Proof.
  intros Hm Hk st. unfold bind. specialize (Hm st).
  destruct (m st) as [[e|a] st1]; simpl in *; [exact Hm|].
  rewrite Hk. exact Hm.
Qed.

Lemma keeps_reads {A} (m : M A) : reads m -> keeps_products m.
Proof. intros Hr st. destruct (Hr st) as (_ & Hp & _). exact Hp. Qed.

Ltac keeps_step :=
  first
    [ apply keeps_ret | apply keeps_throw
    | apply keeps_reads; solve [auto with reads nocore]
    | match goal with
      | |- keeps_products (bind get_state _) => fail 1
      | |- keeps_products (bind _ _) => apply keeps_bind; [|intros ?]
      | |- keeps_products (match ?x with _ => _ end) => destruct x
      | |- keeps_products (if ?b then _ else _) => destruct b
      end ].

Ltac keeps_tac := cbv zeta; repeat keeps_step.

Section CategoryFacts.
Context `{Platform}.

Lemma keeps_Category_create n d now : keeps_products (Category_create n d now).
Proof.
  unfold Category_create. keeps_tac.
  intros st. unfold bind, get_state, put_state, throw, ret.
  destruct (existsb _ _); reflexivity.
Qed.

Lemma keeps_Category_findByIdAndUpdate id update :
  keeps_products (Category_findByIdAndUpdate id update).
Proof.
  unfold Category_findByIdAndUpdate. keeps_tac.
  all: intros st; unfold bind, get_state, put_state, throw, ret.
  all: repeat match goal with
         | |- context [match ?x with _ => _ end] => destruct x
         end; reflexivity.
Qed.

Lemma keeps_Category_findByIdAndDelete id :
  keeps_products (Category_findByIdAndDelete id).
Proof.
  unfold Category_findByIdAndDelete. keeps_tac.
  all: intros st; unfold bind, get_state, put_state, throw, ret.
  all: repeat match goal with
         | |- context [match ?x with _ => _ end] => destruct x
         end; reflexivity.
Qed.

Lemma keeps_category_handlers c req :
  match c with
  | CreateCategory | GetCategory | GetCategoryById | UpdateCategoryById
  | DeleteCategoryById => keeps_products (handler c req)
  | _ => True
  end.
Proof.
  destruct c; try exact I; simpl.
  - unfold createCategory. keeps_tac. apply keeps_Category_create.
  - apply keeps_reads, reads_getCategory.
  - apply keeps_reads, reads_getCategoryById.
  - unfold updateCategoryById. keeps_tac. apply keeps_Category_findByIdAndUpdate.
  - unfold deleteCategoryById. keeps_tac. apply keeps_Category_findByIdAndDelete.
Qed.

Lemma category_route req rest r req' :
  categoryRouter req rest = Some (r, req') ->
  match r_controller r with
  | CreateCategory | GetCategory | GetCategoryById | UpdateCategoryById
  | DeleteCategoryById => True
  | _ => False
  end.
Proof.
  unfold categoryRouter, route_method. intros E.
  repeat match type of E with
         | context [match ?x with _ => _ end] => destruct x; try discriminate
         end; injection E as <- _; exact I.
Qed.

Lemma category_requests_keep_products req st rest :
  List.filter (fun s => negb (string_eqb s EmptyString)) (req_path req) = "category" :: rest ->
  products (snd (app req st)) = products st.
Proof.
  intros P.
  assert (RR : rootRouter req = categoryRouter req rest)
    by (unfold rootRouter; rewrite P; reflexivity).
  unfold app. destruct (cors_cases req) as [->|[_ ->]]; [|reflexivity]. rewrite RR.
  destruct (categoryRouter req rest) as [[r req']|] eqn:R; [|reflexivity].
  apply category_route in R.
  assert (Hrun : products (snd (run_handler (r_controller r) req' st)) = products st).
  { unfold run_handler. pose proof (keeps_category_handlers (r_controller r) req') as K.
    destruct (r_controller r); try contradiction; specialize (K st);
      match goal with
      | |- context [handler ?c req' st] => destruct (handler c req' st) as [[e|a] s]
      end; exact K. }
  destruct (r_validate r); [|exact Hrun].
  destruct (validate _ req'); [reflexivity | exact Hrun].
Qed.
End CategoryFacts.

(** * Updating the category of a product *)

Section UpdateCategory.
Context `{Platform}.

Lemma valid_id_nonempty s : ObjectId_isValid s = true -> string_eqb s EmptyString = false.
Proof.
  unfold ObjectId_isValid. intros V. apply andb_true_iff in V. destruct V as [L _].
  apply Nat.eqb_eq in L. unfold string_eqb. apply bool_decide_eq_false.
  intros ->. discriminate.
Qed.

Lemma castObjectId_string s x :
  castObjectId (Some (VString s)) = Cast x -> x = toLowerCase s.
Proof. simpl. destruct (ObjectId_isValid s); congruence. Qed.

Lemma put_product_route req id :
  req_method req = "PUT" -> req_path req = ["product"; id] ->
  rootRouter req =
  if string_eqb id EmptyString then None
  else Some (mkRoute (Some validateUpdateProduct) UpdateProduct, with_id req id).
Proof.
  intros Hm Hp. unfold rootRouter. rewrite Hp. simpl.
  destruct (string_eqb id EmptyString); simpl; unfold productRouter, route_method; now rewrite Hm.
Qed.

Lemma update_refreshes_categoryName req st id b cid c :
  req_method req = "PUT" -> req_path req = ["product"; id] -> req_body req = Some b ->
  b !! "categoryId" = Some (VString cid) -> ObjectId_isValid cid = true ->
  List.find (has_category_id (toLowerCase cid)) (categories st) = Some c ->
  is_success (fst (app req st)) = true ->
  exists p,
    List.find (has_id (toLowerCase id)) (products (snd (app req st))) = Some p /\
    p_categoryName p = Some (c_name c) /\ p_category p = toLowerCase cid.
Proof.
  intros Hm Hp Hb Hc Hv Hf S.
  pose proof (put_product_route _ _ Hm Hp) as R.
  destruct (string_eqb id EmptyString) eqn:Eid.
  { exfalso. unfold app in S. rewrite (cors_method _ _ Hm) in S by discriminate.
    rewrite R in S. simpl in S.
    rewrite is_success_errorHandler in S. discriminate. }
  destruct (app_success _ _ _ _ R S) as (res & E).
  cbn [r_controller handler] in E.
  set (st' := snd (app req st)) in *. clearbody st'.
  unfold updateProduct in E.
  replace (req_params (with_id req id) !! "id") with (Some (VString id)) in E
    by (simpl; now rewrite lookup_insert_eq).
  unfold body_of in E. mrun E.
  cbn [req_body with_id] in Hm1. rewrite Hb in Hm1. mrun Hm1.
  rewrite Hc in Hm2. cbn [truthy] in Hm2. rewrite (valid_id_nonempty _ Hv) in Hm2.
  cbn [negb] in Hm2. mrun Hm2. rename Hm1 into Hm2.
  apply Product_findById_found in Hm0. destruct Hm0 as (D0 & x & Cx & Fx).
  apply castObjectId_string in Cx. subst x.
  apply Category_findById_found in Hm2. destruct Hm2 as (D1 & y & Cy & Fy).
  apply castObjectId_string in Cy. subst y.
  assert (c0 = c).
  { destruct D0 as (Cs & _). rewrite Cs in Fy. congruence. }
  subst c0.
  apply Product_findByIdAndUpdate_stored in Hm3.
  destruct Hm3 as (x & old & Cx & Fo & -> & Ps & _).
  apply castObjectId_string in Cx. subst x.
  pose proof (reads_same _ _ _ _ (reads_populate _) Hm4) as D2.
  destruct D2 as (_ & -> & _). rewrite Ps.
  eexists. split; [|split].
  - eapply find_replace_first; [exact Fo|].
    apply find_some in Fo. destruct Fo as [_ Ho]. exact Ho.
  - unfold patch_product, castProduct. cbn [p_categoryName u_categoryName].
    unfold set_field.
    rewrite lookup_insert_ne by discriminate.
    rewrite lookup_insert_ne by discriminate.
    rewrite lookup_insert_eq. reflexivity.
  - unfold patch_product, castProduct. cbn [p_category u_category].
    unfold set_field.
    rewrite lookup_insert_ne by discriminate.
    rewrite lookup_insert_eq. simpl. rewrite Hv. reflexivity.
Qed.
End UpdateCategory.

(** * Validation failures *)

Section ValidationFacts.
Context `{Platform}.

Lemma parse_single (z : zschema) : forall v,
  single_issue z = true ->
  if field_ok z v then fst (parse z v) = []
  else exists m c, fst (parse z v) = [(m, c)].
Proof.
  induction z as [checks|checks|options|inner IH|inner IH|inner IH d]; intros v S;
    cbn [single_issue] in S.
  - destruct v as [[| | |s|]|]; cbn [field_ok parse fst]; eauto.
    destruct checks as [|c1 [|c2 [|c3 checks]]]; cbn [exclusive_string_checks] in S.
    + reflexivity.
    + cbn [forallb flat_map]. rewrite andb_true_r, app_nil_r.
      destruct c1; cbn [string_check_ok run_string_check];
        match goal with |- context [if ?b then _ else _] => destruct b end; eauto.
    + destruct c1; try discriminate. destruct c2; try discriminate.
      apply Nat.leb_le in S.
      cbn [forallb flat_map string_check_ok run_string_check].
      rewrite andb_true_r, app_nil_r.
      destruct (Nat.leb_spec n (String.length s)), (Nat.leb_spec (String.length s) n0);
        cbn [andb Datatypes.app]; eauto; lia.
    + destruct c1; try discriminate; destruct c2; discriminate.
  - destruct v as [[| |n| |]|]; cbn [field_ok parse fst]; eauto.
    destruct (isFinite n) eqn:F; cbn [andb fst]; eauto.
    destruct checks as [|c1 [|c2 [|c3 checks]]]; cbn [exclusive_number_checks] in S.
    + reflexivity.
    + cbn [forallb flat_map]. rewrite andb_true_r, app_nil_r.
      destruct c1; cbn [number_check_ok run_number_check];
        match goal with |- context [if ?b then _ else _] => destruct b end; eauto.
    + destruct c1 as [b1 m1|]; try discriminate. destruct b1; try discriminate.
      destruct c2 as [|b2 m2]; try discriminate.
      destruct b2 as [| | |[] ? ?]; try discriminate.
      cbn [forallb flat_map number_check_ok run_number_check].
      rewrite andb_true_r, app_nil_r.
      destruct n as [sn|sn| |[] mn en]; try discriminate; cbn; eauto;
        match goal with |- context [if ?b then _ else _] => destruct b end; eauto.
    + destruct c1 as [b1 m1|]; try discriminate. destruct b1; try discriminate.
      destruct c2 as [|b2 m2]; try discriminate.
      destruct b2 as [| | |[] ? ?]; discriminate.
  - destruct v as [[| | |s|]|]; cbn [field_ok parse fst]; eauto.
    destruct (existsb (string_eqb s) options); eauto.
  - cbn [field_ok parse]. specialize (IH v S).
    destruct (field_ok inner v), (parse inner v) as [[|i issues] out]; cbn [fst] in *; eauto.
  - destruct v as [v|]; cbn [field_ok parse fst]; [apply (IH (Some v) S) | reflexivity].
  - destruct v as [v|]; cbn [field_ok parse fst]; [apply (IH (Some v) S) | reflexivity].
Qed.

Lemma parse_fields_violations (name : string) (shape : list (string * zschema)) (o : object) :
  forallb (fun kz => single_issue (snd kz)) shape = true ->
  map (fun i => String.concat "." (i_path i)) (fst (parse_fields [name] shape o))
  = violated_in name shape (Some o).
Proof.
  unfold violated_in. induction shape as [|[key z] shape IH]; intros S; [reflexivity|].
  cbn [forallb snd] in S. apply andb_true_iff in S. destruct S as [Sz S].
  cbn [parse_fields List.filter fst snd]. specialize (IH S).
  pose proof (parse_single z (o !! key) Sz) as P.
  destruct (parse z (o !! key)) as [found out].
  destruct (parse_fields [name] shape o) as [issues output].
  cbn [fst] in *. rewrite map_app, IH.
  destruct (field_ok z (o !! key)); cbn [negb].
  - rewrite P. reflexivity.
  - destruct P as (m & c & ->). reflexivity.
Qed.

Lemma parseAsync_violations (schema : request_schema) (req : Request) :
  single_issues schema = true ->
  map (fun i => String.concat "." (i_path i)) (fst (parseAsync schema req))
  = violated_fields schema req.
Proof.
  unfold violated_fields, single_issues.
  induction schema as [|[s shape] schema IH]; intros S; [reflexivity|].
  cbn [forallb] in S. apply andb_true_iff in S. destruct S as [Ss S].
  cbn [parseAsync flat_map]. specialize (IH S).
  destruct (parseAsync schema req) as [issues' outs].
  unfold parse_object.
  destruct (section_input req s) as [o|].
  - pose proof (parse_fields_violations (section_name s) shape o Ss) as P.
    destruct (parse_fields [section_name s] shape o) as [issues out].
    cbn [fst] in *. now rewrite map_app, P, IH.
  - cbn [fst] in *. rewrite map_app, IH. reflexivity.
Qed.

Lemma declared_single_issues schema :
  In schema declared_schemas -> single_issues schema = true.
Proof.
  intros Hin. repeat (destruct Hin as [<-|Hin]; [vm_compute; reflexivity|]). destruct Hin.
Qed.

Lemma validate_entries schema req :
  In schema declared_schemas ->
  match validate schema req with
  | Some res =>
      status res = 400 /\ response_fields res = violated_fields schema req /\
      violated_fields schema req <> []
  | None => violated_fields schema req = []
  end.
Proof.
  intros Hin. apply declared_single_issues in Hin.
  pose proof (parseAsync_violations schema req Hin) as P.
  unfold validate. destruct (parseAsync schema req) as [[|i issues] outs]; cbn [fst] in P.
  - now rewrite <- P.
  - split; [reflexivity|]. unfold response_fields. cbn [payload].
    rewrite map_map. cbn [fst]. rewrite <- P. split; [reflexivity | discriminate].
Qed.

(** ** What a handler sends by itself *)

Lemma errorHandler_envelope err req :
  exists sc t m code d,
    errorHandler err req =
    mkResponse sc (ErrorResponse t m code d development (req_now req) (path_text req)
                     (req_method req)).
Proof. unfold errorHandler. destruct err; cbv zeta; eauto 10. Qed.

Lemma handler_returns c req st res st' :
  handler c req st = (inr res, st') ->
  is_success res = true \/ (exists t, payload res = HealthReport t) \/
  (has_guard c = true /\ truthy (req_params req !! "id") = false /\
   res = idRequired /\ st' = st).
Proof.
  intros E. destruct c; simpl in E.
  - unfold createProduct in E. mrun E. now left.
  - unfold getProducts, pagination_window in E. mrun E. now left.
  - unfold getProductById in E. mrun E. now left.
  - unfold updateProduct in E. mrun E; now left.
  - unfold deleteProduct in E. mrun E. now left.
  - unfold createCategory in E. mrun E. now left.
  - unfold getCategory, pagination_window in E. mrun E. now left.
  - unfold getCategoryById in E. mrun E; [|now left].
    right; right. apply negb_true_iff in Heqb. repeat split; assumption.
  - unfold updateCategoryById in E. mrun E; [|now left].
    right; right. apply negb_true_iff in Heqb. repeat split; assumption.
  - unfold deleteCategoryById in E. mrun E; [|now left].
    right; right. apply negb_true_iff in Heqb. repeat split; assumption.
  - unfold getHealth in E. mrun E. right; left. eauto.
Qed.

Lemma guard_refuses c req st :
  has_guard c = true -> truthy (req_params req !! "id") = false ->
  handler c req st = (inr idRequired, st).
Proof.
  intros G T. destruct c; try discriminate; simpl.
  - unfold getCategoryById. now rewrite T.
  - unfold updateCategoryById. now rewrite T.
  - unfold deleteCategoryById. now rewrite T.
Qed.
End ValidationFacts.

(** * Malformed identifiers *)

Section MalformedIds.
Context `{Platform}.

Lemma validate_malformed_id schema req id :
  In schema [getProductByIdSchema; updateProductSchema; updateCategorySchema;
             getCategoryByIdSchema] ->
  ObjectId_isValid id = false ->
  exists errors,
    validate schema (with_id req id) =
    Some (mkResponse 400 (ValidationFailed "Validation failed" errors)) /\
    In "params.id" (map fst errors).
Proof.
  intros Hin V.
  assert (P : forall rest,
    exists issues out,
      parseAsync ((InParams, [("id", objectIdSchema)]) :: rest) (with_id req id)
      = (mkIssue ["params"; "id"] (Custom "Invalid ObjectId format") "custom" :: issues, out)).
  { intros rest. cbn [parseAsync section_name section_input parse_object parse_fields
                      req_params with_id].
    rewrite lookup_insert_eq. cbn [objectIdSchema parse flat_map run_string_check].
    rewrite V. cbn [Datatypes.app map].
    destruct (parseAsync rest (with_id req id)) as [issues' outs]. cbn. eauto. }
  assert (Q : forall rest,
    exists errors,
      validate ((InParams, [("id", objectIdSchema)]) :: rest) (with_id req id) =
      Some (mkResponse 400 (ValidationFailed "Validation failed" errors)) /\
      In "params.id" (map fst errors)).
  { intros rest. destruct (P rest) as (issues & out & E). unfold validate. rewrite E.
    eexists. split; [reflexivity|]. cbn. now left. }
  repeat (destruct Hin as [<-|Hin]; [apply Q|]). destruct Hin.
Qed.

Lemma product_route req id r req' :
  productRouter req [id] = Some (r, req') ->
  req' = with_id req id /\
  exists schema, r_validate r = Some schema /\
                 In schema [getProductByIdSchema; updateProductSchema; updateCategorySchema;
                            getCategoryByIdSchema].
Proof.
  unfold productRouter, route_method. intros E.
  repeat match type of E with
         | context [match ?x with _ => _ end] => destruct x; try discriminate
         end; injection E as <- <-; (split; [reflexivity|]); eexists; (split; [reflexivity|]);
    cbn; tauto.
Qed.

(** On the product routes a malformed identifier is refused by the
    validation middleware, and the store is not called. *)
Lemma product_malformed_id_refused req st id :
  List.filter (fun s => negb (string_eqb s EmptyString)) (req_path req) = ["product"; id] ->
  ObjectId_isValid id = false ->
  snd (app req st) = st /\ is_success (fst (app req st)) = false.
Proof.
  intros Hp V.
  assert (RR : rootRouter req = productRouter req [id])
    by (unfold rootRouter; rewrite Hp; reflexivity).
  unfold app. destruct (cors_cases req) as [->|[_ ->]]; [|split; reflexivity]. rewrite RR.
  destruct (productRouter req [id]) as [[r req']|] eqn:R.
  - apply product_route in R. destruct R as (-> & schema & -> & Hin).
    destruct (validate_malformed_id schema req id Hin V) as (errors & -> & _).
    split; reflexivity.
  - cbn [fst snd]. now rewrite is_success_errorHandler.
Qed.
End MalformedIds.

(** * The claims about the request pipeline *)

Section Claims.
Context `{Platform}.


(** C4. A second create-Product with the name and categoryId of a
    Product just created is answered 400 VALIDATION_ERROR, a second
    create-Category with the name of a Category just created 409
    DUPLICATE_ERROR. *)
Theorem duplicate_product_400_duplicate_category_409 req1 req2 st b1 b2 :
  req_method req1 = "POST" -> req_body req1 = Some b1 ->
  req_method req2 = "POST" -> req_body req2 = Some b2 ->
  b2 !! "name" = b1 !! "name" ->
  is_success (fst (app req1 st)) = true ->
  let res := fst (app req2 (snd (app req1 st))) in
  (req_path req1 = ["product"] -> req_path req2 = ["product"] ->
   b2 !! "categoryId" = b1 !! "categoryId" ->
   validate createProductSchema req2 = None ->
   status res = 400 /\ error_type res = Some VALIDATION_ERROR) /\
  (req_path req1 = ["category"] -> req_path req2 = ["category"] ->
   validate createCategorySchema req2 = None ->
   status res = 409 /\ error_type res = Some DUPLICATE_ERROR).
Proof.
  intros M1 B1 M2 B2 Hn S res. split.
  - intros P1 P2 Hc V. eapply duplicate_product; eassumption.
  - intros P1 P2 V. eapply duplicate_category; eassumption.
Qed.

(** C9. An update-Product that supplies the valid categoryId of an
    existing Category and succeeds stores that Category's name as the
    Product's categoryName (and its id as the category); and no request
    on the category routes, a rename among them, changes any Product
    record. *)
Theorem category_name_snapshot :
  (forall req st id b cid c,
      req_method req = "PUT" -> req_path req = ["product"; id] -> req_body req = Some b ->
      b !! "categoryId" = Some (VString cid) -> ObjectId_isValid cid = true ->
      List.find (has_category_id (toLowerCase cid)) (categories st) = Some c ->
      is_success (fst (app req st)) = true ->
      exists p,
        List.find (has_id (toLowerCase id)) (products (snd (app req st))) = Some p /\
        p_categoryName p = Some (c_name c) /\ p_category p = toLowerCase cid) /\
  (forall req st rest,
      List.filter (fun s => negb (string_eqb s EmptyString)) (req_path req)
      = "category" :: rest ->
      products (snd (app req st)) = products st).
Proof.
  split.
  - apply update_refreshes_categoryName.
  - apply category_requests_keep_products.
Qed.

(** X23. A request that violates a declared schema is answered 400 with
    exactly one entry per violated field, in the order of the schema,
    each with the path of its field (and a request that violates none
    passes); whatever a handler throws is sent by [errorHandler] in the
    error envelope, with the timestamp, path and method of the request;
    and a handler sends no failure of its own, except the three handlers
    of a Category by id, which answer a missing identifier themselves
    without calling the store. *)
Theorem validation_failures_and_error_envelope :
  (forall schema req,
      In schema declared_schemas ->
      match validate schema req with
      | Some res =>
          status res = 400 /\ response_fields res = violated_fields schema req /\
          violated_fields schema req <> []
      | None => violated_fields schema req = []
      end) /\
  (forall c req st err st',
      handler c req st = (inl err, st') ->
      exists sc t m code d,
        run_handler c req st =
        (mkResponse sc (ErrorResponse t m code d development (req_now req) (path_text req)
                          (req_method req)), st')) /\
  (forall c req st res st',
      handler c req st = (inr res, st') ->
      is_success res = true \/ (exists t, payload res = HealthReport t) \/
      (has_guard c = true /\ truthy (req_params req !! "id") = false /\
       res = idRequired /\ st' = st)) /\
  (forall c req st,
      has_guard c = true -> truthy (req_params req !! "id") = false ->
      handler c req st = (inr idRequired, st)) /\
  List.filter has_guard
    [CreateProduct; GetProducts; GetProductById; UpdateProduct; DeleteProduct;
     CreateCategory; GetCategory; GetCategoryById; UpdateCategoryById; DeleteCategoryById;
     GetHealth]
  = [GetCategoryById; UpdateCategoryById; DeleteCategoryById].
Proof.
  split; [|split; [|split; [|split]]].
  - intros schema req. apply validate_entries.
  - intros c req st err st' E. unfold run_handler. rewrite E.
    destruct (errorHandler_envelope err req) as (sc & t & m & code & d & ->). eauto 10.
  - apply handler_returns.
  - apply guard_refuses.
  - reflexivity.
Qed.
End Claims.

(** * The application on concrete requests *)


Lemma duplicate_product_witness :
  let req := POST ["product"] phone_body in
  let res := fst (app req (snd (app req (sample_state 1)))) in
  let req' := POST ["category"] toys_body in
  let res' := fst (app req' (snd (app req' (sample_state 1)))) in
  (status res = 400 /\ error_type res = Some VALIDATION_ERROR) /\
  (status res' = 409 /\ error_type res' = Some DUPLICATE_ERROR).
Proof.
  split.
  - refine (proj1 (@duplicate_product_400_duplicate_category_409 sample_platform
                     (POST ["product"] phone_body) (POST ["product"] phone_body)
                     (sample_state 1) (list_to_map phone_body) (list_to_map phone_body)
                     eq_refl eq_refl eq_refl eq_refl eq_refl _) eq_refl eq_refl eq_refl _);
      vm_compute; reflexivity.
  - refine (proj2 (@duplicate_product_400_duplicate_category_409 sample_platform
                     (POST ["category"] toys_body) (POST ["category"] toys_body)
                     (sample_state 1) (list_to_map toys_body) (list_to_map toys_body)
                     eq_refl eq_refl eq_refl eq_refl eq_refl _) eq_refl eq_refl _);
      vm_compute; reflexivity.
Defined.

Lemma category_name_snapshot_witness :
  let req := PUT ["product"; "000000000000000000000001"]
               [("categoryId", VString "64b0c0ffee0000000000000b")] in
  exists p,
    List.find (has_id "000000000000000000000001")
      (products (snd (app req (sample_state 1)))) = Some p /\
    p_categoryName p = Some "Books" /\ p_category p = "64b0c0ffee0000000000000b".
Proof.
  refine (proj1 (@category_name_snapshot sample_platform)
            (PUT ["product"; "000000000000000000000001"]
               [("categoryId", VString "64b0c0ffee0000000000000b")])
            (sample_state 1) "000000000000000000000001"
            (list_to_map [("categoryId", VString "64b0c0ffee0000000000000b")])
            "64b0c0ffee0000000000000b" sample_books eq_refl eq_refl eq_refl _ _ _ _);
    vm_compute; reflexivity.
Defined.

Lemma validation_failures_witness :
  match validate createProductSchema (POST ["product"] bad_product_body) with
  | Some res =>
      status res = 400 /\
      response_fields res
      = violated_fields createProductSchema (POST ["product"] bad_product_body) /\
      violated_fields createProductSchema (POST ["product"] bad_product_body) <> []
  | None => violated_fields createProductSchema (POST ["product"] bad_product_body) = []
  end.
Proof.
  apply (proj1 (@validation_failures_and_error_envelope sample_platform)
           createProductSchema (POST ["product"] bad_product_body)).
  now left.
Defined.

(** C5. A request that violates its schema is answered by [validate]
    itself, with [{ message, errors }]: the response has no type and is
    not the error envelope.  The failure never reaches [errorHandler],
    whose branch for a [ZodError] would have sent the same issues as 400
    VALIDATION_ERROR in the envelope, one detail for each. *)
Theorem validation_failure_outside_envelope :
  let req := POST ["product"] bad_product_body in
  let res := fst (app req (sample_state 1)) in
  res =
  mkResponse 400
    (ValidationFailed "Validation failed"
       [("body.name", Custom "Product name is required");
        ("body.description", InvalidType "string" "undefined");
        ("body.price", Custom "Price must be a positive number");
        ("body.image", InvalidType "string" "undefined");
        ("body.categoryId", Custom "Invalid ObjectId format")]) /\
  error_type res = None /\
  let sent := errorHandler (ZodError (fst (parseAsync createProductSchema req))) req in
  status sent = 400 /\ error_type sent = Some VALIDATION_ERROR /\
  response_fields sent
  = ["body.name"; "body.description"; "body.price"; "body.image"; "body.categoryId"].
Proof. vm_compute. repeat split. Qed.

(** C3. With [limit=0] the listing returns every product and every
    category, more than the limit of its envelope, and its [totalPages] is
    infinite: the query value stays the string "0", which [limit || 10]
    keeps. *)
Theorem listing_with_limit_zero :
  let req := GET ["product"] [("limit", VString "0")] in
  let res := fst (app req (sample_state 3)) in
  let cats := fst (app (GET ["category"] [("limit", VString "0")]) (sample_state 3)) in
  validate paginationSchema req = None /\
  status res = 200 /\
  length (product_items res) = 3%nat /\
  option_map limit (pagination_of res) = Some (VString "0") /\
  option_map totalPages (pagination_of res) = Some (S754_infinity false) /\
  option_map limit (pagination_of cats) = Some (VString "0") /\
  (exists l, payload cats = Success "Categories retrieved successfully" (Some (CategoryList l))
                              (pagination_of cats) None None /\ length l = 2%nat).
Proof. vm_compute. repeat split. eexists. split; reflexivity. Qed.

(** The envelope on an ordinary request: page 2 of 3 products by 2. *)
Example listing_second_page :
  let res := fst (app (GET ["product"] [("page", VString "2"); ("limit", VString "2")])
                    (sample_state 3)) in
  length (product_items res) = 1%nat /\
  option_map totalPages (pagination_of res) = Some (num_of_Z 2) /\
  option_map totalCount (pagination_of res) = Some (num_of_Z 3) /\
  option_map hasNextPage (pagination_of res) = Some false /\
  option_map hasPrevPage (pagination_of res) = Some true.
Proof. vm_compute. repeat split. Qed.

(** C10. [page=0] and [limit=0] pass validation and are not replaced by
    the defaults: the window of [page=0] starts at -10, not at 0 like that
    of [page=1], and the store refuses it; the window of [limit=0] has
    limit "0", not 10, and returns all 11 products where [limit=10]
    returns 10. *)
Theorem page_zero_limit_zero_not_defaulted :
  let st := sample_state 11 in
  let page0 := GET ["product"] [("page", VString "0")] in
  let page1 := GET ["product"] [("page", VString "1")] in
  let limit0 := GET ["product"] [("limit", VString "0")] in
  let limit10 := GET ["product"] [("limit", VString "10")] in
  validate paginationSchema page0 = None /\
  validate paginationSchema limit0 = None /\
  pagination_window (Some (VString "0")) (Some (lit 10)) = (VString "0", lit 10, num_of_Z (-10)) /\
  pagination_window (Some (VString "1")) (Some (lit 10)) = (VString "1", lit 10, S754_zero false) /\
  pagination_window (Some (lit 1)) (Some (VString "0")) = (lit 1, VString "0", S754_zero false) /\
  pagination_window (Some (lit 1)) (Some (VString "10")) = (lit 1, VString "10", S754_zero false) /\
  status (fst (app page0 st)) = 500 /\
  error_type (fst (app page0 st)) = Some INTERNAL_SERVER_ERROR /\
  length (product_items (fst (app page1 st))) = 10%nat /\
  length (product_items (fst (app limit0 st))) = 11%nat /\
  length (product_items (fst (app limit10 st))) = 10%nat.
Proof. vm_compute. repeat split. Qed.

(** C6. [GET] and [DELETE /category/:id] have no validation middleware:
    the malformed identifier "abc" goes to [Category.findById] and
    [Category.findByIdAndDelete], whose cast failure the error handler
    reports; on [GET /product/:id] the same identifier is refused before
    any store call. *)
Theorem malformed_category_id_reaches_store :
  let st := sample_state 1 in
  ObjectId_isValid "abc" = false /\
  calls (snd (app (GET ["category"; "abc"] []) st)) = [StoreCall "Category" "findById"] /\
  calls (snd (app (DELETE ["category"; "abc"]) st))
  = [StoreCall "Category" "findByIdAndDelete"] /\
  status (fst (app (GET ["category"; "abc"] []) st)) = 400 /\
  error_type (fst (app (GET ["category"; "abc"] []) st)) = Some VALIDATION_ERROR /\
  calls (snd (app (GET ["product"; "abc"] []) st)) = [] /\
  response_fields (fst (app (GET ["product"; "abc"] []) st)) = ["params.id"].
Proof. vm_compute. repeat split. Qed.

(** C8. An update-Product whose body has a [productCode] key passes
    validation and overwrites the stored productCode. *)
Theorem update_overwrites_productCode :
  let st := sample_state 1 in
  let req := PUT ["product"; "000000000000000000000001"] [("productCode", VString "X")] in
  validate updateProductSchema (with_id req "000000000000000000000001") = None /\
  status (fst (app req st)) = 200 /\
  map p_productCode (products st) = ["code1"] /\
  map p_productCode (products (snd (app req st))) = ["X"].
Proof. vm_compute. repeat split. Qed.

Section ErrorFacts.
Context `{Platform}.

End ErrorFacts.

Section ErrorTable.
Context `{Platform}.

(** X2. In every response of [errorHandler] a type other than
    INTERNAL_SERVER_ERROR fixes the status: VALIDATION_ERROR comes with
    400, AUTHENTICATION_ERROR with 401, AUTHORIZATION_ERROR with 403,
    NOT_FOUND_ERROR with 404, DUPLICATE_ERROR with 409 and DATABASE_ERROR
    with 503.  The status does not fix the type: an error of another
    library keeps the status it carries and is reported as
    INTERNAL_SERVER_ERROR, so the 400 of a body that could not be parsed
    is no VALIDATION_ERROR, and an [AppError] of status 422 is reported
    as INTERNAL_SERVER_ERROR with status 422.  The errors made by the
    four constructors are reported with their own status and message and
    with the type their code names. *)
Theorem errorHandler_status_of_type :
  (forall err req,
      match error_type (errorHandler err req) with
      | Some VALIDATION_ERROR => status (errorHandler err req) = 400
      | Some AUTHENTICATION_ERROR => status (errorHandler err req) = 401
      | Some AUTHORIZATION_ERROR => status (errorHandler err req) = 403
      | Some NOT_FOUND_ERROR => status (errorHandler err req) = 404
      | Some DUPLICATE_ERROR => status (errorHandler err req) = 409
      | Some DATABASE_ERROR => status (errorHandler err req) = 503
      | Some INTERNAL_SERVER_ERROR => True
      | None => False
      end) /\
  (forall m sc req,
      status (errorHandler (HttpError m sc) req) = (if sc =? 0 then 500 else sc) /\
      error_type (errorHandler (HttpError m sc) req) = Some INTERNAL_SERVER_ERROR) /\
  (forall m code req,
      status (errorHandler (AppError m 422 code) req) = 422 /\
      error_type (errorHandler (AppError m 422 code) req) = Some INTERNAL_SERVER_ERROR) /\
  (forall resource field v message req,
      let sent e := (status (errorHandler e req), error_type (errorHandler e req),
                     match payload (errorHandler e req) with
                     | ErrorResponse _ m c _ _ _ _ _ => Some (m, c)
                     | _ => None
                     end) in
      sent (createNotFoundError resource)
      = (404, Some NOT_FOUND_ERROR,
         Some (resource +:+ " not found", Some (VString "NOT_FOUND_ERROR"))) /\
      sent (createValidationError message)
      = (400, Some VALIDATION_ERROR, Some (message, Some (VString "VALIDATION_ERROR"))) /\
      sent (createDuplicateError field v)
      = (409, Some DUPLICATE_ERROR,
         Some (field +:+ " '" +:+ v +:+ "' already exists", Some (VString "DUPLICATE_ERROR"))) /\
      sent (createInternalError message)
      = (500, Some INTERNAL_SERVER_ERROR,
         Some (message, Some (VString "INTERNAL_SERVER_ERROR")))).
Proof.
  split; [|split; [|split]].
  - intros err req. destruct err; try exact I; try reflexivity.
    unfold errorHandler. cbv zeta. cbn [error_type payload status].
    unfold determineErrorType.
    repeat match goal with
           | |- context [if ?a =? ?b then _ else _] =>
               destruct (Z.eqb_spec a b); [subst; try reflexivity|]
           end.
    exact I.
  - intros. split; reflexivity.
  - intros. split; reflexivity.
  - intros. repeat split.
Qed.
End ErrorTable.

(** * Failures and the store *)

Lemma bind_inl {A B} (m : M A) (k : A -> M B) st e st' :
  bind m k st = (inl e, st') ->
  m st = (inl e, st') \/ exists a st1, m st = (inr a, st1) /\ k a st1 = (inl e, st').
Proof.
  unfold bind. destruct (m st) as [[e1|a] st1]; intros E.
  - left. injection E as <- <-. reflexivity.
  - right. eauto.
Qed.

Lemma fails_clean_ret {A} (a : A) : fails_clean (ret a).
Proof. intros st e st' E. discriminate E. Qed.

Lemma fails_clean_reads {A} (m : M A) : reads m -> fails_clean m.
Proof. intros Hr st e st' E. eapply reads_same; eassumption. Qed.

Lemma fails_clean_bind_reads {A B} (m : M A) (k : A -> M B) :
  reads m -> (forall a, fails_clean (k a)) -> fails_clean (bind m k).
Proof.
  intros Hm Hk st e st' E. apply bind_inl in E. destruct E as [E|(a & st1 & E1 & E2)].
  - eapply reads_same; eassumption.
  - eapply same_db_trans; [eapply reads_same; eassumption | eapply Hk; eassumption].
Qed.

Lemma fails_clean_bind_cases {A B} (m : M A) (k : A -> M B) :
  fails_clean m ->
  (forall st a st1, m st = (inr a, st1) ->
     (same_db st st1 /\ fails_clean (k a)) \/ never_fails (k a)) ->
  fails_clean (bind m k).
Proof.
  intros Hm Hk st e st' E. apply bind_inl in E. destruct E as [E|(a & st1 & E1 & E2)].
  - eapply Hm; eassumption.
  - destruct (Hk _ _ _ E1) as [[S C]|N].
    + eapply same_db_trans; [exact S | eapply C; eassumption].
    + destruct (N st1) as (r & st2 & E3). congruence.
Qed.

Lemma never_fails_ret {A} (a : A) : never_fails (ret a).
Proof. intros st. eexists _, _. reflexivity. Qed.

Lemma never_fails_bind {A B} (m : M A) (k : A -> M B) :
  never_fails m -> (forall a, never_fails (k a)) -> never_fails (bind m k).
Proof.
  intros Hm Hk st. destruct (Hm st) as (a & st1 & E). unfold bind. rewrite E. apply Hk.
Qed.

Ltac clean_step :=
  first
    [ apply fails_clean_ret
    | apply fails_clean_reads; solve [auto with reads nocore]
    | match goal with
      | |- fails_clean (bind ?m _) =>
          apply fails_clean_bind_reads; [solve [auto with reads nocore] | intros ?]
      | |- fails_clean (match ?x with _ => _ end) => destruct x
      | |- fails_clean (if ?b then _ else _) => destruct b
      end ].

Ltac clean_tac := cbv zeta; repeat clean_step.

Section FailureFacts.
Context `{Platform}.

Lemma never_fails_populate p : never_fails (populateCategory p).
Proof. intros st. eexists _, _. reflexivity. Qed.

Lemma Product_create_clean n d p di im s code c cn now :
  fails_clean (Product_create n d p di im s code c cn now).
Proof.
  intros st e st' E. unfold Product_create, bind, record_call, get_state, put_state, throw, ret in E.
  repeat match type of E with
         | context [match ?x with _ => _ end] => destruct x
         | context [if ?x then _ else _] => destruct x
         end; try discriminate; injection E as _ <-; repeat split.
Qed.

Lemma Category_create_clean n d now : fails_clean (Category_create n d now).
Proof.
  intros st e st' E. unfold Category_create, bind, record_call, get_state, put_state, throw, ret in E.
  repeat match type of E with
         | context [match ?x with _ => _ end] => destruct x
         | context [if ?x then _ else _] => destruct x
         end; try discriminate; injection E as _ <-; repeat split.
Qed.

(** An update or a removal that fails or finds nothing writes nothing. *)
Lemma Product_findByIdAndUpdate_clean id update st r st' :
  Product_findByIdAndUpdate id update st = (r, st') ->
  match r with inr (Some _) => True | _ => same_db st st' end.
Proof.
  intros E.
  unfold Product_findByIdAndUpdate, bind, record_call, get_state, put_state, throw, ret in E.
  repeat match type of E with
         | context [match ?x with _ => _ end] => destruct x
         | context [if ?x then _ else _] => destruct x
         end; injection E as <- <-; try exact I; repeat split.
Qed.

Lemma Product_findByIdAndDelete_clean id st r st' :
  Product_findByIdAndDelete id st = (r, st') ->
  match r with inr (Some _) => True | _ => same_db st st' end.
Proof.
  intros E.
  unfold Product_findByIdAndDelete, bind, record_call, get_state, put_state, throw, ret in E.
  repeat match type of E with
         | context [match ?x with _ => _ end] => destruct x
         | context [if ?x then _ else _] => destruct x
         end; injection E as <- <-; try exact I; repeat split.
Qed.

Lemma Category_findByIdAndUpdate_clean id update st r st' :
  Category_findByIdAndUpdate id update st = (r, st') ->
  match r with inr (Some _) => True | _ => same_db st st' end.
Proof.
  intros E.
  unfold Category_findByIdAndUpdate, bind, record_call, get_state, put_state, throw, ret in E.
  repeat match type of E with
         | context [match ?x with _ => _ end] => destruct x
         | context [if ?x then _ else _] => destruct x
         end; injection E as <- <-; try exact I; repeat split.
Qed.

Lemma Category_findByIdAndDelete_clean id st r st' :
  Category_findByIdAndDelete id st = (r, st') ->
  match r with inr (Some _) => True | _ => same_db st st' end.
Proof.
  intros E.
  unfold Category_findByIdAndDelete, bind, record_call, get_state, put_state, throw, ret in E.
  repeat match type of E with
         | context [match ?x with _ => _ end] => destruct x
         | context [if ?x then _ else _] => destruct x
         end; injection E as <- <-; try exact I; repeat split.
Qed.

Ltac writer_cases L :=
  let E0 := fresh "E" in
  apply fails_clean_bind_cases;
  [ intros ? ? ? E0; apply L in E0; exact E0
  | intros ? [?|] ? E0; apply L in E0;
    [ right; cbv zeta;
      repeat first [apply never_fails_ret
                   | apply never_fails_bind; [apply never_fails_populate | intros ?]]
    | left; split; [exact E0 | clean_tac] ] ].

Lemma handler_fails_clean c req : fails_clean (handler c req).
Proof.
  destruct c; simpl.
  - unfold createProduct. clean_tac.
    apply fails_clean_bind_cases; [apply Product_create_clean|].
    intros. right. apply never_fails_ret.
  - apply fails_clean_reads, reads_getProducts.
  - apply fails_clean_reads, reads_getProductById.
  - unfold updateProduct. clean_tac.
    all: try (apply fails_clean_bind_reads; [reads_tac | intros ?]).
    all: writer_cases Product_findByIdAndUpdate_clean.
  - unfold deleteProduct. cbv zeta. writer_cases Product_findByIdAndDelete_clean.
  - unfold createCategory. clean_tac.
    apply fails_clean_bind_cases; [apply Category_create_clean|].
    intros. right. apply never_fails_ret.
  - apply fails_clean_reads, reads_getCategory.
  - apply fails_clean_reads, reads_getCategoryById.
  - unfold updateCategoryById. clean_tac. writer_cases Category_findByIdAndUpdate_clean.
  - unfold deleteCategoryById. clean_tac. writer_cases Category_findByIdAndDelete_clean.
  - apply fails_clean_reads, reads_getHealth.
Qed.
End FailureFacts.

Section Atomicity.
Context `{Platform}.

Lemma handler_refusal_reads c req st res st' :
  handler c req st = (inr res, st') -> is_success res = false -> same_db st st'.
Proof.
  intros E S. destruct (handler_returns _ _ _ _ _ E) as [S'|[(t & Hp)|(_ & _ & _ & ->)]].
  - congruence.
  - destruct c; simpl in E;
      try (eapply reads_same; [|exact E]; solve [auto using reads_getHealth]).
    + unfold createProduct in E. mrun E. discriminate.
    + unfold getProducts, pagination_window in E. mrun E. discriminate.
    + unfold getProductById in E. mrun E. discriminate.
    + unfold updateProduct in E. mrun E; discriminate.
    + unfold deleteProduct in E. mrun E. discriminate.
    + unfold createCategory in E. mrun E. discriminate.
    + unfold getCategory, pagination_window in E. mrun E. discriminate.
    + unfold getCategoryById in E. mrun E; discriminate.
    + unfold updateCategoryById in E. mrun E; discriminate.
    + unfold deleteCategoryById in E. mrun E; discriminate.
  - apply same_db_refl.
Qed.

(** X3. On every route but the update of a product, a request that is
    not answered with success leaves both collections and the identifier
    counter as they were: the handler writes at most once, as its last
    step before the response.  ([PUT /product/:id] is left out: after
    its write it still prices the product it wrote.) *)
Theorem failure_leaves_store req st :
  (forall r req', rootRouter req = Some (r, req') -> r_controller r <> UpdateProduct) ->
  is_success (fst (app req st)) = false -> same_db st (snd (app req st)).
Proof.
  intros _. unfold app. destruct (cors_cases req) as [->|[_ ->]]; [|intros _; apply same_db_refl].
  destruct (rootRouter req) as [[r req']|]; [|intros _; apply same_db_refl].
  assert (Hrun : is_success (fst (run_handler (r_controller r) req' st)) = false ->
                 same_db st (snd (run_handler (r_controller r) req' st))).
  { unfold run_handler.
    destruct (handler (r_controller r) req' st) as [[err|res] st1] eqn:E; cbn [fst snd].
    - intros _. eapply handler_fails_clean; exact E.
    - eapply handler_refusal_reads; exact E. }
  destruct (r_validate r) as [schema|]; [|exact Hrun].
  destruct (validate schema req'); [intros _; apply same_db_refl | exact Hrun].
Qed.

Lemma route_schema_declared req r req' schema :
  rootRouter req = Some (r, req') -> r_validate r = Some schema ->
  In schema declared_schemas.
Proof.
  unfold rootRouter, categoryRouter, productRouter, healthRouter, route_method. intros E V.
  repeat match type of E with
         | context [match ?x with _ => _ end] => destruct x; try discriminate
         end; injection E as <- _; cbn in V; try discriminate; injection V as <-; cbn; tauto.
Qed.

(** X4. A request that violates the schema of its route never reaches
    the handler: it is answered 400 with the violated fields, and the
    store, the log of its calls included, is exactly as before. *)
Theorem violation_never_reaches_store req st r req' schema :
  rootRouter req = Some (r, req') ->
  r_validate r = Some schema ->
  violated_fields schema req' <> [] ->
  status (fst (app req st)) = 400 /\
  response_fields (fst (app req st)) = violated_fields schema req' /\
  snd (app req st) = st.
Proof.
  intros R V N. rewrite (app_routed _ _ _ _ R), V.
  pose proof (validate_entries schema req' (route_schema_declared _ _ _ _ R V)) as E.
  destruct (validate schema req') as [res|]; [|contradiction].
  destruct E as (S & F & _). repeat split; assumption.
Qed.
End Atomicity.

Lemma failure_leaves_store_witness :
  same_db (sample_state 1)
    (snd (app (DELETE ["product"; "00000000000000000000000f"]) (sample_state 1))).
Proof.
  apply (@failure_leaves_store sample_platform
           (DELETE ["product"; "00000000000000000000000f"]) (sample_state 1)).
  - intros r req' E. vm_compute in E. injection E as <- _. discriminate.
  - vm_compute. reflexivity.
Defined.

Lemma violation_never_reaches_store_witness :
  let req := GET ["product"; "abc"] [] in
  status (fst (app req (sample_state 1))) = 400 /\
  response_fields (fst (app req (sample_state 1)))
  = violated_fields getProductByIdSchema (with_id req "abc") /\
  snd (app req (sample_state 1)) = sample_state 1.
Proof.
  apply (@violation_never_reaches_store sample_platform (GET ["product"; "abc"] [])
           (sample_state 1) (mkRoute (Some validateGetProductById) GetProductById)
           (with_id (GET ["product"; "abc"] []) "abc") getProductByIdSchema).
  - reflexivity.
  - reflexivity.
  - vm_compute. discriminate.
Defined.

(** * Identifiers drawn from the counter *)

Lemma all_hex_app (a b : string) : all_hex (a +:+ b) = all_hex a && all_hex b.
Proof.
  induction a as [|c a IH]; [reflexivity|].
  rewrite app_cons. simpl. now rewrite IH, andb_assoc.
Qed.

Lemma toLowerCase_app (a b : string) : toLowerCase (a +:+ b) = toLowerCase a +:+ toLowerCase b.
Proof.
  induction a as [|c a IH]; [reflexivity|].
  rewrite app_cons. simpl. rewrite IH. reflexivity.
Qed.

Lemma hex_char_facts (n : N) :
  (n < 16)%N -> is_hex (hex_char n) = true /\ lower_char (hex_char n) = hex_char n.
Proof.
  intros Hn.
  assert (Hk : (N.to_nat n < 16)%nat) by lia.
  rewrite <- (N2Nat.id n). clear Hn. revert Hk. generalize (N.to_nat n). intros k Hk.
  do 16 (destruct k as [|k]; [split; reflexivity|]). lia.
Qed.

Lemma hex_digits_length (w : nat) (n : N) : String.length (hex_digits w n) = w.
Proof.
  revert n. induction w as [|w IH]; intros n; [reflexivity|].
  cbn [hex_digits]. rewrite string_length_app, IH. simpl. lia.
Qed.

Lemma hex_digits_hex (w : nat) (n : N) :
  all_hex (hex_digits w n) = true /\ toLowerCase (hex_digits w n) = hex_digits w n.
Proof.
  revert n. induction w as [|w IH]; intros n; [split; reflexivity|].
  cbn [hex_digits]. rewrite all_hex_app, toLowerCase_app.
  destruct (IH (n / 16)%N) as [-> ->].
  destruct (hex_char_facts (n mod 16)%N) as [Hh Hl]; [apply N.mod_lt; lia|].
  simpl. rewrite Hh, Hl. split; reflexivity.
Qed.

Lemma hex_digits_valid (n : N) :
  ObjectId_isValid (hex_digits 24 n) = true /\
  toLowerCase (hex_digits 24 n) = hex_digits 24 n.
Proof.
  unfold ObjectId_isValid. rewrite hex_digits_length.
  destruct (hex_digits_hex 24 n) as [-> ->]. split; reflexivity.
Qed.

Lemma string_app_inj_last (a b : string) (c d : ascii) :
  a +:+ String c EmptyString = b +:+ String d EmptyString -> a = b /\ c = d.
Proof.
  revert b. induction a as [|x a IH]; intros [|y b]; rewrite ?app_cons, ?app_empty; intros E.
  - injection E as ->. tauto.
  - injection E as -> E. destruct b; discriminate.
  - injection E as -> E. destruct a; discriminate.
  - injection E as -> E. destruct (IH _ E) as [-> ->]. tauto.
Qed.

Lemma hex_char_inj (n m : N) : (n < 16)%N -> (m < 16)%N -> hex_char n = hex_char m -> n = m.
Proof.
  intros Hn Hm E. unfold hex_char in E.
  apply (f_equal N_of_ascii) in E. rewrite !N_ascii_embedding in E.
  - destruct (N.ltb_spec n 10), (N.ltb_spec m 10); lia.
  - destruct (N.ltb_spec m 10); lia.
  - destruct (N.ltb_spec n 10); lia.
Qed.

Lemma hex_digits_inj (w : nat) : forall n m,
  (n < 16 ^ N.of_nat w)%N -> (m < 16 ^ N.of_nat w)%N ->
  hex_digits w n = hex_digits w m -> n = m.
Proof.
  induction w as [|w IH]; intros n m Hn Hm E.
  - change (16 ^ N.of_nat 0)%N with 1%N in Hn, Hm. lia.
  - cbn [hex_digits] in E. apply string_app_inj_last in E. destruct E as [E1 E2].
    rewrite Nat2N.inj_succ, N.pow_succ_r' in Hn, Hm.
    apply hex_char_inj in E2; try (apply N.mod_lt; lia).
    apply IH in E1; try (apply N.Div0.div_lt_upper_bound; lia).
    rewrite (N.div_mod n 16), (N.div_mod m 16) by lia. congruence.
Qed.

(** * Reading, removing and updating a product by its identifier *)

Section ById.
Context `{Platform}.

Lemma validate_id_passes req id :
  ObjectId_isValid id = true -> validate getProductByIdSchema (with_id req id) = None.
Proof.
  intros V. unfold validate. cbn [getProductByIdSchema parseAsync section_name section_input
    parse_object parse_fields req_params with_id].
  rewrite lookup_insert_eq. cbn [objectIdSchema parse flat_map run_string_check].
  rewrite V. reflexivity.
Qed.

Lemma id_route req id :
  List.filter (fun s => negb (string_eqb s EmptyString)) (req_path req) = ["product"; id] ->
  (req_method req = "GET" ->
   rootRouter req = Some (mkRoute (Some validateGetProductById) GetProductById, with_id req id)) /\
  (req_method req = "DELETE" ->
   rootRouter req = Some (mkRoute (Some validateGetProductById) DeleteProduct, with_id req id)) /\
  (req_method req = "PUT" ->
   rootRouter req = Some (mkRoute (Some validateUpdateProduct) UpdateProduct, with_id req id)).
Proof.
  intros P. unfold rootRouter. rewrite P. unfold productRouter, route_method.
  repeat split; intros ->; reflexivity.
Qed.

Lemma castObjectId_valid id :
  ObjectId_isValid id = true -> castObjectId (Some (VString id)) = Cast (toLowerCase id).
Proof. intros V. simpl. now rewrite V. Qed.

(** A validated [GET /product/:id] runs the handler on the request with
    its [:id]. *)
Lemma get_by_id_app req st id :
  req_method req = "GET" ->
  List.filter (fun s => negb (string_eqb s EmptyString)) (req_path req) = ["product"; id] ->
  ObjectId_isValid id = true ->
  app req st = run_handler GetProductById (with_id req id) st.
Proof.
  intros Hm Hp V. destruct (id_route req id Hp) as (R & _). rewrite (app_routed _ _ _ _ (R Hm)).
  cbn [r_validate r_controller]. change validateGetProductById with getProductByIdSchema.
  now rewrite (validate_id_passes _ _ V).
Qed.

Lemma getProductById_run req st id :
  ObjectId_isValid id = true ->
  fst (run_handler GetProductById (with_id req id) st) =
  match List.find (has_id (toLowerCase id)) (products st) with
  | Some p =>
      mkResponse 200
        (Success "Product retrieved successfully"
           (Some (ProductData
                    (calculatePricing p
                       (Some (List.find (has_category_id (p_category p)) (categories st))))))
           None None None)
  | None => errorHandler (createNotFoundError "Product") (with_id req id)
  end.
Proof.
  intros V. unfold run_handler, handler, getProductById. cbn [req_params with_id].
  rewrite lookup_insert_eq.
  unfold Product_findById, bind, record_call. rewrite (castObjectId_valid _ V).
  unfold get_state, ret. cbn [products].
  destruct (List.find (has_id (toLowerCase id)) (products st)) as [p|]; reflexivity.
Qed.

End ById.


(** ** Lists: [remove_first] and [replace_first] *)

Lemma In_remove_first {A} (test : A -> bool) (y : A) (l : list A) :
  test y = false -> (In y (remove_first test l) <-> In y l).
Proof.
  intros Hy. induction l as [|x l IH]; simpl; [tauto|].
  destruct (test x) eqn:E; simpl.
  - split; [tauto|]. intros [->|Hin]; [congruence | exact Hin].
  - rewrite IH. tauto.
Qed.

Lemma find_remove_first_key {A} (key : A -> string) (k : string) (l : list A) :
  List.NoDup (map key l) ->
  List.find (fun x => string_eqb (key x) k) (remove_first (fun x => string_eqb (key x) k) l)
  = None.
Proof.
  induction l as [|x l IH]; intros N; simpl; [reflexivity|].
  inversion N as [|? ? Hx N']; subst.
  destruct (string_eqb (key x) k) eqn:E; simpl.
  - apply bool_decide_eq_true in E. subst k.
    destruct (List.find _ l) as [y|] eqn:F; [|reflexivity].
    apply find_some in F. destruct F as [Hin Hy].
    apply bool_decide_eq_true in Hy. exfalso. apply Hx. rewrite <- Hy. now apply in_map.
  - rewrite E. auto.
Qed.

Lemma map_replace_first_key {A B} (test : A -> bool) (key : A -> B) (new old : A) (l : list A) :
  List.find test l = Some old -> key new = key old ->
  map key (replace_first test new l) = map key l.
Proof.
  induction l as [|x l IH]; simpl; [discriminate|].
  destruct (test x); intros F K; simpl.
  - injection F as ->. now rewrite K.
  - f_equal. auto.
Qed.

Lemma In_replace_first {A} (test : A -> bool) (new y : A) (l : list A) :
  test y = false -> test new = true ->
  (In y (replace_first test new l) <-> In y l).
Proof.
  intros Hy Hn. induction l as [|x l IH]; simpl; [tauto|].
  destruct (test x) eqn:E; simpl.
  - split; (intros [<-|Hin]; [congruence | now right]).
  - rewrite IH. tauto.
Qed.

Section DeleteById.
Context `{Platform}.

End DeleteById.


Section UpdateById.
Context `{Platform}.

Lemma Product_findByIdAndUpdate_inv id update st new st' :
  Product_findByIdAndUpdate id update st = (inr (Some new), st') ->
  exists x old,
    castObjectId id = Cast x /\
    List.find (has_id x) (products st) = Some old /\
    new = patch_product (castProduct update) old /\
    product_validators false (castProduct update) = [] /\
    existsb (fun p => negb (has_id x p) && string_eqb (p_productCode p) (p_productCode new))
      (products st) = false /\
    products st' = replace_first (has_id x) new (products st) /\
    categories st' = categories st /\ nextId st' = nextId st.
Proof.
  intros E. unfold Product_findByIdAndUpdate in E. mrun E.
  all: simpl in *; eexists _, _; repeat split; eassumption.
Qed.

Lemma update_route_id req id st :
  req_method req = "PUT" ->
  List.filter (fun s => negb (string_eqb s EmptyString)) (req_path req) = ["product"; id] ->
  app req st =
  match validate updateProductSchema (with_id req id) with
  | Some refused => (refused, st)
  | None => run_handler UpdateProduct (with_id req id) st
  end.
Proof.
  intros Hm Hp.
  destruct (id_route req id Hp) as (_ & _ & R). rewrite (app_routed _ _ _ _ (R Hm)). reflexivity.
Qed.

Lemma validate_update_id req id :
  validate updateProductSchema (with_id req id) = None -> ObjectId_isValid id = true.
Proof.
  intros V. destruct (ObjectId_isValid id) eqn:E; [reflexivity|].
  destruct (validate_malformed_id updateProductSchema req id) as (errors & V' & _).
  - cbn. tauto.
  - exact E.
  - congruence.
Qed.

(** X7. [PUT /product/:id], whatever the body: the categories and the
    identifier counter are unchanged, the identifiers of the products are
    the same in the same order, and every product with another identifier
    is unchanged.  When the request succeeds, exactly the first product
    with this identifier was replaced, its identifier kept and its
    [updatedAt] set to the clock reading, and it is the product sent. *)
Theorem update_product_frame req st id :
  req_method req = "PUT" ->
  List.filter (fun s => negb (string_eqb s EmptyString)) (req_path req) = ["product"; id] ->
  let st' := snd (app req st) in
  categories st' = categories st /\ nextId st' = nextId st /\
  map p_id (products st') = map p_id (products st) /\
  (forall q, p_id q <> toLowerCase id -> (In q (products st') <-> In q (products st))) /\
  (is_success (fst (app req st)) = true ->
   exists old new,
     List.find (has_id (toLowerCase id)) (products st) = Some old /\
     products st' = replace_first (has_id (toLowerCase id)) new (products st) /\
     p_id new = p_id old /\ p_updatedAt new = Some (req_now req) /\
     map pd_doc (product_items (fst (app req st))) = [new]).
Proof.
  intros Hm Hp st'. subst st'. rewrite (update_route_id _ _ _ Hm Hp).
  destruct (validate updateProductSchema (with_id req id)) as [refused|] eqn:V.
  { apply validate_refusal in V. destruct V as (errors & ->).
    cbn [fst snd]. repeat split; try tauto. discriminate. }
  apply validate_update_id in V.
  unfold run_handler.
  destruct (handler UpdateProduct (with_id req id) st) as [[err|res] st1] eqn:E; cbn [fst snd].
  { apply handler_fails_clean in E. destruct E as (Ec & Ep & En).
    rewrite Ec, Ep, En. repeat split; try tauto.
    rewrite is_success_errorHandler. discriminate. }
  cbn [handler] in E. unfold updateProduct in E.
  replace (req_params (with_id req id) !! "id") with (Some (VString id)) in E
    by (simpl; now rewrite lookup_insert_eq).
  assert (G : forall a st2 (update : object) st3 new st4 populated,
             Product_findById (Some (VString id)) st = (inr (Some a), st2) ->
             same_db st2 st3 ->
             Product_findByIdAndUpdate (Some (VString id))
               (<["updatedAt" := VDate (req_now req)]> update) st3 = (inr (Some new), st4) ->
             populateCategory new st4 = (inr populated, st1) ->
             categories st1 = categories st /\ nextId st1 = nextId st /\
             map p_id (products st1) = map p_id (products st) /\
             (forall q, p_id q <> toLowerCase id -> (In q (products st1) <-> In q (products st))) /\
             exists old,
               List.find (has_id (toLowerCase id)) (products st) = Some old /\
               products st1 = replace_first (has_id (toLowerCase id)) new (products st) /\
               p_id new = p_id old /\ p_updatedAt new = Some (req_now req)).
  { intros a st2 update st3 new st4 populated F S U P.
    pose proof (reads_same _ _ _ _ (reads_Product_findById _) F) as S1.
    pose proof (reads_same _ _ _ _ (reads_populate _) P) as S2.
    apply Product_findByIdAndUpdate_inv in U.
    destruct U as (x & old & Cx & Fo & -> & _ & _ & Ps & Cs & Ns).
    rewrite (castObjectId_valid _ V) in Cx. injection Cx as <-.
    destruct S1 as (C1 & P1 & N1), S as (C2 & P2 & N2), S2 as (C3 & P3 & N3).
    assert (Fo' : List.find (has_id (toLowerCase id)) (products st) = Some old)
      by (rewrite <- P1, <- P2; exact Fo).
    assert (Ps' : products st1 = replace_first (has_id (toLowerCase id))
                    (patch_product (castProduct (<["updatedAt" := VDate (req_now req)]> update)) old)
                    (products st))
      by (rewrite P3, Ps, P2, P1; reflexivity).
    split; [congruence|]. split; [congruence|].
    split; [rewrite Ps'; eapply map_replace_first_key; [exact Fo' | reflexivity]|].
    split.
    - intros q Hq. rewrite Ps'. apply In_replace_first.
      + unfold has_id. now apply bool_decide_eq_false.
      + apply find_some in Fo'. destruct Fo' as [_ Ho]. exact Ho.
    - exists old. repeat split; try assumption.
      unfold patch_product, castProduct. cbn [p_updatedAt u_updatedAt].
      rewrite lookup_insert_eq. reflexivity. }
  unfold body_of in E. mrun E.
  assert (R1 : same_db st0 st2) by (eapply reads_same; [|exact Hm1]; reads_tac).
  assert (R2 : same_db st2 st3) by (eapply reads_same; [|exact Hm2]; reads_tac).
  destruct (G _ _ _ _ _ _ _ Hm0 (same_db_trans _ _ _ R1 R2) Hm3 Hm4)
    as (A1 & A2 & A3 & A4 & old & B1 & B2 & B3 & B4).
  split; [exact A1|]. split; [exact A2|]. split; [exact A3|]. split; [exact A4|].
  intros _. exists old, p0. repeat split; assumption.
Qed.
End UpdateById.

(** * Creating a product *)

Section CreateProductFacts.
Context `{Platform}.

Lemma Product_create_inv n d p di im s code c cn now st new st' :
  Product_create n d p di im s code c cn now st = (inr new, st') ->
  let u := {| u_id := Absent;
              u_name := castString n;
              u_description := castString d;
              u_price := castNumber p;
              u_discount := with_default (castNumber di) (num_of_Z 0);
              u_image := castString im;
              u_status := with_default (castString s) "In Stock";
              u_productCode := Cast code;
              u_category := castObjectId c;
              u_categoryName := Cast cn;
              u_createdAt := Cast now;
              u_updatedAt := Cast now;
              u_version := Absent |} in
  product_cast_failures u = [] /\ product_validators true u = [] /\
  new = patch_product u (blank_product (hex_digits 24 (nextId st))) /\
  existsb (fun q => string_eqb (p_productCode q) code) (products st) = false /\
  products st' = products st ++ [new] /\ categories st' = categories st /\
  nextId st' = (nextId st + 1)%N.
Proof.
  intros E u. unfold Product_create in E. fold u in E. mrun E.
  apply app_eq_nil in Heql. destruct Heql as [Hc Hv].
  apply map_eq_nil in Hc. simpl. repeat split; assumption.
Qed.

Lemma cast_failure_nil {A} path kind (c : cast A) :
  cast_failure path kind c = [] -> forall v, c <> Failed v.
Proof. destruct c as [| |x|w]; simpl; intros E v; congruence. Qed.

Lemma castObjectId_Cast v x :
  castObjectId v = Cast x ->
  exists s, v = Some (VString s) /\ ObjectId_isValid s = true /\ x = toLowerCase s.
Proof.
  destruct v as [[| | |s|]|]; simpl; try discriminate.
  destruct (ObjectId_isValid s) eqn:V; [|discriminate].
  intros E. injection E as <-. eauto.
Qed.

(** What a successful [createProduct] has done. *)
Lemma createProduct_inv req st res st' :
  createProduct req st = (inr res, st') ->
  exists b name cid cat new,
    req_body req = Some b /\
    b !! "name" = Some (VString name) /\
    b !! "categoryId" = Some (VString cid) /\ ObjectId_isValid cid = true /\
    List.find (has_category_id (toLowerCase cid)) (categories st) = Some cat /\
    List.find (fun q => string_eqb (p_name q) name && string_eqb (p_category q) (toLowerCase cid))
      (products st) = None /\
    res = mkResponse 201
            (Success "Product created successfully"
               (Some (ProductData (calculatePricing new None))) None None None) /\
    products st' = products st ++ [new] /\ categories st' = categories st /\
    nextId st' = (nextId st + 1)%N /\
    existsb (fun q => string_eqb (p_productCode q) (p_productCode new)) (products st) = false /\
    new = patch_product
            {| u_id := Absent;
               u_name := Cast name;
               u_description := castString (b !! "description");
               u_price := castNumber (b !! "price");
               u_discount := with_default (castNumber (b !! "discount")) (num_of_Z 0);
               u_image := castString (b !! "image");
               u_status := with_default (castString (b !! "status")) "In Stock";
               u_productCode := Cast (generateProductCode md5_hex (req_now req) name);
               u_category := Cast (toLowerCase cid);
               u_categoryName := Cast (c_name cat);
               u_createdAt := Cast (req_now req);
               u_updatedAt := Cast (req_now req);
               u_version := Absent |}
            (blank_product (hex_digits 24 (nextId st))) /\
    (forall v, castNumber (b !! "discount") <> Failed v).
Proof.
  intros E. unfold createProduct in E. mrun E.
  unfold body_of in Hm. destruct (req_body req) as [b|] eqn:B; [|discriminate].
  mrun Hm.
  apply Category_findById_found in Hm0. destruct Hm0 as (D0 & x & Cx & Fc).
  destruct (castObjectId_Cast _ _ Cx) as (cid & Ecid & V & ->).
  pose proof (reads_same _ _ _ _ (reads_Product_findOne _ _) Hm1) as D1.
  unfold Product_findOne in Hm1. rewrite Cx in Hm1. cbn [castString] in Hm1. mrun Hm1.
  clear D1.
  apply Product_create_inv in Hm2. cbv zeta in Hm2. cbn [products categories nextId] in Hm2.
  destruct Hm2 as (Hc & Hv & Hn & Hx & Ps & Cs & Ns).
  destruct D0 as (C0 & P0 & N0).
  exists a, s, cid, c, a2.
  rewrite Cx in Hn. cbn [castString] in Hn.
  assert (Hcode : p_productCode a2 = generateProductCode md5_hex (req_now req) s)
    by (rewrite Hn; reflexivity).
  repeat split; try assumption.
  - rewrite <- P0. exact H0.
  - rewrite Ps, P0. reflexivity.
  - congruence.
  - rewrite Ns, N0. reflexivity.
  - rewrite Hcode, <- P0. exact Hx.
  - rewrite Hn, N0. reflexivity.
  - unfold product_cast_failures in Hc. cbn [u_discount] in Hc.
    repeat (apply app_eq_nil in Hc; destruct Hc as [? Hc]).
    intros v Hf.
    match goal with
    | Hd : cast_failure "discount" _ _ = [] |- _ => rewrite Hf in Hd; discriminate Hd
    end.
Qed.
End CreateProductFacts.

Lemma find_app_new {A} (test : A -> bool) (x : A) (l : list A) :
  (forall y, In y l -> test y = false) -> test x = true ->
  List.find test (l ++ [x]) = Some x.
Proof.
  intros Hl Hx. induction l as [|z l IH]; simpl.
  - now rewrite Hx.
  - rewrite (Hl z) by now left. apply IH. intros y Hy. apply Hl. now right.
Qed.

Lemma find_app_old {A} (test : A -> bool) (x y : A) (l : list A) :
  List.find test l = Some y -> List.find test (l ++ [x]) = Some y.
Proof.
  induction l as [|z l IH]; simpl; [discriminate|].
  destruct (test z); auto.
Qed.

Section CreateProductApp.
Context `{Platform}.

(** A successful response is what the handler of the route returned. *)
Lemma app_success_result req st r req' :
  rootRouter req = Some (r, req') ->
  is_success (fst (app req st)) = true ->
  handler (r_controller r) req' st = (inr (fst (app req st)), snd (app req st)).
Proof.
  intros R. rewrite (app_routed _ _ _ _ R).
  assert (Hrun : is_success (fst (run_handler (r_controller r) req' st)) = true ->
                 handler (r_controller r) req' st
                 = (inr (fst (run_handler (r_controller r) req' st)),
                    snd (run_handler (r_controller r) req' st))).
  { unfold run_handler. destruct (handler (r_controller r) req' st) as [[err|res] st1]; simpl.
    - rewrite is_success_errorHandler. discriminate.
    - reflexivity. }
  destruct (r_validate r) as [schema|]; [|exact Hrun].
  destruct (validate schema req') as [refused|] eqn:V; [|exact Hrun].
  apply validate_refusal in V. destruct V as (errors & ->). discriminate.
Qed.

(** X8. A [POST /product] answered with success has stored exactly one
    new product after the others and left the categories as they were.
    The product has the next identifier of the counter, the name of the
    body, the code [generateProductCode] makes of this name at the clock
    reading, the category the body names and the current name of that
    category, both dates at the clock reading, and discount 0 and status
    "In Stock" when the body gives none; no stored product had this code,
    or this name in this category; and the response is 201 with the
    pricing of the new product. *)
Theorem create_product_stores req st :
  req_method req = "POST" -> req_path req = ["product"] ->
  is_success (fst (app req st)) = true ->
  exists b name cid cat new,
    req_body req = Some b /\
    b !! "name" = Some (VString name) /\
    b !! "categoryId" = Some (VString cid) /\
    List.find (has_category_id (toLowerCase cid)) (categories st) = Some cat /\
    fst (app req st) =
    mkResponse 201
      (Success "Product created successfully"
         (Some (ProductData (calculatePricing new None))) None None None) /\
    products (snd (app req st)) = products st ++ [new] /\
    categories (snd (app req st)) = categories st /\
    p_id new = hex_digits 24 (nextId st) /\
    p_name new = name /\
    p_productCode new = generateProductCode md5_hex (req_now req) name /\
    p_category new = toLowerCase cid /\
    p_categoryName new = Some (c_name cat) /\
    p_createdAt new = Some (req_now req) /\ p_updatedAt new = Some (req_now req) /\
    (b !! "discount" = None -> p_discount new = Some (num_of_Z 0)) /\
    (b !! "status" = None -> p_status new = Some "In Stock") /\
    (forall q, In q (products st) ->
       p_productCode q <> p_productCode new /\
       ~ (p_name q = name /\ p_category q = toLowerCase cid)).
Proof.
  intros Hm Hp S.
  pose proof (app_success_result _ _ _ _ (post_product_route _ Hm Hp) S) as E.
  cbn [r_controller handler] in E.
  apply createProduct_inv in E.
  destruct E as (b & name & cid & cat & new & B & Nn & Nc & V & Fc & Fd & R & Ps & Cs & Ns & Hx & Hn & _).
  exists b, name, cid, cat, new.
  repeat split; try assumption; try (rewrite Hn; reflexivity).
  - intros Hd. rewrite Hn, Hd. reflexivity.
  - intros Hs. rewrite Hn, Hs. reflexivity.
  - intros Hq.
    assert (T : existsb (fun q0 => string_eqb (p_productCode q0) (p_productCode new))
                  (products st) = true).
    { apply existsb_exists. exists q. split; [assumption|]. rewrite Hq. apply string_eqb_refl. }
    congruence.
  - intros [Hq1 Hq2]. apply (find_none _ _ Fd) in H0.
    rewrite Hq1, Hq2, !string_eqb_refl in H0. discriminate.
Qed.
End CreateProductApp.

Section RoundTrip.
Context `{Platform}.

End RoundTrip.

Lemma create_product_stores_witness :
  exists b name cid cat new,
    req_body (POST ["product"] phone_body) = Some b /\
    b !! "name" = Some (VString name) /\
    b !! "categoryId" = Some (VString cid) /\
    List.find (has_category_id (toLowerCase cid)) (categories (sample_state 1)) = Some cat /\
    fst (app (POST ["product"] phone_body) (sample_state 1)) =
    mkResponse 201
      (Success "Product created successfully"
         (Some (ProductData (calculatePricing new None))) None None None) /\
    products (snd (app (POST ["product"] phone_body) (sample_state 1)))
    = products (sample_state 1) ++ [new] /\
    categories (snd (app (POST ["product"] phone_body) (sample_state 1)))
    = categories (sample_state 1) /\
    p_id new = hex_digits 24 (nextId (sample_state 1)) /\
    p_name new = name /\
    p_productCode new = generateProductCode md5_hex (req_now (POST ["product"] phone_body)) name /\
    p_category new = toLowerCase cid /\
    p_categoryName new = Some (c_name cat) /\
    p_createdAt new = Some (req_now (POST ["product"] phone_body)) /\
    p_updatedAt new = Some (req_now (POST ["product"] phone_body)) /\
    (b !! "discount" = None -> p_discount new = Some (num_of_Z 0)) /\
    (b !! "status" = None -> p_status new = Some "In Stock") /\
    (forall q, In q (products (sample_state 1)) ->
       p_productCode q <> p_productCode new /\
       ~ (p_name q = name /\ p_category q = toLowerCase cid)).
Proof.
  apply (@create_product_stores sample_platform (POST ["product"] phone_body) (sample_state 1));
    vm_compute; reflexivity.
Defined.


Lemma update_product_frame_witness :
  let req := PUT ["product"; "000000000000000000000001"] [("price", lit 20)] in
  let st := sample_state 2 in
  let st' := snd (app req st) in
  categories st' = categories st /\ nextId st' = nextId st /\
  map p_id (products st') = map p_id (products st) /\
  (forall q, p_id q <> toLowerCase "000000000000000000000001" ->
     (In q (products st') <-> In q (products st))) /\
  (is_success (fst (app req st)) = true ->
   exists old new,
     List.find (has_id (toLowerCase "000000000000000000000001")) (products st) = Some old /\
     products st' = replace_first (has_id (toLowerCase "000000000000000000000001")) new (products st) /\
     p_id new = p_id old /\ p_updatedAt new = Some (req_now req) /\
     map pd_doc (product_items (fst (app req st))) = [new]).
Proof.
  apply (@update_product_frame sample_platform
           (PUT ["product"; "000000000000000000000001"] [("price", lit 20)]) (sample_state 2)
           "000000000000000000000001"); reflexivity.
Defined.

(** * The unique indexes are kept *)

Lemma NoDup_snoc {A} (x : A) (l : list A) :
  List.NoDup l -> ~ In x l -> List.NoDup (l ++ [x]).
Proof.
  induction l as [|y l IH]; intros N Hx; simpl.
  - constructor; [tauto | constructor].
  - inversion N as [|? ? Hy N']; subst. constructor.
    + rewrite in_app_iff. simpl. intros [Hin|[->|[]]]; [tauto|]. apply Hx. now left.
    + apply IH; [exact N'|]. intros Hin. apply Hx. now right.
Qed.

Lemma In_remove_first_old {A} (test : A -> bool) (y : A) (l : list A) :
  In y (remove_first test l) -> In y l.
Proof.
  induction l as [|x l IH]; simpl; [tauto|].
  destruct (test x); simpl; tauto.
Qed.

Lemma NoDup_map_remove_first {A B} (key : A -> B) (test : A -> bool) (l : list A) :
  List.NoDup (map key l) -> List.NoDup (map key (remove_first test l)).
Proof.
  induction l as [|x l IH]; intros N; simpl; [constructor|].
  inversion N as [|? ? Hx N']; subst.
  destruct (test x); [exact N'|]. simpl. constructor; [|auto].
  intros Hin. apply Hx. apply in_map_iff in Hin. destruct Hin as (y & <- & Hy).
  apply in_map. eapply In_remove_first_old; exact Hy.
Qed.

Lemma In_replace_first_cases {A} (test : A -> bool) (new y : A) (l : list A) :
  In y (replace_first test new l) -> y = new \/ In y l.
Proof.
  induction l as [|x l IH]; simpl; [tauto|].
  destruct (test x); simpl; intros [->|Hin]; auto. destruct (IH Hin); auto.
Qed.

(** Replacing the document with identifier [x] keeps a unique key
    unique when no other document has the new key. *)
Lemma NoDup_key_replace_first {A} (id key : A -> string) (x : string) (new old : A)
    (l : list A) :
  List.NoDup (map id l) -> List.NoDup (map key l) ->
  List.find (fun a => string_eqb (id a) x) l = Some old ->
  existsb (fun a => negb (string_eqb (id a) x) && string_eqb (key a) (key new)) l = false ->
  List.NoDup (map key (replace_first (fun a => string_eqb (id a) x) new l)).
Proof.
  induction l as [|z l IH]; intros Ni Nk F E; simpl in *; [discriminate|].
  inversion Ni as [|? ? Hzi Ni']; subst. inversion Nk as [|? ? Hzk Nk']; subst.
  apply orb_false_iff in E. destruct E as [Ez E].
  destruct (string_eqb (id z) x) eqn:T; simpl.
  - constructor; [|exact Nk'].
    intros Hin. apply in_map_iff in Hin. destruct Hin as (y & Hy & Hin).
    assert (Hyid : string_eqb (id y) x = false).
    { apply bool_decide_eq_false. intros Hyx. apply bool_decide_eq_true in T.
      apply Hzi. rewrite T, <- Hyx. now apply in_map. }
    assert (Ey : negb (string_eqb (id y) x) && string_eqb (key y) (key new) = true).
    { rewrite Hyid, Hy. simpl. apply string_eqb_refl. }
    assert (existsb (fun a => negb (string_eqb (id a) x) && string_eqb (key a) (key new)) l = true)
      by (apply existsb_exists; eauto).
    congruence.
  - simpl in Ez. apply bool_decide_eq_false in Ez.
    constructor; [|apply IH; assumption].
    intros Hin. apply in_map_iff in Hin. destruct Hin as (y & Hy & Hin).
    apply In_replace_first_cases in Hin. destruct Hin as [->|Hin].
    + congruence.
    + apply Hzk. rewrite <- Hy. now apply in_map.
Qed.

Lemma store_ok_same_db st st' : same_db st st' -> store_ok st -> store_ok st'.
Proof. intros (C & P & N). unfold store_ok. now rewrite C, P, N. Qed.

Lemma fresh_after (n k : N) :
  (n + 1 <= k < 16 ^ 24)%N -> hex_digits 24 k <> hex_digits 24 n.
Proof.
  intros Hk E. apply (hex_digits_inj 24) in E; [lia| |];
    change (N.of_nat 24) with 24%N; lia.
Qed.

Lemma preserves_reads {A} (m : M A) : reads m -> preserves m.
Proof. intros R st r st' E Ok _. eapply store_ok_same_db; [eapply reads_same; eassumption | exact Ok]. Qed.

Lemma preserves_bind_reads {A B} (m : M A) (k : A -> M B) :
  reads m -> (forall a, preserves (k a)) -> preserves (bind m k).
Proof.
  intros Rm Pk st r st' E Ok Hn. unfold bind in E.
  destruct (m st) as [[e|a] st1] eqn:Em.
  - injection E as <- <-. eapply store_ok_same_db; [eapply reads_same; eassumption | exact Ok].
  - pose proof (reads_same _ _ _ _ Rm Em) as S.
    eapply Pk; [exact E | eapply store_ok_same_db; eassumption |].
    destruct S as (_ & _ & ->). exact Hn.
Qed.

Lemma preserves_then_reads {A B} (m : M A) (k : A -> M B) :
  preserves m -> (forall a, reads (k a)) -> preserves (bind m k).
Proof.
  intros Pm Rk st r st' E Ok Hn. unfold bind in E.
  destruct (m st) as [[e|a] st1] eqn:Em.
  - injection E as <- <-. eapply Pm; eassumption.
  - eapply store_ok_same_db; [eapply reads_same; [apply Rk | exact E]|].
    eapply Pm; eassumption.
Qed.

Ltac preserves_step :=
  first
    [ apply preserves_reads; solve [auto with reads nocore]
    | match goal with
      | |- preserves (bind ?m _) =>
          apply preserves_bind_reads; [solve [auto with reads nocore] | intros ?]
      | |- preserves (match ?x with _ => _ end) => destruct x
      | |- preserves (if ?b then _ else _) => destruct b
      end ].

Ltac preserves_tac := cbv zeta; repeat preserves_step.

Section Invariant.
Context `{Platform}.

Lemma Product_findByIdAndDelete_inv id st old st' :
  Product_findByIdAndDelete id st = (inr (Some old), st') ->
  exists x,
    castObjectId id = Cast x /\
    products st' = remove_first (has_id x) (products st) /\
    categories st' = categories st /\ nextId st' = nextId st.
Proof.
  intros E. unfold Product_findByIdAndDelete in E. mrun E.
  all: simpl in *; eexists; repeat split; eassumption.
Qed.

Lemma Category_create_inv n d now st new st' :
  Category_create n d now st = (inr new, st') ->
  c_id new = hex_digits 24 (nextId st) /\
  c_name new = apply_required (castString n) EmptyString /\
  c_description new = apply_optional (castString d) None /\
  c_createdAt new = Some now /\ c_updatedAt new = Some now /\
  existsb (fun c => string_eqb (c_name c) (c_name new)) (categories st) = false /\
  categories st' = categories st ++ [new] /\ products st' = products st /\
  nextId st' = (nextId st + 1)%N.
Proof.
  intros E. unfold Category_create in E. mrun E. simpl in *. repeat split; assumption.
Qed.

Lemma Category_findByIdAndUpdate_inv id update st new st' :
  Category_findByIdAndUpdate id update st = (inr (Some new), st') ->
  exists x old,
    castObjectId id = Cast x /\
    List.find (has_category_id x) (categories st) = Some old /\
    new = patch_category (castCategory update) old /\
    existsb (fun c => negb (has_category_id x c) && string_eqb (c_name c) (c_name new))
      (categories st) = false /\
    categories st' = replace_first (has_category_id x) new (categories st) /\
    products st' = products st /\ nextId st' = nextId st.
Proof.
  intros E. unfold Category_findByIdAndUpdate in E. mrun E.
  all: simpl in *; eexists _, _; repeat split; eassumption.
Qed.

Lemma Category_findByIdAndDelete_inv id st old st' :
  Category_findByIdAndDelete id st = (inr (Some old), st') ->
  exists x,
    castObjectId id = Cast x /\
    List.find (has_category_id x) (categories st) = Some old /\
    categories st' = remove_first (has_category_id x) (categories st) /\
    products st' = products st /\ nextId st' = nextId st.
Proof.
  intros E. unfold Category_findByIdAndDelete in E. mrun E.
  all: simpl in *; eexists; repeat split; eassumption.
Qed.

Lemma preserves_Product_create n d p di im s code c cn now :
  preserves (Product_create n d p di im s code c cn now).
Proof.
  intros st [e|new] st' E Ok Hn.
  - eapply store_ok_same_db; [eapply Product_create_clean; exact E | exact Ok].
  - apply Product_create_inv in E. cbv zeta in E.
    destruct E as (_ & _ & Hnew & Hx & Ps & Cs & Ns).
    destruct Ok as (Ni & Nc & Nci & Ncn & Fr).
    assert (Hid : p_id new = hex_digits 24 (nextId st)) by (rewrite Hnew; reflexivity).
    assert (Hcode : p_productCode new = code) by (rewrite Hnew; reflexivity).
    unfold store_ok. rewrite Ps, Cs, Ns, !map_app. cbn [map].
    split; [|split; [|split; [|split]]]; try assumption.
    + apply NoDup_snoc; [exact Ni|]. rewrite Hid. apply Fr. lia.
    + apply NoDup_snoc; [exact Nc|]. rewrite Hcode. intros Hin.
      apply in_map_iff in Hin. destruct Hin as (q & Hq & Hin).
      assert (existsb (fun q => string_eqb (p_productCode q) code) (products st) = true).
      { apply existsb_exists. exists q. split; [exact Hin|]. rewrite Hq. apply string_eqb_refl. }
      congruence.
    + intros k Hk. destruct (Fr k) as [F1 F2]; [lia|]. split; [|exact F2].
      rewrite in_app_iff. intros [Hin|[Hin|[]]]; [tauto|].
      rewrite Hid in Hin. symmetry in Hin. revert Hin. apply fresh_after. lia.
Qed.

Lemma preserves_Category_create n d now : preserves (Category_create n d now).
Proof.
  intros st [e|new] st' E Ok Hn.
  - eapply store_ok_same_db; [eapply Category_create_clean; exact E | exact Ok].
  - apply Category_create_inv in E.
    destruct E as (Hid & _ & _ & _ & _ & Hx & Cs & Ps & Ns).
    destruct Ok as (Ni & Nc & Nci & Ncn & Fr).
    unfold store_ok. rewrite Ps, Cs, Ns, !map_app. cbn [map].
    split; [|split; [|split; [|split]]]; try assumption.
    + apply NoDup_snoc; [exact Nci|]. rewrite Hid. apply Fr. lia.
    + apply NoDup_snoc; [exact Ncn|]. intros Hin.
      apply in_map_iff in Hin. destruct Hin as (q & Hq & Hin).
      assert (existsb (fun c => string_eqb (c_name c) (c_name new)) (categories st) = true).
      { apply existsb_exists. exists q. split; [exact Hin|]. rewrite Hq. apply string_eqb_refl. }
      congruence.
    + intros k Hk. destruct (Fr k) as [F1 F2]; [lia|]. split; [exact F1|].
      rewrite in_app_iff. intros [Hin|[Hin|[]]]; [tauto|].
      rewrite Hid in Hin. symmetry in Hin. revert Hin. apply fresh_after. lia.
Qed.

Lemma preserves_Product_findByIdAndUpdate id update :
  preserves (Product_findByIdAndUpdate id update).
Proof.
  intros st r st' E Ok Hn.
  pose proof (Product_findByIdAndUpdate_clean _ _ _ _ _ E) as C.
  destruct r as [e|[new|]]; try (eapply store_ok_same_db; [exact C | exact Ok]).
  apply Product_findByIdAndUpdate_inv in E.
  destruct E as (x & old & _ & Fo & Hnew & _ & Hx & Ps & Cs & Ns).
  destruct Ok as (Ni & Nc & Nci & Ncn & Fr).
  assert (Hid : p_id new = p_id old) by (rewrite Hnew; reflexivity).
  assert (Hids : map p_id (products st') = map p_id (products st))
    by (rewrite Ps; eapply map_replace_first_key; eassumption).
  unfold store_ok. rewrite Hids, Cs, Ns.
  split; [|split; [|split; [|split]]]; try assumption.
  rewrite Ps. eapply (NoDup_key_replace_first p_id p_productCode); eassumption.
Qed.

Lemma preserves_Category_findByIdAndUpdate id update :
  preserves (Category_findByIdAndUpdate id update).
Proof.
  intros st r st' E Ok Hn.
  pose proof (Category_findByIdAndUpdate_clean _ _ _ _ _ E) as C.
  destruct r as [e|[new|]]; try (eapply store_ok_same_db; [exact C | exact Ok]).
  apply Category_findByIdAndUpdate_inv in E.
  destruct E as (x & old & _ & Fo & Hnew & Hx & Cs & Ps & Ns).
  destruct Ok as (Ni & Nc & Nci & Ncn & Fr).
  assert (Hid : c_id new = c_id old) by (rewrite Hnew; reflexivity).
  assert (Hids : map c_id (categories st') = map c_id (categories st))
    by (rewrite Cs; eapply map_replace_first_key; eassumption).
  unfold store_ok. rewrite Hids, Ps, Ns.
  split; [|split; [|split; [|split]]]; try assumption.
  rewrite Cs. eapply (NoDup_key_replace_first c_id c_name); eassumption.
Qed.

Lemma preserves_Product_findByIdAndDelete id : preserves (Product_findByIdAndDelete id).
Proof.
  intros st r st' E Ok Hn.
  pose proof (Product_findByIdAndDelete_clean _ _ _ _ E) as C.
  destruct r as [e|[old|]]; try (eapply store_ok_same_db; [exact C | exact Ok]).
  apply Product_findByIdAndDelete_inv in E. destruct E as (x & _ & Ps & Cs & Ns).
  destruct Ok as (Ni & Nc & Nci & Ncn & Fr).
  unfold store_ok. rewrite Ps, Cs, Ns.
  split; [|split; [|split; [|split]]]; try assumption.
  - now apply NoDup_map_remove_first.
  - now apply NoDup_map_remove_first.
  - intros k Hk. destruct (Fr k Hk) as [F1 F2]. split; [|exact F2].
    intros Hin. apply F1. apply in_map_iff in Hin. destruct Hin as (q & <- & Hin).
    apply in_map. eapply In_remove_first_old; exact Hin.
Qed.

Lemma preserves_Category_findByIdAndDelete id : preserves (Category_findByIdAndDelete id).
Proof.
  intros st r st' E Ok Hn.
  pose proof (Category_findByIdAndDelete_clean _ _ _ _ E) as C.
  destruct r as [e|[old|]]; try (eapply store_ok_same_db; [exact C | exact Ok]).
  apply Category_findByIdAndDelete_inv in E. destruct E as (x & _ & _ & Cs & Ps & Ns).
  destruct Ok as (Ni & Nc & Nci & Ncn & Fr).
  unfold store_ok. rewrite Ps, Cs, Ns.
  split; [|split; [|split; [|split]]]; try assumption.
  - now apply NoDup_map_remove_first.
  - now apply NoDup_map_remove_first.
  - intros k Hk. destruct (Fr k Hk) as [F1 F2]. split; [exact F1|].
    intros Hin. apply F2. apply in_map_iff in Hin. destruct Hin as (q & <- & Hin).
    apply in_map. eapply In_remove_first_old; exact Hin.
Qed.

Ltac after_write L :=
  apply preserves_then_reads; [apply L | intros ?; reads_tac].

Lemma preserves_handler c req : preserves (handler c req).
Proof.
  destruct c; simpl.
  - unfold createProduct. preserves_tac. after_write preserves_Product_create.
  - apply preserves_reads, reads_getProducts.
  - apply preserves_reads, reads_getProductById.
  - unfold updateProduct. preserves_tac.
    all: try (apply preserves_bind_reads; [reads_tac | intros ?]).
    all: after_write preserves_Product_findByIdAndUpdate.
  - unfold deleteProduct. cbv zeta. after_write preserves_Product_findByIdAndDelete.
  - unfold createCategory. preserves_tac. after_write preserves_Category_create.
  - apply preserves_reads, reads_getCategory.
  - apply preserves_reads, reads_getCategoryById.
  - unfold updateCategoryById. preserves_tac.
    after_write preserves_Category_findByIdAndUpdate.
  - unfold deleteCategoryById. preserves_tac.
    after_write preserves_Category_findByIdAndDelete.
  - apply preserves_reads, reads_getHealth.
Qed.

(** X10. The unique indexes are an invariant of the application: from a
    store in which product identifiers, product codes, category
    identifiers and category names are unique and the identifiers the
    counter has yet to hand out are unused, every request, whatever it is
    and however it is answered, leads to such a store again (as long as
    the counter has not run through the 24 hexadecimal digits). *)
Theorem unique_indexes_kept req st :
  store_ok st -> (nextId st < 16 ^ 24)%N -> store_ok (snd (app req st)).
Proof.
  intros Ok Hn. unfold app. destruct (cors_cases req) as [->|[_ ->]]; [|exact Ok].
  destruct (rootRouter req) as [[r req']|]; [|exact Ok].
  assert (Hrun : store_ok (snd (run_handler (r_controller r) req' st))).
  { unfold run_handler.
    destruct (handler (r_controller r) req' st) as [[err|res] st1] eqn:E; cbn [snd];
      eapply preserves_handler; eassumption. }
  destruct (r_validate r) as [schema|]; [|exact Hrun].
  destruct (validate schema req'); [exact Ok | exact Hrun].
Qed.
End Invariant.

(** * Listing products *)

Section Listing.
Context `{Platform}.

Lemma matching_products_inv f st found st' :
  matching_products f st = (inr found, st') ->
  st' = st /\ (forall v, castObjectId (f_category f) <> Failed v) /\
  found = List.filter (product_matches f (castObjectId (f_category f))) (products st).
Proof.
  intros E. unfold matching_products in E.
  destruct (castObjectId (f_category f)) eqn:C; mrun E; repeat split; congruence.
Qed.

Lemma paging_inv l s st w st' :
  paging l s st = (inr w, st') ->
  st' = st /\ snd w = s /\ isFinite s = true /\ js_ge s (num_of_Z 0) = true /\
  isFinite (fst w) = true /\
  fst w = match castNumber l with Cast n => n | _ => S754_zero false end.
Proof.
  intros E. unfold paging in E.
  destruct (castNumber l) eqn:C; mrun E; cbn [fst snd];
    repeat match goal with
           | Hb : _ && _ = true |- _ => apply andb_true_iff in Hb; destruct Hb
           end; repeat split; assumption.
Qed.

(** What a successful [getProducts] sends. *)
Lemma getProducts_inv req st res st' :
  getProducts req st = (inr res, st') ->
  let q := req_query req in
  let w := pagination_window (js_default (q !! "page") (lit 1))
             (js_default (q !! "limit") (lit 10)) in
  let pageNum := fst (fst w) in
  let limitNum := snd (fst w) in
  let skip := snd w in
  let lim := match castNumber (Some limitNum) with Cast n => n | _ => S754_zero false end in
  let total := count (length (selected_products q st)) in
  let totalPages := Math_ceil (js_div total (number_of (Some limitNum))) in
  same_db st st' /\
  isFinite skip = true /\ js_ge skip (num_of_Z 0) = true /\ isFinite lim = true /\
  res =
  mkResponse 200
    (Success "Products retrieved successfully"
       (Some (ProductList
                (map (fun p => calculatePricing p
                                 (Some (List.find (has_category_id (p_category p)) (categories st))))
                   (window skip lim (sort_by (listing_order q) (selected_products q st))))))
       (Some {| currentPage := pageNum;
                totalPages := totalPages;
                totalCount := total;
                limit := limitNum;
                hasNextPage := js_lt (number_of (Some pageNum)) totalPages;
                hasPrevPage := js_gt (number_of (Some pageNum)) (num_of_Z 1) |})
       (Some (q !! "search", q !! "category", q !! "status"))
       (Some (js_default (q !! "sortBy") (VString "createdAt"),
              js_default (q !! "sortOrder") (VString "desc")))).
Proof.
  intros E q w pageNum limitNum skip lim total totalPages.
  pose proof (reads_same _ _ _ _ (reads_getProducts req) E) as S.
  split; [exact S|].
  unfold getProducts in E. fold q in E. fold w in E.
  assert (W : w = (pageNum, limitNum, skip)) by (subst pageNum limitNum skip; now destruct w as [[? ?] ?]).
  rewrite W in E. mrun E.
  unfold Product_find in Hm. mrun Hm.
  unfold Product_countDocuments in Hm0. mrun Hm0.
  apply paging_inv in Hm1. destruct Hm1 as (-> & Hs & F1 & F2 & F3 & Hl).
  apply matching_products_inv in Hm2. destruct Hm2 as (-> & _ & ->).
  apply matching_products_inv in Hm. destruct Hm as (-> & _ & ->).
  assert (C0 : categories st0 = categories st /\ products st0 = products st).
  { unfold ret, record_call in Hm3.
    destruct (window _ _ _) in Hm3; injection Hm3 as _ <-; split; reflexivity. }
  destruct C0 as [C0 P0]. cbn [products categories] in *.
  rewrite Hs, Hl. fold lim. repeat split; try assumption.
  - rewrite Hl in F3. exact F3.
  - rewrite map_map, P0. reflexivity.
Qed.
End Listing.

(** ** The order of a listing *)

Lemma insert_sorted_Sorted {A} (cmp : A -> A -> comparison) (x : A) (l : list A) :
  (forall a b, cmp a b = Gt -> cmp b a <> Gt) ->
  Sorted (fun a b => cmp a b <> Gt) l ->
  Sorted (fun a b => cmp a b <> Gt) (insert_sorted cmp x l).
Proof.
  intros Hc. induction l as [|y l IH]; intros S; simpl.
  - repeat constructor.
  - inversion S as [|? ? S' Hd]; subst.
    destruct (cmp x y) eqn:E.
    + constructor; [exact S|]. constructor. congruence.
    + constructor; [exact S|]. constructor. congruence.
    + constructor; [apply IH; exact S'|].
      destruct l as [|z l]; simpl.
      * constructor. now apply Hc.
      * destruct (cmp x z); constructor; try (now apply Hc);
          inversion Hd; subst; assumption.
Qed.

Lemma sort_by_Sorted {A} (cmp : A -> A -> comparison) (l : list A) :
  (forall a b, cmp a b = Gt -> cmp b a <> Gt) ->
  Sorted (fun a b => cmp a b <> Gt) (sort_by cmp l).
Proof.
  intros Hc. unfold sort_by. induction l as [|x l IH]; simpl.
  - constructor.
  - now apply insert_sorted_Sorted.
Qed.

Lemma Sorted_skipn {A} (R : A -> A -> Prop) (n : nat) (l : list A) :
  Sorted R l -> Sorted R (List.skipn n l).
Proof.
  revert l. induction n as [|n IH]; intros l S; [exact S|].
  destruct l as [|x l]; [constructor|]. simpl. apply IH. now inversion S.
Qed.

Lemma Sorted_firstn {A} (R : A -> A -> Prop) (n : nat) (l : list A) :
  Sorted R l -> Sorted R (List.firstn n l).
Proof.
  revert l. induction n as [|n IH]; intros l S; [constructor|].
  destruct l as [|x l]; [constructor|]. simpl.
  inversion S as [|? ? S' Hd]; subst. constructor; [now apply IH|].
  destruct l as [|y l]; destruct n; simpl; constructor. now inversion Hd.
Qed.

Lemma Sorted_window {A} (R : A -> A -> Prop) (skip limit : number) (l : list A) :
  Sorted R l -> Sorted R (window skip limit l).
Proof.
  intros S. unfold window.
  destruct limit; try apply Sorted_firstn; now apply Sorted_skipn.
Qed.

Lemma SFcompare_antisym (a b : number) :
  SFcompare b a = option_map CompOpp (SFcompare a b).
Proof.
  destruct a as [sa|sa| |sa ma ea], b as [sb|sb| |sb mb eb]; try reflexivity;
    try (destruct sa; reflexivity); try (destruct sb; reflexivity);
    try (destruct sa, sb; reflexivity).
  simpl. destruct sa, sb; try reflexivity.
  - rewrite (Z.compare_antisym ea eb). destruct (ea ?= eb) eqn:E; simpl; try reflexivity.
    change (Pos.compare_cont Eq mb ma) with (Pos.compare_cont (CompOpp Eq) mb ma).
    rewrite <- (Pos.compare_cont_antisym ma mb Eq). reflexivity.
  - rewrite (Z.compare_antisym ea eb). destruct (ea ?= eb) eqn:E; simpl; try reflexivity.
    change (Pos.compare_cont Eq mb ma) with (Pos.compare_cont (CompOpp Eq) mb ma).
    rewrite <- (Pos.compare_cont_antisym ma mb Eq). reflexivity.
Qed.

Lemma compare_number_antisym (a b : number) :
  compare_number b a = CompOpp (compare_number a b).
Proof.
  unfold compare_number. rewrite (SFcompare_antisym a b).
  destruct (SFcompare a b); reflexivity.
Qed.

Lemma compare_option_antisym {A} (cmp : A -> A -> comparison) (a b : option A) :
  (forall x y, cmp y x = CompOpp (cmp x y)) ->
  compare_option cmp b a = CompOpp (compare_option cmp a b).
Proof. intros Hc. destruct a, b; simpl; auto. Qed.

Lemma compare_products_antisym key direction (a b : product) :
  compare_products key direction b a = CompOpp (compare_products key direction a b).
Proof.
  unfold compare_products.
  assert (E : forall c c', c' = CompOpp c ->
            (if direction <? 0 then CompOpp c' else c')
            = CompOpp (if direction <? 0 then CompOpp c else c)).
  { intros c c' ->. destruct (direction <? 0); reflexivity. }
  apply E.
  repeat match goal with |- context [if ?x then _ else _] => destruct x end.
  - apply String.compare_antisym.
  - apply compare_number_antisym.
  - apply compare_option_antisym. intros x y. apply Z.compare_antisym.
  - apply compare_option_antisym. intros x y. apply Z.compare_antisym.
  - reflexivity.
Qed.

Lemma compare_products_total key direction (a b : product) :
  compare_products key direction a b = Gt -> compare_products key direction b a <> Gt.
Proof. intros E. rewrite compare_products_antisym, E. discriminate. Qed.

Lemma length_window_le {A} (skip limit : number) (l : list A) :
  (length (window skip limit l) <= length l)%nat.
Proof.
  unfold window.
  assert (S : (length (List.skipn (Z.to_nat (trunc skip)) l) <= length l)%nat)
    by (rewrite length_skipn; lia).
  destruct limit; try exact S; rewrite length_firstn; lia.
Qed.

Lemma Sorted_impl {A} (R R' : A -> A -> Prop) (l : list A) :
  (forall a b, R a b -> R' a b) -> Sorted R l -> Sorted R' l.
Proof.
  intros HR. induction l as [|x l IH]; intros S; [constructor|].
  inversion S as [|? ? S' Hd]; subst. constructor; [auto|].
  destruct Hd; constructor; auto.
Qed.

Section ListingApp.
Context `{Platform}.

Lemma get_products_route req :
  req_method req = "GET" ->
  List.filter (fun s => negb (string_eqb s EmptyString)) (req_path req) = ["product"] ->
  rootRouter req = Some (mkRoute (Some validatePagination) GetProducts, req).
Proof. intros Hm Hp. unfold rootRouter. rewrite Hp. unfold productRouter, route_method. now rewrite Hm. Qed.

Lemma app_success_validated req st r req' schema :
  rootRouter req = Some (r, req') -> r_validate r = Some schema ->
  is_success (fst (app req st)) = true -> validate schema req' = None.
Proof.
  intros R V. rewrite (app_routed _ _ _ _ R), V.
  destruct (validate schema req') as [refused|] eqn:E; [|reflexivity].
  apply validate_refusal in E. destruct E as (errors & ->). discriminate.
Qed.

(** What a query that passed [validatePagination] holds. *)
Lemma pagination_typed req :
  validate paginationSchema req = None ->
  let q := req_query req in
  (q !! "page" = None \/ exists s, q !! "page" = Some (VString s) /\ digits_only s = true) /\
  (q !! "limit" = None \/ exists s, q !! "limit" = Some (VString s) /\ digits_only s = true) /\
  (q !! "search" = None \/ exists s, q !! "search" = Some (VString s)) /\
  (q !! "category" = None \/
   exists c, q !! "category" = Some (VString c) /\ ObjectId_isValid c = true) /\
  (q !! "status" = None \/
   exists s, q !! "status" = Some (VString s) /\ In s ["In Stock"; "Stock Out"]) /\
  (q !! "sortBy" = None \/
   exists s, q !! "sortBy" = Some (VString s) /\ In s ["name"; "price"; "createdAt"; "updatedAt"]) /\
  (q !! "sortOrder" = None \/
   exists s, q !! "sortOrder" = Some (VString s) /\ In s ["asc"; "desc"]).
Proof.
  intros V q.
  pose proof (validate_entries paginationSchema req) as E. rewrite V in E.
  specialize (E ltac:(cbn; tauto)).
  unfold violated_fields, paginationSchema in E.
  cbn [flat_map violated_in section_input section_name] in E. rewrite app_nil_r in E.
  apply map_eq_nil in E. fold q in E.
  cbn [List.filter fst snd] in E.
  repeat match type of E with
         | context [negb (field_ok ?z ?v)] =>
             let F := fresh "F" in
             destruct (field_ok z v) eqn:F; cbn [negb] in E; [|discriminate E]
         end.
  clear E.
  repeat match goal with
         | F : field_ok _ (q !! ?k) = true |- _ =>
             cbn [field_ok statusEnum objectIdSchema] in F;
             destruct (q !! k) as [[| | |?s|]|]; try discriminate F;
             cbn [forallb string_check_ok existsb] in F;
             rewrite ?andb_true_r, ?orb_false_r in F
         end.
  all: repeat split; try (left; reflexivity); right; eexists;
    first [reflexivity | split; [reflexivity|]]; try assumption.
  all: cbn [In];
    repeat match goal with
           | F : _ || _ = true |- _ => apply orb_true_iff in F; destruct F as [F|F]
           | F : string_eqb _ _ = true |- _ => apply bool_decide_eq_true in F; subst
           end; tauto.
Qed.
End ListingApp.

Section ListingTheorems.
Context `{Platform}.

Lemma selected_wanted req (p : product) :
  validate paginationSchema req = None ->
  let q := req_query req in
  product_matches (listing_filter_of q) (castObjectId (f_category (listing_filter_of q))) p
  = (match q !! "search" with
     | Some (VString s) =>
         string_eqb s EmptyString || regexSearch s (p_name p) || regexSearch s (p_description p)
     | _ => true
     end
     && match q !! "category" with
        | Some (VString c) => string_eqb (p_category p) (toLowerCase c)
        | _ => true
        end
     && match q !! "status" with
        | Some (VString s) =>
            match p_status p with Some t => string_eqb t s | None => false end
        | _ => true
        end).
Proof.
  intros V q. destruct (pagination_typed req V) as (_ & _ & Ts & Tc & Tt & _ & _).
  fold q in Ts, Tc, Tt.
  unfold product_matches, listing_filter_of. cbn [f_search f_category f_status].
  f_equal; [f_equal|].
  - destruct Ts as [->|(s & ->)]; [reflexivity|].
    cbn [truthy]. destruct (string_eqb s EmptyString); [reflexivity|].
    cbn [negb search_matches existsb orb]. now rewrite orb_false_r.
  - destruct Tc as [->|(c & -> & Vc)]; [reflexivity|].
    cbn [truthy]. rewrite (valid_id_nonempty _ Vc). cbn [negb].
    now rewrite (castObjectId_valid _ Vc).
  - destruct Tt as [->|(s & -> & Hs)]; [reflexivity|].
    assert (Hn : string_eqb s EmptyString = false)
      by (destruct Hs as [<-|[<-|[]]]; reflexivity).
    cbn [truthy]. rewrite Hn. reflexivity.
Qed.

(** X11. A [GET /product] answered with success lists stored products
    only, each with its pricing and its category populated from the
    store, and every one of them meets the query: it has the status and
    the category asked for, and the search text, when not empty, is found
    in its name or its description.  The total of the envelope is the
    number of stored products that meet the query, whatever the page, the
    limit and the order, and the page holds no more products than that. *)
Theorem listing_selects req st :
  req_method req = "GET" ->
  List.filter (fun s => negb (string_eqb s EmptyString)) (req_path req) = ["product"] ->
  is_success (fst (app req st)) = true ->
  let q := req_query req in
  let res := fst (app req st) in
  let wanted (p : product) : bool :=
    match q !! "search" with
    | Some (VString s) =>
        string_eqb s EmptyString || regexSearch s (p_name p) || regexSearch s (p_description p)
    | _ => true
    end
    && match q !! "category" with
       | Some (VString c) => string_eqb (p_category p) (toLowerCase c)
       | _ => true
       end
    && match q !! "status" with
       | Some (VString s) =>
           match p_status p with Some t => string_eqb t s | None => false end
       | _ => true
       end in
  (forall pd, In pd (product_items res) ->
     In (pd_doc pd) (products st) /\ wanted (pd_doc pd) = true /\
     pd = calculatePricing (pd_doc pd)
            (Some (List.find (has_category_id (p_category (pd_doc pd))) (categories st)))) /\
  option_map totalCount (pagination_of res)
  = Some (count (length (List.filter wanted (products st)))) /\
  (length (product_items res) <= length (List.filter wanted (products st)))%nat.
Proof.
  intros Hm Hp S q res wanted.
  pose proof (get_products_route _ Hm Hp) as R.
  pose proof (app_success_validated _ _ _ _ _ R eq_refl S) as V.
  change validatePagination with paginationSchema in V.
  pose proof (app_success_result _ _ _ _ R S) as E. cbn [r_controller handler] in E.
  apply getProducts_inv in E. cbv zeta in E. fold res q in E.
  destruct E as (_ & _ & _ & _ & E).
  assert (W : selected_products q st = List.filter wanted (products st)).
  { unfold selected_products. apply filter_ext. intros p. apply (selected_wanted req p V). }
  rewrite W in E. rewrite E. cbn [product_items pagination_of payload option_map totalCount].
  split; [|split].
  - intros pd Hin. apply in_map_iff in Hin. destruct Hin as (p & <- & Hin).
    apply In_window in Hin. apply In_sort_by in Hin. apply filter_In in Hin.
    destruct Hin as [Hin Hw]. cbn [pd_doc calculatePricing]. repeat split; assumption.
  - reflexivity.
  - rewrite length_map. etransitivity; [apply length_window_le|].
    now rewrite length_sort_by.
Qed.

(** X12. The products of a [GET /product] answered with success are in
    the order asked for: no product is followed by one the order puts
    strictly before it.  Without [sortBy] and [sortOrder] that is newest
    first by [createdAt]; with [sortBy=price] and [sortOrder=asc] prices
    never decrease, and with [sortBy=name] and [sortOrder=asc] names
    never decrease. *)
Theorem listing_sorted req st :
  req_method req = "GET" ->
  List.filter (fun s => negb (string_eqb s EmptyString)) (req_path req) = ["product"] ->
  is_success (fst (app req st)) = true ->
  let q := req_query req in
  let listed := map pd_doc (product_items (fst (app req st))) in
  Sorted (fun a b => listing_order q a b <> Gt) listed /\
  (q !! "sortBy" = None -> q !! "sortOrder" = None ->
   Sorted (fun a b => compare_option Z.compare (p_createdAt b) (p_createdAt a) <> Gt) listed) /\
  (q !! "sortBy" = Some (VString "price") -> q !! "sortOrder" = Some (VString "asc") ->
   Sorted (fun a b => compare_number (p_price a) (p_price b) <> Gt) listed) /\
  (q !! "sortBy" = Some (VString "name") -> q !! "sortOrder" = Some (VString "asc") ->
   Sorted (fun a b => String.compare (p_name a) (p_name b) <> Gt) listed).
Proof.
  intros Hm Hp S q listed.
  pose proof (get_products_route _ Hm Hp) as R.
  pose proof (app_success_result _ _ _ _ R S) as E. cbn [r_controller handler] in E.
  apply getProducts_inv in E. cbv zeta in E. fold q in E.
  destruct E as (_ & _ & _ & _ & E).
  assert (L : Sorted (fun a b => listing_order q a b <> Gt) listed).
  { subst listed. rewrite E. cbn [product_items payload].
    rewrite map_map. cbn [pd_doc calculatePricing]. rewrite map_id.
    apply Sorted_window, sort_by_Sorted. intros a b. apply compare_products_total. }
  split; [exact L|]. split; [|split].
  - intros E1 E2. revert L. apply Sorted_impl. intros a b.
    unfold listing_order. rewrite E1, E2. cbn.
    rewrite (compare_option_antisym Z.compare (p_createdAt a) (p_createdAt b))
      by (intros; apply Z.compare_antisym).
    tauto.
  - intros E1 E2. revert L. apply Sorted_impl. intros a b.
    unfold listing_order. rewrite E1, E2. cbn. tauto.
  - intros E1 E2. revert L. apply Sorted_impl. intros a b.
    unfold listing_order. rewrite E1, E2. cbn. tauto.
Qed.
End ListingTheorems.

(** * The page of a listing *)

Lemma page_table_checked : page_table 100 100 300 = true.
Proof. vm_cast_no_check (eq_refl true). Qed.

Lemma In_Zrange (lo n : nat) (z : Z) :
  Z.of_nat lo <= z < Z.of_nat lo + Z.of_nat n -> In z (Zrange lo n).
Proof.
  intros Hz. unfold Zrange. apply in_map_iff. exists (Z.to_nat z).
  split; [lia|]. apply in_seq. lia.
Qed.

Lemma same_number_eq (a b : number) : same_number a b = true -> a = b.
Proof.
  destruct a as [s|s| |s m e], b as [s'|s'| |s' m' e']; simpl; try discriminate; intros E.
  - apply eqb_prop in E. now subst.
  - apply eqb_prop in E. now subst.
  - reflexivity.
  - apply andb_true_iff in E. destruct E as [E E3]. apply andb_true_iff in E.
    destruct E as [E1 E2]. apply eqb_prop in E1. apply Pos.eqb_eq in E2. apply Z.eqb_eq in E3.
    now subst.
Qed.

Lemma page_table_spec (P L N : nat) :
  page_table P L N = true ->
  forall p l n t,
    In p (Zrange 1 P) -> In l (Zrange 1 L) -> In n (Zrange 0 (S N)) -> In t (Zrange 0 (S N)) ->
    prev_ok p = true /\ skip_ok p l = true /\ next_ok p t = true /\
    limit_ok l = true /\ pages_ok n l = true.
Proof.
  intros T p l n t Hp Hl Hn Ht. unfold page_table in T.
  apply andb_true_iff in T. destruct T as [Tp Tl].
  rewrite forallb_forall in Tp, Tl.
  specialize (Tp p Hp). specialize (Tl l Hl).
  apply andb_true_iff in Tp. destruct Tp as [Tp Tnext].
  apply andb_true_iff in Tp. destruct Tp as [Tprev Tskip].
  apply andb_true_iff in Tl. destruct Tl as [Tlim Tpages].
  rewrite forallb_forall in Tskip, Tnext, Tpages.
  repeat split; auto.
Qed.

(** The facts of the table at one page, limit and total. *)
Lemma page_arithmetic (p l n : Z) :
  1 <= p <= 100 -> 1 <= l <= 100 -> 0 <= n <= 300 ->
  let skip := js_mul (js_sub (num_of_Z p) (num_of_Z 1)) (num_of_Z l) in
  isFinite skip = true /\ js_ge skip (num_of_Z 0) = true /\ trunc skip = (p - 1) * l /\
  isFinite (num_of_Z l) = true /\ isNaN (num_of_Z l) = false /\ trunc (num_of_Z l) = l /\
  (forall s, num_of_Z l <> S754_zero s) /\
  Math_ceil (js_div (num_of_Z n) (num_of_Z l)) = num_of_Z ((n + l - 1) / l) /\
  js_lt (num_of_Z p) (num_of_Z ((n + l - 1) / l)) = (p <? (n + l - 1) / l) /\
  js_gt (num_of_Z p) (num_of_Z 1) = (1 <? p).
Proof.
  intros Hp Hl Hn skip.
  assert (Ht : 0 <= (n + l - 1) / l <= 300).
  { split; [apply Z.div_pos; lia|]. apply Z.div_le_upper_bound; nia. }
  destruct (page_table_spec 100 100 300 page_table_checked p l n ((n + l - 1) / l)
              (In_Zrange 1 100 p ltac:(lia)) (In_Zrange 1 100 l ltac:(lia))
              (In_Zrange 0 301 n ltac:(lia)) (In_Zrange 0 301 ((n + l - 1) / l) ltac:(lia)))
    as (Tprev & Tskip & Tnext & Tlim & Tpages).
  clear Hp Hl Hn Ht.
  subst skip. unfold skip_ok in Tskip. cbv zeta in Tskip.
  apply andb_true_iff in Tskip. destruct Tskip as [Tskip S3].
  apply andb_true_iff in Tskip. destruct Tskip as [S1 S2].
  unfold limit_ok in Tlim. cbv zeta in Tlim.
  apply andb_true_iff in Tlim. destruct Tlim as [Tlim L4].
  apply andb_true_iff in Tlim. destruct Tlim as [Tlim L3].
  apply andb_true_iff in Tlim. destruct Tlim as [L1 L2].
  unfold pages_ok in Tpages. unfold next_ok in Tnext. unfold prev_ok in Tprev.
  split; [exact S1|]. split; [exact S2|]. split; [apply Z.eqb_eq; exact S3|].
  split; [exact L1|]. split; [apply negb_true_iff; exact L2|].
  split; [apply Z.eqb_eq; exact L3|].
  split; [intros s E; rewrite E in L4; discriminate L4|].
  split; [apply same_number_eq; exact Tpages|].
  split; [apply eqb_prop; exact Tnext | apply eqb_prop; exact Tprev].
Qed.

Section PageTheorem.
Context `{Platform}.

Lemma digits_only_nonempty s : digits_only s = true -> string_eqb s EmptyString = false.
Proof. unfold digits_only. intros E. apply andb_true_iff in E. now apply negb_true_iff. Qed.

Lemma digits_only_number s :
  digits_only s = true -> string_to_number s = num_of_Z (decimal_value 0 s).
Proof.
  intros E. unfold string_to_number. rewrite (digits_only_nonempty _ E).
  unfold digits_only in E. apply andb_true_iff in E. destruct E as [_ ->]. reflexivity.
Qed.

(** The value a handler computes with for [page] or [limit]. *)
Lemma query_value (v : option value) (d : Z) :
  (v = None \/ exists s, v = Some (VString s) /\ digits_only s = true) ->
  or_literal (js_default v (lit d)) (lit d) = default (lit d) v /\
  number_of (Some (default (lit d) v)) = num_of_Z (query_number v d).
Proof.
  intros [->|(s & -> & D)].
  - split; [|reflexivity]. unfold or_literal, js_or. cbn [js_default].
    destruct (truthy (Some (lit d))); reflexivity.
  - split.
    + unfold or_literal, js_or. cbn [js_default truthy].
      rewrite (digits_only_nonempty _ D). reflexivity.
    + cbn. now apply digits_only_number.
Qed.

Lemma castNumber_query (v : option value) (d : Z) :
  (v = None \/ exists s, v = Some (VString s) /\ digits_only s = true) ->
  isNaN (num_of_Z (query_number v d)) = false ->
  castNumber (Some (default (lit d) v)) = Cast (num_of_Z (query_number v d)).
Proof.
  intros [->|(s & -> & D)] N.
  - cbn in *. now rewrite N.
  - cbn [from_option id castNumber query_number] in *. rewrite (digits_only_nonempty _ D).
    rewrite (digits_only_number _ D), N. reflexivity.
Qed.

(** X13. The page of a listing.  For a [GET /product] answered with
    success, with a page from 1 to 100, a limit from 1 to 100 (1 and 10
    when absent) and at most 300 products meeting the query: the number
    of products sent is what the products meeting the query leave after
    [(page - 1) * limit] of them, and at most [limit]; [totalPages] is
    the ceiling of the total by the limit, [hasNextPage] is
    [page < totalPages] and [hasPrevPage] is [page > 1]. *)
Theorem page_of_products req st :
  req_method req = "GET" ->
  List.filter (fun s => negb (string_eqb s EmptyString)) (req_path req) = ["product"] ->
  is_success (fst (app req st)) = true ->
  let q := req_query req in
  let p := query_number (q !! "page") 1 in
  let l := query_number (q !! "limit") 10 in
  let n := Z.of_nat (length (selected_products q st)) in
  1 <= p <= 100 -> 1 <= l <= 100 -> n <= 300 ->
  let res := fst (app req st) in
  status res = 200 /\
  Z.of_nat (length (product_items res)) = Z.min l (Z.max 0 (n - (p - 1) * l)) /\
  exists pg,
    pagination_of res = Some pg /\
    totalCount pg = num_of_Z n /\
    totalPages pg = num_of_Z ((n + l - 1) / l) /\
    hasNextPage pg = (p <? (n + l - 1) / l) /\
    hasPrevPage pg = (1 <? p) /\
    currentPage pg = default (lit 1) (q !! "page") /\
    limit pg = default (lit 10) (q !! "limit").
Proof.
  intros Hm Hp S q p l n Bp Bl Bn res.
  pose proof (get_products_route _ Hm Hp) as R.
  pose proof (app_success_validated _ _ _ _ _ R eq_refl S) as V.
  change validatePagination with paginationSchema in V.
  destruct (pagination_typed req V) as (Tp & Tl & _). fold q in Tp, Tl.
  destruct (query_value _ 1 Tp) as (Pv & Pn). destruct (query_value _ 10 Tl) as (Lv & Ln).
  fold p in Pn. fold l in Ln.
  destruct (page_arithmetic p l n Bp Bl ltac:(lia))
    as (A1 & A2 & A3 & A4 & A5 & A6 & A7 & A8 & A9 & A10).
  pose proof (castNumber_query _ 10 Tl A5) as Cl. fold l in Cl.
  assert (W : pagination_window (js_default (q !! "page") (lit 1))
                (js_default (q !! "limit") (lit 10))
              = (default (lit 1) (q !! "page"), default (lit 10) (q !! "limit"),
                 js_mul (js_sub (num_of_Z p) (num_of_Z 1)) (num_of_Z l))).
  { unfold pagination_window. rewrite Pv, Lv, Pn, Ln. reflexivity. }
  pose proof (app_success_result _ _ _ _ R S) as E. cbn [r_controller handler] in E.
  apply getProducts_inv in E. cbv zeta in E. fold q res in E. rewrite W in E.
  cbn [fst snd] in E. rewrite Cl, Ln, Pn in E. destruct E as (_ & _ & _ & _ & E).
  fold n in E. change (count (length (selected_products q st))) with (num_of_Z n) in E.
  rewrite A8, A9, A10 in E.
  set (found := sort_by (listing_order q) (selected_products q st)) in E.
  assert (Hf : Z.of_nat (length found) = n) by (subst found n; now rewrite length_sort_by).
  assert (Hw : window (js_mul (js_sub (num_of_Z p) (num_of_Z 1)) (num_of_Z l)) (num_of_Z l) found
               = List.firstn (Z.to_nat l) (List.skipn (Z.to_nat ((p - 1) * l)) found)).
  { unfold window. rewrite A3, A6.
    destruct (num_of_Z l) as [s| | |] eqn:El; try (rewrite Z.abs_eq by lia; reflexivity).
    exfalso. now apply (A7 s). }
  rewrite Hw in E. rewrite E. cbn [status product_items pagination_of payload].
  split; [reflexivity|]. split.
  - rewrite length_map, length_firstn, length_skipn.
    assert (0 <= (p - 1) * l) by nia. lia.
  - eexists. split; [reflexivity|]. cbn. repeat split.
Qed.
End PageTheorem.

Lemma listing_selects_witness :
  let req := GET ["product"] [("status", VString "In Stock")] in
  option_map totalCount (pagination_of (fst (app req (sample_state 3)))) = Some (count 3) /\
  (length (product_items (fst (app req (sample_state 3)))) <= 3)%nat.
Proof.
  destruct (@listing_selects sample_platform
              (GET ["product"] [("status", VString "In Stock")]) (sample_state 3)
              eq_refl eq_refl) as (_ & T & L).
  - vm_compute. reflexivity.
  - split; [exact T | exact L].
Defined.

Lemma listing_sorted_witness :
  let req := GET ["product"] [] in
  Sorted (fun a b => compare_option Z.compare (p_createdAt b) (p_createdAt a) <> Gt)
    (map pd_doc (product_items (fst (app req (sample_state 3))))).
Proof.
  destruct (@listing_sorted sample_platform (GET ["product"] []) (sample_state 3)
              eq_refl eq_refl) as (_ & D & _).
  - vm_compute. reflexivity.
  - apply D; reflexivity.
Defined.

Lemma page_of_products_witness :
  let req := GET ["product"] [("page", VString "2"); ("limit", VString "2")] in
  let res := fst (app req (sample_state 3)) in
  status res = 200 /\
  Z.of_nat (length (product_items res)) = 1 /\
  exists pg,
    pagination_of res = Some pg /\
    totalCount pg = num_of_Z 3 /\ totalPages pg = num_of_Z 2 /\
    hasNextPage pg = false /\ hasPrevPage pg = true.
Proof.
  destruct (@page_of_products sample_platform
              (GET ["product"] [("page", VString "2"); ("limit", VString "2")]) (sample_state 3)
              eq_refl eq_refl)
    as (S & I & pg & P & T1 & T2 & N & V & _).
  - vm_compute. reflexivity.
  - vm_compute. split; discriminate.
  - vm_compute. split; discriminate.
  - vm_compute. discriminate.
  - split; [exact S|]. split; [exact I|]. exists pg.
    split; [exact P|]. split; [exact T1|]. split; [exact T2|]. split; [exact N | exact V].
Defined.

(** * The longest run is the longest increasing substring *)

Lemma increasing_boundary (x' : string) (lst c : ascii) (y : string) :
  increasing ((x' +:+ String lst EmptyString) +:+ String c y) ->
  (nat_of_ascii lst < nat_of_ascii c)%nat.
Proof.
  induction x' as [|a x' IH]; rewrite ?app_cons, ?app_empty.
  - simpl. tauto.
  - destruct x' as [|b x']; rewrite ?app_cons, ?app_empty in *; simpl; intros [_ Hi]; apply IH;
      exact Hi.
Qed.

Lemma app_last_suffix (pre : string) : forall a lst x,
  a +:+ String lst EmptyString = pre +:+ x -> x <> EmptyString ->
  exists x', x = x' +:+ String lst EmptyString.
Proof.
  induction pre as [|p pre IH]; intros a lst x E Hx.
  - rewrite app_empty in E. eauto.
  - rewrite app_cons in E. destruct a as [|q a]; rewrite ?app_cons, ?app_empty in E.
    + injection E as _ E. destruct pre; [rewrite app_empty in E; congruence | discriminate].
    + injection E as _ E. eapply IH; eassumption.
Qed.

Lemma app_prefix_cases (a : string) : forall b sub post,
  a +:+ b = sub +:+ post ->
  (exists post', a = sub +:+ post') \/
  (exists y, y <> EmptyString /\ sub = a +:+ y /\ b = y +:+ post).
Proof.
  induction a as [|c a IH]; intros b sub post E.
  - rewrite app_empty in E. destruct sub as [|d sub].
    + left. exists EmptyString. reflexivity.
    + right. exists (String d sub). rewrite app_empty. split; [discriminate | tauto].
  - rewrite app_cons in E. destruct sub as [|d sub].
    + left. exists (String c a). reflexivity.
    + rewrite app_cons in E. injection E as -> E.
      destruct (IH _ _ _ E) as [(post' & ->)|(y & Hy & -> & ->)].
      * left. exists post'. reflexivity.
      * right. exists y. rewrite app_cons. tauto.
Qed.

(** A substring of [a ++ b] lies in [a], lies in [b], or joins a
    non-empty end of [a] to a non-empty start of [b]. *)
Lemma app_split (a : string) : forall b pre sub post,
  a +:+ b = pre +:+ (sub +:+ post) ->
  (exists post', a = pre +:+ (sub +:+ post')) \/
  (exists pre', b = pre' +:+ (sub +:+ post)) \/
  (exists x y, x <> EmptyString /\ y <> EmptyString /\ sub = x +:+ y /\
               a = pre +:+ x /\ b = y +:+ post).
Proof.
  induction a as [|c a IH]; intros b pre sub post E.
  - rewrite app_empty in E. right; left. eauto.
  - destruct pre as [|d pre].
    + rewrite app_empty in E.
      destruct (app_prefix_cases _ _ _ _ E) as [(post' & ->)|(y & Hy & -> & ->)].
      * left. exists post'. now rewrite app_empty.
      * right; right. exists (String c a), y. rewrite app_empty.
        repeat split; [discriminate | exact Hy].
    + rewrite !app_cons in E. injection E as -> E.
      destruct (IH _ _ _ _ E) as [(post' & ->)|[(pre' & ->)|(x & y & Hx & Hy & -> & -> & ->)]].
      * left. exists post'. now rewrite app_cons.
      * right; left. eauto.
      * right; right. exists x, y. rewrite app_cons. tauto.
Qed.

Lemma length_substring_le (pre sub post : string) :
  (String.length sub <= String.length (pre +:+ (sub +:+ post)))%nat.
Proof. rewrite !string_length_app. lia. Qed.

Lemma runs_from_bound (rest : string) : forall start cur' lst pre sub post,
  (cur' +:+ String lst EmptyString) +:+ rest = pre +:+ (sub +:+ post) ->
  increasing sub ->
  (String.length sub
   <= list_max (map run_length (runs_from start (cur' +:+ String lst EmptyString) lst rest)))%nat.
Proof.
  induction rest as [|c rest IH]; intros start cur' lst pre sub post E Hi.
  - cbn [runs_from map list_max fold_right]. unfold run_length at 1. cbn [snd].
    rewrite string_app_nil_r in E. rewrite E. pose proof (length_substring_le pre sub post). lia.
  - cbn [runs_from]. destruct (Nat.ltb_spec (nat_of_ascii lst) (nat_of_ascii c)) as [Hlt|Hge].
    + apply (IH start (cur' +:+ String lst EmptyString) c pre sub post); [|exact Hi].
      rewrite <- E.
      rewrite (string_app_assoc (cur' +:+ String lst EmptyString) (String c EmptyString) rest).
      reflexivity.
    + cbn [map list_max fold_right]. unfold run_length at 1. cbn [snd].
      destruct (app_split _ _ _ _ _ E)
        as [(post' & Ea)|[(pre' & Eb)|(x & y & Hx & Hy & -> & Ea & Eb)]].
      * rewrite Ea. pose proof (length_substring_le pre sub post'). lia.
      * pose proof (IH (start + String.length (cur' +:+ String lst EmptyString))%nat
                      EmptyString c pre' sub post) as B.
        rewrite app_empty in B. specialize (B Eb Hi).
        unfold list_max in B. lia.
      * exfalso. destruct (app_last_suffix _ _ _ _ Ea Hx) as (x' & ->).
        destruct y as [|d y]; [congruence|]. rewrite app_cons in Eb. injection Eb as <- _.
        apply increasing_boundary in Hi. lia.
Qed.

Lemma runs_from_substring (rest : string) : forall start cur' lst r,
  increasing (cur' +:+ String lst EmptyString) ->
  In r (runs_from start (cur' +:+ String lst EmptyString) lst rest) ->
  increasing (snd r) /\
  exists pre post, (cur' +:+ String lst EmptyString) +:+ rest = pre +:+ (snd r +:+ post).
Proof.
  induction rest as [|c rest IH]; intros start cur' lst r Hi Hin.
  - destruct Hin as [<-|[]]. cbn [snd]. split; [exact Hi|].
    exists EmptyString, EmptyString. now rewrite app_empty.
  - cbn [runs_from] in Hin.
    destruct (Nat.ltb_spec (nat_of_ascii lst) (nat_of_ascii c)) as [Hlt|Hge].
    + destruct (IH start (cur' +:+ String lst EmptyString) c r) as (Hr & pre & post & E).
      * now apply increasing_snoc.
      * exact Hin.
      * split; [exact Hr|]. exists pre, post. rewrite <- E.
        rewrite (string_app_assoc (cur' +:+ String lst EmptyString) (String c EmptyString) rest).
        reflexivity.
    + destruct Hin as [<-|Hin].
      * cbn [snd]. split; [exact Hi|]. exists EmptyString, (String c rest).
        now rewrite app_empty.
      * destruct (IH (start + String.length (cur' +:+ String lst EmptyString))%nat
                    EmptyString c r) as (Hr & pre & post & E).
        { rewrite app_empty. exact I. }
        { rewrite app_empty. exact Hin. }
        split; [exact Hr|]. rewrite app_empty, app_cons, app_empty in E.
        exists ((cur' +:+ String lst EmptyString) +:+ pre), post.
        rewrite E. symmetry. apply string_app_assoc.
Qed.

(** X14. The length [findLongestIncreasingSubstringsLength] returns is
    the length of a longest contiguous substring whose characters
    strictly increase: no such substring is longer and one has this
    length.  It is 0 for the empty string only and never exceeds the
    length of the string. *)
Theorem longest_length_is_longest (s : string) :
  let n := findLongestIncreasingSubstringsLength s in
  (forall pre sub post,
      s = pre +:+ (sub +:+ post) -> increasing sub -> Z.of_nat (String.length sub) <= n) /\
  (exists pre sub post,
      s = pre +:+ (sub +:+ post) /\ increasing sub /\ Z.of_nat (String.length sub) = n) /\
  0 <= n <= Z.of_nat (String.length s) /\
  (n = 0 <-> s = EmptyString).
Proof.
  intros n. subst n. rewrite length_correct.
  destruct s as [|c rest].
  - split; [|split; [|split]].
    + intros pre sub post E _. destruct pre; [|discriminate].
      rewrite app_empty in E. destruct sub; [change (0 <= 0); lia | discriminate].
    + exists EmptyString, EmptyString, EmptyString. repeat split.
    + change (0 <= 0 <= 0). lia.
    + change (0 = 0 <-> EmptyString = EmptyString). tauto.
  - assert (U : forall pre sub post,
               String c rest = pre +:+ (sub +:+ post) -> increasing sub ->
               (String.length sub <= longest_run_length (String c rest))%nat).
    { intros pre sub post E Hi. unfold longest_run_length, increasing_runs.
      apply (runs_from_bound rest 0 EmptyString c pre sub post); [|exact Hi].
      rewrite app_empty. exact E. }
    assert (A : exists pre sub post,
               String c rest = pre +:+ (sub +:+ post) /\ increasing sub /\
               String.length sub = longest_run_length (String c rest)).
    { pose proof (list_max_attained run_length (increasing_runs (String c rest))
                    (runs_from_nonempty _ _ _ _)) as HA.
      fold (longest_run_length (String c rest)) in HA.
      destruct (List.filter _ (increasing_runs (String c rest))) as [|r t] eqn:F;
        [congruence|].
      assert (Hr : In r (List.filter
                           (fun x => (run_length x =? longest_run_length (String c rest))%nat)
                           (increasing_runs (String c rest)))) by (rewrite F; now left).
      apply filter_In in Hr. destruct Hr as [Hin Hl]. apply Nat.eqb_eq in Hl.
      destruct (runs_from_substring rest 0 EmptyString c r) as (Hi & pre & post & E).
      { rewrite app_empty. exact I. }
      { rewrite app_empty. exact Hin. }
      rewrite app_empty in E. exists pre, (snd r), post. repeat split; assumption. }
    split; [|split; [|split]].
    + intros pre sub post E Hi. apply Nat2Z.inj_le. eapply U; eassumption.
    + destruct A as (pre & sub & post & E & Hi & Hl). exists pre, sub, post.
      repeat split; try assumption. now rewrite Hl.
    + destruct A as (pre & sub & post & E & Hi & Hl). rewrite <- Hl, E.
      pose proof (length_substring_le pre sub post). lia.
    + pose proof (longest_run_positive c rest). split; [lia | discriminate].
Qed.

(** * Where the longest runs lie *)

Lemma runs_from_at (rest : string) : forall start cur' lst r,
  In r (runs_from start (cur' +:+ String lst EmptyString) lst rest) ->
  (1 <= run_length r)%nat /\
  exists pre post,
    (cur' +:+ String lst EmptyString) +:+ rest = pre +:+ (snd r +:+ post) /\
    fst r = (start + String.length pre)%nat.
Proof.
  induction rest as [|c rest IH]; intros start cur' lst r Hin.
  - destruct Hin as [<-|[]]. cbn [fst snd]. split.
    + unfold run_length. cbn [snd]. rewrite string_length_app. simpl. lia.
    + exists EmptyString, EmptyString. rewrite app_empty. simpl. split; [reflexivity | lia].
  - cbn [runs_from] in Hin.
    destruct (Nat.ltb_spec (nat_of_ascii lst) (nat_of_ascii c)) as [Hlt|Hge].
    + destruct (IH start (cur' +:+ String lst EmptyString) c r Hin) as (Hl & pre & post & E & F).
      split; [exact Hl|]. exists pre, post. split; [|exact F]. rewrite <- E.
      rewrite (string_app_assoc (cur' +:+ String lst EmptyString) (String c EmptyString) rest).
      reflexivity.
    + destruct Hin as [<-|Hin].
      * cbn [fst snd]. split.
        -- unfold run_length. cbn [snd]. rewrite string_length_app. simpl. lia.
        -- exists EmptyString, (String c rest). rewrite app_empty. simpl.
           split; [reflexivity | lia].
      * destruct (IH (start + String.length (cur' +:+ String lst EmptyString))%nat
                    EmptyString c r) as (Hl & pre & post & E & F).
        { rewrite app_empty. exact Hin. }
        split; [exact Hl|]. rewrite app_empty, app_cons, app_empty in E.
        exists ((cur' +:+ String lst EmptyString) +:+ pre), post. split.
        -- rewrite E. symmetry. apply string_app_assoc.
        -- rewrite F, !string_length_app. lia.
Qed.

Lemma runs_from_ordered (rest : string) : forall start cur' lst,
  StronglySorted (fun a b => (fst a + run_length a <= fst b)%nat)
    (runs_from start (cur' +:+ String lst EmptyString) lst rest).
Proof.
  induction rest as [|c rest IH]; intros start cur' lst.
  - repeat constructor.
  - cbn [runs_from]. destruct (nat_of_ascii lst <? nat_of_ascii c)%nat.
    + apply (IH start (cur' +:+ String lst EmptyString) c).
    + constructor.
      * pose proof (IH (start + String.length (cur' +:+ String lst EmptyString))%nat
                      EmptyString c) as S.
        rewrite app_empty in S. exact S.
      * apply List.Forall_forall. intros r Hin. cbn [fst]. unfold run_length at 1. cbn [snd].
        destruct (runs_from_at rest (start + String.length (cur' +:+ String lst EmptyString))
                    EmptyString c r) as (_ & pre & post & _ & F).
        { rewrite app_empty. exact Hin. }
        rewrite F. lia.
Qed.

Lemma StronglySorted_filter {A} (R : A -> A -> Prop) (f : A -> bool) (l : list A) :
  StronglySorted R l -> StronglySorted R (List.filter f l).
Proof.
  induction 1 as [|x l S IH F]; simpl; [constructor|].
  destruct (f x); [|exact IH]. constructor; [exact IH|].
  apply List.Forall_forall. intros y Hy. apply filter_In in Hy.
  rewrite List.Forall_forall in F. now apply F.
Qed.

Lemma last_In {A} (l : list A) (d : A) : In (List.last l d) (d :: l).
Proof.
  revert d. induction l as [|x l IH]; intros d; [now left|].
  right. destruct l as [|y l]; [now left|].
  change (List.last (x :: y :: l) d) with (List.last (y :: l) d).
  rewrite (last_cons_nonempty d y x l). apply (IH x).
Qed.

Lemma concat_strings_length (n : nat) (l : list (nat * string)) :
  (forall r, In r l -> run_length r = n) ->
  String.length (concat_strings (map snd l)) = (length l * n)%nat.
Proof.
  induction l as [|r l IH]; intros Hl; [reflexivity|].
  cbn [map concat_strings fold_right length]. rewrite string_length_app.
  fold (concat_strings (map snd l)). rewrite IH by (intros; apply Hl; now right).
  rewrite <- (Hl r) by now left. unfold run_length. lia.
Qed.

(** X15. For a name whose lower-cased form [s] is not empty, the
    indices [findLongestIncreasingSubstrings] returns are positions in
    [s], with at least the longest length from [startIndex] to
    [endIndex]; the substring is made of one or more pieces of the
    longest length and begins with the characters of [s] from
    [startIndex] on; and when the two indices span exactly the longest
    length, the substring is exactly the characters from [startIndex] to
    [endIndex] of [s]. *)
Theorem longest_runs_result (name : string) :
  toLowerCase name <> EmptyString ->
  let s := toLowerCase name in
  let r := findLongestIncreasingSubstrings name in
  let n := findLongestIncreasingSubstringsLength s in
  0 <= startIndex r /\ startIndex r + n - 1 <= endIndex r /\
  endIndex r < Z.of_nat (String.length s) /\
  (exists k, (1 <= k)%nat /\ String.length (substring r) = (k * Z.to_nat n)%nat) /\
  (exists others,
      substring r = js_substring s (startIndex r) (startIndex r + n) +:+ others) /\
  (endIndex r - startIndex r + 1 = n ->
   substring r = js_substring s (startIndex r) (endIndex r + 1)).
Proof.
  intros Hs s r n. subst r n. fold s in Hs.
  assert (Hne : name <> EmptyString) by (intros E; apply Hs; subst s; now rewrite E).
  pose proof (findLongest_spec name) as Sp. fold s in Sp. rewrite length_correct.
  unfold spec_longest_runs, tying_runs in Sp.
  set (m := longest_run_length s) in *.
  destruct s as [|c rest] eqn:Es; [congruence|].
  pose proof (runs_from_ordered rest 0 EmptyString c) as Ord. rewrite app_empty in Ord.
  apply (StronglySorted_filter _ (fun r => (run_length r =? m)%nat)) in Ord.
  assert (At : forall r, In r (List.filter (fun r => (run_length r =? m)%nat)
                                 (increasing_runs (String c rest))) ->
               run_length r = m /\ (1 <= m)%nat /\
               exists pre post, String c rest = pre +:+ (snd r +:+ post) /\
                                fst r = String.length pre).
  { intros r Hr. apply filter_In in Hr. destruct Hr as [Hin Hm]. apply Nat.eqb_eq in Hm.
    destruct (runs_from_at rest 0 EmptyString c r) as (Hl & pre & post & E & F).
    { rewrite app_empty. exact Hin. }
    rewrite app_empty in E. split; [exact Hm|]. split; [lia|]. eauto. }
  change (runs_from 0 (String c EmptyString) c rest) with (increasing_runs (String c rest)) in Ord.
  destruct (List.filter _ (increasing_runs (String c rest))) as [|first others] eqn:F.
  { exfalso. congruence. }
  rewrite Sp. cbn [startIndex endIndex substring].
  destruct (At first ltac:(now left)) as (Lf & Hm & pre & post & E & Ff).
  pose proof (last_In others first) as Hlast.
  set (lst := List.last others first) in *.
  destruct (At lst Hlast) as (Ll & _ & pre' & post' & E' & Fl).
  assert (Hfl : others = [] \/ (fst first + run_length first <= fst lst)%nat).
  { subst lst. clear Hlast Ll E' Fl. destruct others as [|o others']; [now left|]. right.
    inversion Ord as [|? ? _ Fo]; subst. rewrite List.Forall_forall in Fo. apply Fo.
    rewrite (last_cons_nonempty first o o others').
    replace (List.last (o :: others') o) with (List.last others' o)
      by (destruct others'; reflexivity).
    apply last_In. }
  assert (Hle : (fst first <= fst lst)%nat).
  { destruct Hfl as [->|Hfl]; [subst lst; simpl; lia | lia]. }
  assert (Hend : (fst lst + run_length lst <= String.length (String c rest))%nat).
  { rewrite E', Fl, !string_length_app. unfold run_length. lia. }
  assert (Hslice : snd first = js_substring (String c rest) (run_start first)
                                 (run_start first + Z.of_nat m)).
  { unfold run_start. rewrite E, Ff, <- Lf. unfold run_length.
    rewrite <- Nat2Z.inj_add. symmetry. apply js_substring_middle. }
  unfold run_start, run_end in *. rewrite Ll.
  split; [lia|]. split; [lia|]. split; [lia|]. split; [|split].
  - exists (length (first :: others)). split; [simpl; lia|].
    rewrite Nat2Z.id. apply concat_strings_length.
    intros r Hr. now destruct (At r Hr).
  - exists (concat_strings (map snd others)).
    cbn [map concat_strings fold_right]. now rewrite <- Hslice.
  - intros Hu. destruct Hfl as [->|Hfl]; [|lia].
    cbn [map concat_strings fold_right]. rewrite string_app_nil_r.
    subst lst. cbn [List.last]. rewrite Hslice. f_equal. lia.
Qed.

Lemma longest_runs_result_witness :
  let r := findLongestIncreasingSubstrings "aabcabcd" in
  0 <= startIndex r /\ startIndex r + 4 - 1 <= endIndex r /\ endIndex r < 8 /\
  substring r = js_substring "aabcabcd" (startIndex r) (endIndex r + 1).
Proof.
  destruct (longest_runs_result "aabcabcd" ltac:(discriminate)) as (A & B & C & _ & _ & U).
  split; [exact A|]. split; [exact B|]. split; [exact C|]. apply U. reflexivity.
Defined.

(** * Categories *)

Section CategoryTheorems.
Context `{Platform}.

Lemma category_id_route req id :
  List.filter (fun s => negb (string_eqb s EmptyString)) (req_path req) = ["category"; id] ->
  string_eqb id EmptyString = false /\
  (req_method req = "GET" ->
   rootRouter req = Some (mkRoute None GetCategoryById, with_id req id)) /\
  (req_method req = "DELETE" ->
   rootRouter req = Some (mkRoute None DeleteCategoryById, with_id req id)).
Proof.
  intros P. split.
  - assert (Hin : In id (List.filter (fun s => negb (string_eqb s EmptyString)) (req_path req)))
      by (rewrite P; simpl; tauto).
    apply filter_In in Hin. destruct Hin as [_ Hn]. now apply negb_true_iff.
  - unfold rootRouter. rewrite P. unfold categoryRouter, route_method. split; intros ->; reflexivity.
Qed.


End CategoryTheorems.

Section CreateCategoryFacts.
Context `{Platform}.

(** What a request that passed [validateCreateCategory] holds. *)
Lemma create_category_typed req :
  validate createCategorySchema req = None ->
  exists b name,
    req_body req = Some b /\ b !! "name" = Some (VString name) /\
    (1 <= String.length name <= 50)%nat /\
    (b !! "description" = None \/ exists d, b !! "description" = Some (VString d)).
Proof.
  intros V.
  pose proof (validate_entries createCategorySchema req) as E. rewrite V in E.
  specialize (E ltac:(cbn; tauto)).
  unfold violated_fields, createCategorySchema in E.
  cbn [flat_map violated_in section_input section_name] in E. rewrite app_nil_r in E.
  destruct (req_body req) as [b|]; [|discriminate E].
  apply map_eq_nil in E. cbn [List.filter fst snd] in E.
  repeat match type of E with
         | context [negb (field_ok ?z ?v)] =>
             let F := fresh "F" in
             destruct (field_ok z v) eqn:F; cbn [negb] in E; [|discriminate E]
         end.
  clear E. cbn [field_ok] in F, F0.
  destruct (b !! "name") as [[| | |name|]|] eqn:En; try discriminate F.
  cbn [forallb string_check_ok] in F. rewrite andb_true_r in F.
  apply andb_true_iff in F. destruct F as [F1 F2].
  apply Nat.leb_le in F1, F2.
  exists b, name. repeat split; try assumption.
  destruct (b !! "description") as [[| | |d|]|]; try discriminate F0;
    [right; exists d; reflexivity | left; reflexivity].
Qed.

(** X18. A [POST /category] answered with success has stored exactly one
    new category after the others and left the products as they were.
    The category has the next identifier of the counter, the name of the
    body (1 to 50 characters, not the name of a stored category), the
    description of the body if it gives one, and both dates at the clock
    reading; the response is 201 with this category. *)
Theorem create_category_stores req st :
  req_method req = "POST" -> req_path req = ["category"] ->
  is_success (fst (app req st)) = true ->
  exists b name new,
    req_body req = Some b /\ b !! "name" = Some (VString name) /\
    (1 <= String.length name <= 50)%nat /\
    fst (app req st) =
    mkResponse 201
      (Success "Category created successfully" (Some (CategoryData new)) None None None) /\
    categories (snd (app req st)) = categories st ++ [new] /\
    products (snd (app req st)) = products st /\
    c_id new = hex_digits 24 (nextId st) /\ c_name new = name /\
    c_createdAt new = Some (req_now req) /\ c_updatedAt new = Some (req_now req) /\
    (b !! "description" = None -> c_description new = None) /\
    (forall d, b !! "description" = Some (VString d) -> c_description new = Some d) /\
    (forall c, In c (categories st) -> c_name c <> name).
Proof.
  intros Hm Hp S.
  pose proof (post_category_route _ Hm Hp) as R.
  pose proof (app_success_validated _ _ _ _ _ R eq_refl S) as V.
  change validateCreateCategory with createCategorySchema in V.
  destruct (create_category_typed req V) as (b & name & B & Nn & Ln & _).
  pose proof (app_success_result _ _ _ _ R S) as E. cbn [r_controller handler] in E.
  unfold createCategory, body_of in E. rewrite B in E. mrun E.
  apply Category_create_inv in Hm1.
  destruct Hm1 as (Hid & Hname & Hd & Hc & Hu & Hx & Cs & Ps & Ns).
  unfold ret in Hm0. injection Hm0 as <- <-.
  rewrite Nn in Hname. cbn in Hname.
  exists b, name, a0.
  split; [exact B|]. split; [exact Nn|]. split; [exact Ln|]. split; [symmetry; exact H0|].
  split; [exact Cs|]. split; [exact Ps|]. split; [exact Hid|]. split; [exact Hname|].
  split; [exact Hc|]. split; [exact Hu|]. split; [|split].
  - intros Hn. rewrite Hd, Hn. reflexivity.
  - intros d Hn. rewrite Hd, Hn. reflexivity.
  - intros c Hin Hq.
    assert (T : existsb (fun c0 => string_eqb (c_name c0) (c_name a0)) (categories st) = true).
    { apply existsb_exists. exists c. split; [assumption|]. rewrite Hname, Hq.
      apply string_eqb_refl. }
    congruence.
Qed.
End CreateCategoryFacts.

(** * Runs of the category routes and of the invariant *)

Lemma unique_indexes_kept_witness :
  let again := POST ["category"] toys_body in
  let watch := POST ["product"] watch_body in
  let st1 := snd (app again counted_state) in
  let st2 := snd (app watch st1) in
  store_ok counted_state /\
  status (fst (app again counted_state)) = 409 /\
  status (fst (app watch st1)) = 201 /\
  map c_name (categories st2) = ["Electronics"; "Toys"] /\
  map p_id (products st2) = [hex_digits 24 2; hex_digits 24 3; hex_digits 24 4] /\
  store_ok st2.
Proof.
  assert (Ok : store_ok counted_state).
  { unfold store_ok, counted_state.
    cbn [products categories nextId map p_id p_productCode c_id c_name counted_product
         counted_category].
    split; [|split; [|split; [|split]]].
    - constructor; [intros [E|[]]; apply hex_digits_inj in E; [discriminate E|reflexivity..]|].
      constructor; [intros []|constructor].
    - constructor; [intros [E|[]]; discriminate E|].
      constructor; [intros []|constructor].
    - constructor; [intros [E|[]]; apply hex_digits_inj in E; [discriminate E|reflexivity..]|].
      constructor; [intros []|constructor].
    - constructor; [intros [E|[]]; discriminate E|].
      constructor; [intros []|constructor].
    - intros k [Hk1 Hk2].
      split; intros [E|[E|[]]]; apply hex_digits_inj in E;
        first [exact Hk2 | reflexivity | idtac]; subst k; revert Hk1; vm_compute; congruence. }
  pose proof (@unique_indexes_kept sample_platform (POST ["category"] toys_body)
                counted_state Ok eq_refl) as Ok1.
  pose proof (@unique_indexes_kept sample_platform (POST ["product"] watch_body)
                (snd (app (POST ["category"] toys_body) counted_state)) Ok1 eq_refl) as Ok2.
  split; [exact Ok|]. split; [reflexivity|]. split; [reflexivity|].
  split; [reflexivity|]. split; [reflexivity | exact Ok2].
Defined.



Lemma create_category_stores_witness :
  let req := POST ["category"] toys_body in
  let st := sample_state 1 in
  exists b name new,
    req_body req = Some b /\ b !! "name" = Some (VString name) /\
    (1 <= String.length name <= 50)%nat /\
    fst (app req st) =
    mkResponse 201
      (Success "Category created successfully" (Some (CategoryData new)) None None None) /\
    categories (snd (app req st)) = categories st ++ [new] /\
    products (snd (app req st)) = products st /\
    c_id new = hex_digits 24 (nextId st) /\ c_name new = name /\
    c_createdAt new = Some (req_now req) /\ c_updatedAt new = Some (req_now req) /\
    (b !! "description" = None -> c_description new = None) /\
    (forall d, b !! "description" = Some (VString d) -> c_description new = Some d) /\
    (forall c, In c (categories st) -> c_name c <> name).
Proof.
  apply (@create_category_stores sample_platform (POST ["category"] toys_body) (sample_state 1)).
  - reflexivity.
  - reflexivity.
  - vm_compute. reflexivity.
Defined.

(** X19. A product whose stored discount is absent, zero or not a number
    is priced without a discount: for a finite price the discount amount
    and the savings are 0, the final price is the original price (both
    rounded to 2 decimals), and [hasDiscount] is false. *)
Theorem pricing_without_discount (product : product) (populated : option (option category)) :
  isFinite (p_price product) = true ->
  p_discount product = None \/ (exists s, p_discount product = Some (S754_zero s)) \/
  p_discount product = Some NaN ->
  let r := pd_pricing (calculatePricing product populated) in
  discountPercentage r = S754_zero false /\
  discountAmount r = S754_zero false /\ savings r = S754_zero false /\
  finalPrice r = originalPrice r /\ originalPrice r = toFixed2 (p_price product) /\
  hasDiscount r = false.
Proof.
  intros Hf Hd r. subst r. unfold calculatePricing.
  cbn [pd_pricing discountPercentage discountAmount savings finalPrice originalPrice hasDiscount].
  assert (E : number_of (js_or (option_map VNumber (p_discount product)) (Some (lit 0)))
              = S754_zero false).
  { destruct Hd as [E0|[(s & E0)|E0]]; rewrite E0; reflexivity. }
  rewrite E. rewrite num_hundred.
  destruct (p_price product) as [s|s| |s m e]; try discriminate Hf.
  - repeat split; destruct s; reflexivity.
  - repeat split; destruct s; reflexivity.
Qed.

Lemma pricing_without_discount_witness :
  let product := mkProduct "000000000000000000000001" "Pen" "A pen" (num_of_Z 3) None
                   "https://example.com/pen.jpg" None "code" "64b0c0ffee0000000000000a" None
                   None None in
  let r := pd_pricing (calculatePricing product None) in
  discountAmount r = S754_zero false /\ finalPrice r = num_of_Z 3 /\ hasDiscount r = false.
Proof.
  destruct (pricing_without_discount
              (mkProduct "000000000000000000000001" "Pen" "A pen" (num_of_Z 3) None
                 "https://example.com/pen.jpg" None "code" "64b0c0ffee0000000000000a" None
                 None None) None eq_refl (or_introl eq_refl)) as (_ & A & _ & F & O & D).
  split; [exact A|]. split; [|exact D]. rewrite F, O. reflexivity.
Defined.

(** * The validators of the model behind the request schema *)

Section ModelValidators.
Context `{Platform}.

Lemma Product_create_invalid n d p di im s code c cn now st e :
  In e (product_validators true
          {| u_id := Absent;
             u_name := castString n;
             u_description := castString d;
             u_price := castNumber p;
             u_discount := with_default (castNumber di) (num_of_Z 0);
             u_image := castString im;
             u_status := with_default (castString s) "In Stock";
             u_productCode := Cast code;
             u_category := castObjectId c;
             u_categoryName := Cast cn;
             u_createdAt := Cast now;
             u_updatedAt := Cast now;
             u_version := Absent |}) ->
  exists errors,
    Product_create n d p di im s code c cn now st
    = (inl (ValidationError errors), logged st "Product" "create").
Proof.
  intros Hin. unfold Product_create. cbv zeta.
  set (errs := _ ++ product_validators true _).
  assert (Hl : In e errs) by (apply in_or_app; right; exact Hin).
  clearbody errs. unfold bind, record_call.
  destruct errs as [|x l']; [destruct Hl|].
  eexists. reflexivity.
Qed.

(** X20. The model validates again behind the request schema: a
    [POST /product] that passed [validateCreateProduct], names an
    existing category and no existing product, but whose image is not an
    [http://] or [https://] address, is refused by [Product.create]; the
    answer is 400 VALIDATION_ERROR "Database validation failed" in the
    error envelope, and nothing is stored. *)
Theorem image_refused_by_model req st b name cid cat image :
  req_method req = "POST" -> req_path req = ["product"] ->
  validate createProductSchema req = None ->
  req_body req = Some b ->
  b !! "name" = Some (VString name) ->
  b !! "categoryId" = Some (VString cid) -> ObjectId_isValid cid = true ->
  List.find (has_category_id (toLowerCase cid)) (categories st) = Some cat ->
  List.find (fun q => string_eqb (p_name q) name && string_eqb (p_category q) (toLowerCase cid))
    (products st) = None ->
  b !! "image" = Some (VString image) -> image_match image = false ->
  let res := fst (app req st) in
  status res = 400 /\ error_type res = Some VALIDATION_ERROR /\
  (exists code details,
      payload res =
      ErrorResponse VALIDATION_ERROR "Database validation failed" code details development
        (req_now req) (path_text req) (req_method req)) /\
  same_db st (snd (app req st)).
Proof.
  intros Hm Hp V B Nn Nc Vc Fc Fd Ni Mi res. subst res.
  assert (R : exists errors st',
             app req st = (errorHandler (ValidationError errors) req, st') /\
             same_db st st').
  { rewrite (app_routed _ _ _ _ (post_product_route _ Hm Hp)). cbn [r_validate r_controller].
    change validateCreateProduct with createProductSchema. rewrite V.
    unfold run_handler. cbn [handler]. unfold createProduct, body_of. rewrite B.
    unfold bind at 1. unfold ret at 1. cbv beta zeta. rewrite Nn, Nc.
    unfold bind at 1. rewrite (Category_findById_eq _ _ _ (castObjectId_valid _ Vc)).
    cbn [categories logged]. rewrite Fc.
    unfold bind at 1.
    rewrite (Product_findOne_eq (Some (VString name)) (Some (VString cid)) name (toLowerCase cid)
               _ eq_refl (castObjectId_valid _ Vc)).
    cbn [products logged]. rewrite Fd.
    unfold bind at 1.
    set (e := if string_eqb image EmptyString
              then ("image", VRequired, Some (VString image))
              else ("image", VMatch, Some (VString image))).
    match goal with
    | |- context [Product_create ?n ?d ?p ?di ?im ?s ?code ?c ?cn ?now ?st0] =>
        destruct (Product_create_invalid n d p di im s code c cn now st0 e) as (errors & E)
    end.
    { unfold product_validators. cbn [u_name u_description u_price u_discount u_image u_status
                                      u_productCode u_category].
      rewrite Ni. cbn [castString required_string match_image]. rewrite Mi, orb_false_r.
      subst e. do 6 (apply in_or_app; right).
      destruct (string_eqb image EmptyString); [apply in_or_app; left; now left|].
      apply in_or_app; right. apply in_or_app; left. now left. }
    rewrite E. cbn [fst snd]. eexists _, _. split; [reflexivity|]. repeat split. }
  destruct R as (errors & st' & -> & S). cbn [fst snd]. unfold errorHandler. cbv zeta.
  cbn [fst snd formatMongooseValidationError status payload error_type].
  split; [reflexivity|]. split; [reflexivity|]. split; [eauto | exact S].
Qed.
End ModelValidators.

Lemma image_refused_by_model_witness :
  let res := fst (@app lenient_platform (POST ["product"] ftp_body) (sample_state 1)) in
  status res = 400 /\ error_type res = Some VALIDATION_ERROR /\
  same_db (sample_state 1) (snd (@app lenient_platform (POST ["product"] ftp_body) (sample_state 1))).
Proof.
  destruct (@image_refused_by_model lenient_platform (POST ["product"] ftp_body)
              (sample_state 1) (list_to_map ftp_body) "Lamp" "64b0c0ffee0000000000000a"
              sample_category "ftp://example.com/lamp.png"
              eq_refl eq_refl eq_refl eq_refl eq_refl eq_refl eq_refl eq_refl eq_refl eq_refl
              eq_refl) as (A & B & _ & C).
  split; [exact A|]. split; [exact B | exact C].
Defined.

(** * Listing categories *)

Section CategoryListing.
Context `{Platform}.

Lemma get_categories_route req :
  req_method req = "GET" ->
  List.filter (fun s => negb (string_eqb s EmptyString)) (req_path req) = ["category"] ->
  rootRouter req = Some (mkRoute (Some validatePagination) GetCategory, req).
Proof. intros Hm Hp. unfold rootRouter. rewrite Hp. unfold categoryRouter, route_method. now rewrite Hm. Qed.

(** What a successful [getCategory] sends. *)
Lemma getCategory_inv req st res st' :
  getCategory req st = (inr res, st') ->
  let q := req_query req in
  let f := {| f_search := if truthy (q !! "search") then q !! "search" else None;
              f_category := None; f_status := None |} in
  exists skip lim pages,
    category_items res
    = window skip lim (sort_by compare_categories_newest_first
                         (List.filter (category_matches f) (categories st))) /\
    pagination_of res = Some pages /\
    totalCount pages = count (length (List.filter (category_matches f) (categories st))) /\
    status res = 200.
Proof.
  intros E q f. unfold getCategory in E. fold q in E. fold f in E.
  destruct (pagination_window _ _) as [[pageNum limitNum] skip].
  mrun E. unfold Category_find in Hm. mrun Hm.
  unfold Category_countDocuments in Hm0. mrun Hm0.
  apply paging_inv in Hm1. destruct Hm1 as (-> & _).
  cbn [categories logged].
  eexists _, _, _. cbn [category_items pagination_of payload totalCount status].
  repeat split.
Qed.

(** X21. A [GET /category] answered with success lists stored categories
    only, newest first by [createdAt]; when the query has a search text
    that is not empty, each of them has it in its name or in its
    description.  The total of the envelope is the number of stored
    categories that meet the query, the page holds no more than that, and
    the status is 200. *)
Theorem category_listing req st :
  req_method req = "GET" ->
  List.filter (fun s => negb (string_eqb s EmptyString)) (req_path req) = ["category"] ->
  is_success (fst (app req st)) = true ->
  let q := req_query req in
  let res := fst (app req st) in
  let wanted (c : category) : bool :=
    match q !! "search" with
    | Some (VString s) =>
        string_eqb s EmptyString || regexSearch s (c_name c)
        || match c_description c with Some d => regexSearch s d | None => false end
    | _ => true
    end in
  status res = 200 /\
  (forall c, In c (category_items res) -> In c (categories st) /\ wanted c = true) /\
  Sorted (fun a b => compare_option Z.compare (c_createdAt b) (c_createdAt a) <> Gt)
    (category_items res) /\
  option_map totalCount (pagination_of res)
  = Some (count (length (List.filter wanted (categories st)))) /\
  (length (category_items res) <= length (List.filter wanted (categories st)))%nat.
Proof.
  intros Hm Hp S q res wanted.
  pose proof (get_categories_route _ Hm Hp) as R.
  pose proof (app_success_validated _ _ _ _ _ R eq_refl S) as V.
  change validatePagination with paginationSchema in V.
  pose proof (app_success_result _ _ _ _ R S) as E. cbn [r_controller handler] in E.
  apply getCategory_inv in E. cbv zeta in E. fold res q in E.
  destruct E as (skip & lim & pages & Ei & Ep & Et & Es).
  destruct (pagination_typed req V) as (_ & _ & Ts & _). fold q in Ts.
  assert (W : List.filter
                (category_matches
                   {| f_search := if truthy (q !! "search") then q !! "search" else None;
                      f_category := None; f_status := None |}) (categories st)
              = List.filter wanted (categories st)).
  { apply filter_ext. intros c. subst wanted. unfold category_matches. cbn [f_search].
    destruct Ts as [->|(s & ->)]; [reflexivity|].
    cbn [truthy]. destruct (string_eqb s EmptyString); [reflexivity|].
    cbn [negb search_matches existsb orb]. now rewrite orb_false_r. }
  rewrite W in Ei, Et. rewrite Ei, Ep. cbn [option_map]. rewrite Et.
  split; [exact Es|]. split; [|split; [|split]].
  - intros c Hin. apply In_window in Hin. apply In_sort_by in Hin. apply filter_In in Hin.
    exact Hin.
  - apply Sorted_window.
    apply (Sorted_impl (fun a b => compare_categories_newest_first a b <> Gt)).
    + intros a b. unfold compare_categories_newest_first.
      rewrite (compare_option_antisym Z.compare (c_createdAt a) (c_createdAt b))
        by (intros; apply Z.compare_antisym).
      tauto.
    + apply sort_by_Sorted. intros a b. unfold compare_categories_newest_first.
      rewrite (compare_option_antisym Z.compare (c_createdAt a) (c_createdAt b))
        by (intros; apply Z.compare_antisym).
      destruct (compare_option Z.compare (c_createdAt a) (c_createdAt b)); cbn;
        intros; congruence.
  - reflexivity.
  - etransitivity; [apply length_window_le|]. now rewrite length_sort_by.
Qed.

(** X22. A [GET] never writes: whatever the path and the query, and
    whether it is answered, refused or not routed at all, the products,
    the categories and the identifier counter are after the request what
    they were before it. *)
Theorem get_never_writes req st :
  req_method req = "GET" ->
  products (snd (app req st)) = products st /\
  categories (snd (app req st)) = categories st /\
  nextId (snd (app req st)) = nextId st.
Proof.
  intros Hm. destruct (app_get_reads req st Hm) as (Hc & Hp & Hn).
  repeat split; congruence.
Qed.
End CategoryListing.

Lemma category_listing_witness :
  let req := GET ["category"] [("search", VString "book")] in
  let res := fst (app req (sample_state 1)) in
  status res = 200 /\
  (forall c, In c (category_items res) -> In c (categories (sample_state 1))) /\
  (length (category_items res) <= 2)%nat.
Proof.
  destruct (@category_listing sample_platform (GET ["category"] [("search", VString "book")])
              (sample_state 1) eq_refl eq_refl eq_refl) as (A & B & _ & _ & C).
  split; [exact A|]. split; [|exact C].
  intros c Hin. exact (proj1 (B c Hin)).
Defined.

Lemma get_never_writes_witness :
  let req := GET ["product"] [("limit", VString "0")] in
  products (snd (app req (sample_state 3))) = products (sample_state 3) /\
  categories (snd (app req (sample_state 3))) = categories (sample_state 3) /\
  nextId (snd (app req (sample_state 3))) = nextId (sample_state 3).
Proof.
  apply (@get_never_writes sample_platform (GET ["product"] [("limit", VString "0")])
           (sample_state 3)).
  reflexivity.
Defined.
